(** * Speech-to-Speech Translator: orchestration and aggregation logic

    A shallow embedding of the decision-making code of the repository:

    - [src/pages/Index.tsx]: the statistics fold of [fetchModelStats], the
      exchange handler [handleTranscriptionReceived] and the conversation
      switches;
    - [src/components/ConversationHistory.tsx]: [fetchConversations],
      [deleteConversation], [formatDate] and [formatModelName];
    - the performance dashboard: its colours and progress values;
    - the [speech-to-speech] edge function: the request handler and the
      three mock model backends;
    - the migration that declares the three tables, their defaults and
      their CHECK constraints.

    JavaScript numbers are rationals with an explicit rounding operator
    applied after every arithmetic operation, so that the same definitions
    can be read over exact arithmetic and over IEEE-754 binary64. *)

From Stdlib Require Import ZArith QArith Qround Qabs List String Ascii Bool.
From Stdlib Require Import Lia Lqa Permutation Sorted RelationClasses Morphisms.
From Stdlib.Strings Require Import Byte.
From Stdlib Require Import DecimalString.
From Stdlib Require Import Floats.
Import ListNotations.

Set Implicit Arguments.

Close Scope Q_scope.
Open Scope string_scope.
Open Scope list_scope.
Open Scope nat_scope.

(* ================================================================== *)
(** ** JavaScript numbers *)
(* ================================================================== *)

Module Num.

Local Open Scope Q_scope.

(** Exact arithmetic: the result of an operation is kept as it is (in
    lowest terms, so that equal results are syntactically equal). *)
Definition exact (q : Q) : Q := Qred q.

(** Round a rational to the nearest integer, ties to even. *)
Definition round_ne (x : Q) : Z :=
  let f := Qfloor x in
  match Qcompare (x - inject_Z f) (1 # 2) with
  | Lt => f
  | Gt => (f + 1)%Z
  | Eq => if Z.even f then f else (f + 1)%Z
  end.

(** [floor (log2 a)] for a positive rational [a]. *)
Definition ilog2 (a : Q) : Z :=
  if Qle_bool 1 a then Z.log2 (Qfloor a)
  else (- Z.log2_up (Qceiling (/ a)))%Z.

(** [x * 2^e] for an integer exponent [e] of either sign. *)
Definition scale2 (x : Q) (e : Z) : Q :=
  if (0 <=? e)%Z then x * inject_Z (2 ^ e) else x / inject_Z (2 ^ (- e)).

(** The exponent of the last place of the doubles around [a]: 53
    significant bits, and never below -1074 (the subnormals). *)
Definition exponent (a : Q) : Z := Z.max (ilog2 a - 52) (-1074).

(** Round-to-nearest-even onto the binary64 grid of a positive rational.
    Magnitudes above the largest finite double are outside the model. *)
Definition binary64_pos (a : Q) : Q :=
  let e := exponent a in
  scale2 (inject_Z (round_ne (scale2 a (- e)))) e.

Definition binary64 (q : Q) : Q :=
  match Qcompare q 0 with
  | Eq => 0
  | Gt => Qred (binary64_pos q)
  | Lt => Qred (- binary64_pos (- q))
  end.

Section Ops.
(** [fl] is the rounding applied to the exact result of an operation. *)
Variable fl : Q -> Q.

Definition add (x y : Q) : Q := fl (x + y).
Definition mul (x y : Q) : Q := fl (x * y).
(** Division is only used with a divisor [usage_count + 1 >= 1]. *)
Definition div (x y : Q) : Q := fl (x / y).
End Ops.

Definition of_nat (n : nat) : Q := inject_Z (Z.of_nat n).

End Num.

(** Identifiers are the store's UUIDs: opaque, never empty, hence always
    truthy on the JavaScript side. *)
Definition uuid := nat.

(* ================================================================== *)
(** ** The statistics fold of [fetchModelStats] *)
(* ================================================================== *)

(** A row of [model_performance] as the client receives it. *)
Module Perf.
Record row := {
    id : uuid;
    user_id : uuid;
    model_name : string;
    language : string;
    latency_ms : Z;
    quality_score : option Q;         (* DECIMAL(3,2), nullable *)
    expressivity_score : option Q;    (* DECIMAL(3,2), nullable *)
    created_at : nat
  }.
End Perf.

Record ModelStats := {
  model_name : string;
  avg_latency : Q;
  avg_quality : Q;
  avg_expressivity : Q;
  usage_count : nat
}.

(** [x || 0] on a nullable number. *)
Definition or_zero (x : option Q) : Q :=
  match x with
  | Some q => q
  | None => 0%Q
  end.

(** A JavaScript [Map] with string keys: entries in insertion order. *)
Module JsMap.
Section JsMap.
Variable V : Type.

Definition t := list (string * V).

Fixpoint get (k : string) (m : t) : option V :=
  match m with
  | [] => None
  | (k', v) :: m' => if String.eqb k k' then Some v else get k m'
  end.

(** [set] overwrites in place, or appends a new entry at the end. *)
Fixpoint set (k : string) (v : V) (m : t) : t :=
  match m with
  | [] => [(k, v)]
  | (k', v') :: m' =>
      if String.eqb k k' then (k', v) :: m' else (k', v') :: set k v m'
  end.

Definition values (m : t) : list V := map snd m.
Definition keys (m : t) : list string := map fst m.
End JsMap.
End JsMap.

Section Stats.
Variable fl : Q -> Q.

Local Notation "x +. y" := (Num.add fl x y) (at level 50, left associativity).
Local Notation "x *. y" := (Num.mul fl x y) (at level 40, left associativity).
Local Notation "x /. y" := (Num.div fl x y) (at level 40, left associativity).

(** The body of [data?.forEach(record => ...)]. *)
Definition aggregate (statsMap : JsMap.t ModelStats) (record : Perf.row)
  : JsMap.t ModelStats :=
  match JsMap.get (Perf.model_name record) statsMap with
  | Some existing =>
      let n := Num.of_nat (usage_count existing) in
      let l := (avg_latency existing *. n +. inject_Z (Perf.latency_ms record))
               /. (n +. 1) in
      let q := (avg_quality existing *. n +. or_zero (Perf.quality_score record))
               /. (n +. 1) in
      let e := (avg_expressivity existing *. n
                +. or_zero (Perf.expressivity_score record))
               /. (n +. 1) in
      JsMap.set (Perf.model_name record)
        {| model_name := model_name existing;
           avg_latency := l;
           avg_quality := q;
           avg_expressivity := e;
           usage_count := S (usage_count existing) |}
        statsMap
  | None =>
      JsMap.set (Perf.model_name record)
        {| model_name := Perf.model_name record;
           avg_latency := inject_Z (Perf.latency_ms record);
           avg_quality := or_zero (Perf.quality_score record);
           avg_expressivity := or_zero (Perf.expressivity_score record);
           usage_count := 1 |}
        statsMap
  end.

(** Lines 108-128: fold the fetched rows into a fresh map and return its
    values. *)
Definition computeStats (data : list Perf.row) : list ModelStats :=
  JsMap.values (fold_left aggregate data []).
End Stats.

(* ================================================================== *)
(** ** The persistence layer, as the migration declares it *)
(* ================================================================== *)

Module Conv.
Record row := {
    id : uuid;
    user_id : uuid;
    title : string;
    model_used : string;
    language : string;
    created_at : nat;
    updated_at : nat
  }.
End Conv.

Module Msg.
Record row := {
    id : uuid;
    conversation_id : uuid;
    content : string;
    transcript : option string;
    audio_url : option string;
    is_user : bool;
    latency_ms : option Z;
    created_at : nat
  }.
End Msg.

(** The outcome [{ data, error }] of a client call. *)
Inductive result (A : Type) : Type :=
| Ok (data : A)
| Err (error : string).
Arguments Ok {A} data.
Arguments Err {A} error.

(** What the environment decides about one round-trip: how much time has
    passed on the store's clock since its previous statement, and whether
    the transport fails (the statement is then not executed). *)
Record net := {
  elapsed : nat;
  fault : option string
}.

Module Db.

Record store := {
  conversations : list Conv.row;
  messages : list Msg.row;
  model_performance : list Perf.row;
  clock : nat;            (* now(), in microseconds; it never runs backwards *)
  next_id : uuid          (* gen_random_uuid(): a value not handed out before *)
}.

Definition empty : store :=
  {| conversations := []; messages := []; model_performance := [];
     clock := 0; next_id := 0 |}.

Definition tick (n : net) (db : store) : store :=
  {| conversations := conversations db;
     messages := messages db;
     model_performance := model_performance db;
     clock := clock db + elapsed n;
     next_id := next_id db |}.

(** CHECK (... IN ('moshi', 'ultravox', 'spirit_lm')) *)
Definition model_names : list string := ["moshi"; "ultravox"; "spirit_lm"].
Definition check_model (m : string) : bool := existsb (String.eqb m) model_names.

(** INTEGER columns hold 32-bit signed values. *)
Definition int4 (z : Z) : bool :=
  ((-2147483648 <=? z) && (z <=? 2147483647))%Z.

(** Rounding of [numeric]: to the nearest integer, ties away from zero. *)
Definition round_half_away (x : Q) : Z :=
  match Qcompare x 0 with
  | Lt => (- Qfloor (- x + (1 # 2)))%Z
  | _ => Qfloor (x + (1 # 2))
  end.

(** Coercion to DECIMAL(3,2): two decimals, and an overflow error when the
    rounded value needs more than one digit before the point. *)
Definition decimal_3_2 (x : Q) : option Q :=
  let c := round_half_away (x * 100) in
  if (Z.abs c <? 1000)%Z then Some (Qred (inject_Z c / 100)) else None.

(** CHECK (score >= 0 AND score <= 5) *)
Definition check_score (x : Q) : bool := Qle_bool 0 x && Qle_bool x 5.

Definition owns (auth : option uuid) (owner : uuid) : bool :=
  match auth with
  | Some u => Nat.eqb u owner
  | None => false
  end.

(** The policies on [messages]: the conversation exists and belongs to the
    caller. *)
Definition owns_conversation (auth : option uuid) (cid : uuid) (db : store)
  : bool :=
  existsb (fun c => Nat.eqb (Conv.id c) cid && owns auth (Conv.user_id c))
          (conversations db).

Definition rls_violation (table : string) : string :=
  "new row violates row-level security policy for table " ++ table.
Definition check_violation (constraint : string) : string :=
  "new row violates check constraint " ++ constraint.

(** [from('conversations').insert({...}).select().single()] *)
Definition insert_conversation (n : net) (auth user_id : option uuid)
    (title model_used language : string) (db : store)
  : result Conv.row * store :=
  let db := tick n db in
  match fault n with
  | Some e => (Err e, db)
  | None =>
      match user_id with
      | Some uid =>
          if negb (owns auth uid) then (Err (rls_violation "conversations"), db)
          else if negb (check_model model_used)
          then (Err (check_violation "conversations_model_used_check"), db)
          else
            let row := {| Conv.id := next_id db; Conv.user_id := uid;
                          Conv.title := title; Conv.model_used := model_used;
                          Conv.language := language;
                          Conv.created_at := clock db;
                          Conv.updated_at := clock db |} in
            (Ok row,
             {| conversations := conversations db ++ [row];
                messages := messages db;
                model_performance := model_performance db;
                clock := clock db;
                next_id := S (next_id db) |})
      | None => (Err (rls_violation "conversations"), db)
      end
  end.

(** [from('messages').insert({...}).select().single()] *)
Definition insert_message (n : net) (auth : option uuid) (conversation_id : uuid)
    (content : string) (transcript audio_url : option string) (is_user : bool)
    (latency_ms : Z) (db : store)
  : result Msg.row * store :=
  let db := tick n db in
  match fault n with
  | Some e => (Err e, db)
  | None =>
      if negb (int4 latency_ms) then (Err "integer out of range", db)
      else if negb (owns_conversation auth conversation_id db)
      then (Err (rls_violation "messages"), db)
      else
        let row := {| Msg.id := next_id db;
                      Msg.conversation_id := conversation_id;
                      Msg.content := content;
                      Msg.transcript := transcript;
                      Msg.audio_url := audio_url;
                      Msg.is_user := is_user;
                      Msg.latency_ms := Some latency_ms;
                      Msg.created_at := clock db |} in
        (Ok row,
         {| conversations := conversations db;
            messages := messages db ++ [row];
            model_performance := model_performance db;
            clock := clock db;
            next_id := S (next_id db) |})
  end.

(** [from('model_performance').insert({...})]: nothing is selected back. *)
Definition insert_model_performance (n : net) (auth user_id : option uuid)
    (model_name language : string) (latency_ms : Z)
    (quality_score expressivity_score : Q) (db : store)
  : result unit * store :=
  let db := tick n db in
  match fault n with
  | Some e => (Err e, db)
  | None =>
      if negb (int4 latency_ms) then (Err "integer out of range", db)
      else
        match decimal_3_2 quality_score, decimal_3_2 expressivity_score with
        | Some q, Some e =>
            match user_id with
            | Some uid =>
                if negb (owns auth uid)
                then (Err (rls_violation "model_performance"), db)
                else if negb (check_model model_name)
                then (Err (check_violation "model_performance_model_name_check"), db)
                else if negb (check_score q)
                then (Err (check_violation "model_performance_quality_score_check"), db)
                else if negb (check_score e)
                then (Err (check_violation
                             "model_performance_expressivity_score_check"), db)
                else
                  let row := {| Perf.id := next_id db; Perf.user_id := uid;
                                Perf.model_name := model_name;
                                Perf.language := language;
                                Perf.latency_ms := latency_ms;
                                Perf.quality_score := Some q;
                                Perf.expressivity_score := Some e;
                                Perf.created_at := clock db |} in
                  (Ok tt,
                   {| conversations := conversations db;
                      messages := messages db;
                      model_performance := model_performance db ++ [row];
                      clock := clock db;
                      next_id := S (next_id db) |})
            | None => (Err (rls_violation "model_performance"), db)
            end
        | _, _ => (Err "numeric field overflow", db)
        end
  end.

(** ORDER BY created_at ASC, as a stable insertion sort. *)
Fixpoint insert_by_created_at (m : Msg.row) (l : list Msg.row) : list Msg.row :=
  match l with
  | [] => [m]
  | x :: l' =>
      if Msg.created_at m <? Msg.created_at x then m :: l
      else x :: insert_by_created_at m l'
  end.

Definition order_by_created_at (l : list Msg.row) : list Msg.row :=
  fold_left (fun acc m => insert_by_created_at m acc) l [].

(** [from('messages').select('*').eq('conversation_id', id)
      .order('created_at', { ascending: true })] *)
Definition select_messages (n : net) (auth : option uuid) (conversation_id : uuid)
    (db : store) : result (list Msg.row) * store :=
  let db := tick n db in
  match fault n with
  | Some e => (Err e, db)
  | None =>
      (Ok (order_by_created_at
             (filter (fun m => Nat.eqb (Msg.conversation_id m) conversation_id
                               && owns_conversation auth conversation_id db)
                     (messages db))),
       db)
  end.

(** [from('model_performance').select('*').eq('user_id', id)] *)
Definition select_model_performance (n : net) (auth user_id : option uuid)
    (db : store) : result (list Perf.row) * store :=
  let db := tick n db in
  match fault n with
  | Some e => (Err e, db)
  | None =>
      match user_id with
      | Some uid =>
          (Ok (filter (fun r => Nat.eqb (Perf.user_id r) uid
                                && owns auth (Perf.user_id r))
                      (model_performance db)),
           db)
      | None => (Err "invalid input syntax for type uuid", db)
      end
  end.

(** [from('conversations').delete().eq('id', id)]: rows the caller may not
    delete are silently skipped; messages go with their conversation
    (ON DELETE CASCADE). *)
Definition delete_conversation (n : net) (auth : option uuid) (id : uuid)
    (db : store) : result unit * store :=
  let db := tick n db in
  match fault n with
  | Some e => (Err e, db)
  | None =>
      let doomed c := Nat.eqb (Conv.id c) id && owns auth (Conv.user_id c) in
      let gone := existsb doomed (conversations db) in
      (Ok tt,
       {| conversations := filter (fun c => negb (doomed c)) (conversations db);
          messages :=
            filter (fun m => negb (gone && Nat.eqb (Msg.conversation_id m) id))
                   (messages db);
          model_performance := model_performance db;
          clock := clock db;
          next_id := next_id db |})
  end.

End Db.

(* ================================================================== *)
(** ** The page: [src/pages/Index.tsx] and the history sidebar *)
(* ================================================================== *)

(** What the user or the console gets to see. *)
Inductive notice : Type :=
| ConsoleError (label error : string)
| Toast (title description variant : string).

(** An entry of the sidebar ([ConversationHistory.tsx]). *)
Record Conversation := {
  id : uuid;
  title : string;
  model_used : string;
  language : string;
  created_at : nat;
  message_count : nat
}.

(** The React state of [Index] together with the sidebar's list. *)
Record session := {
  user : option uuid;
  selectedModel : string;
  selectedLanguage : string;
  currentConversationId : option uuid;
  messages : list Msg.row;
  modelStats : list ModelStats;
  conversations : list Conversation;
  notices : list notice
}.

Definition initial (u : option uuid) : session :=
  {| user := u; selectedModel := "moshi"; selectedLanguage := "en";
     currentConversationId := None; messages := []; modelStats := [];
     conversations := []; notices := [] |}.

Definition setCurrentConversationId (c : option uuid) (st : session) : session :=
  {| user := user st; selectedModel := selectedModel st;
     selectedLanguage := selectedLanguage st;
     currentConversationId := c; messages := messages st;
     modelStats := modelStats st; conversations := conversations st;
     notices := notices st |}.

Definition setMessages (f : list Msg.row -> list Msg.row) (st : session)
  : session :=
  {| user := user st; selectedModel := selectedModel st;
     selectedLanguage := selectedLanguage st;
     currentConversationId := currentConversationId st;
     messages := f (messages st);
     modelStats := modelStats st; conversations := conversations st;
     notices := notices st |}.

Definition setModelStats (s : list ModelStats) (st : session) : session :=
  {| user := user st; selectedModel := selectedModel st;
     selectedLanguage := selectedLanguage st;
     currentConversationId := currentConversationId st;
     messages := messages st;
     modelStats := s; conversations := conversations st;
     notices := notices st |}.

Definition setConversations (f : list Conversation -> list Conversation)
    (st : session) : session :=
  {| user := user st; selectedModel := selectedModel st;
     selectedLanguage := selectedLanguage st;
     currentConversationId := currentConversationId st;
     messages := messages st;
     modelStats := modelStats st; conversations := f (conversations st);
     notices := notices st |}.

Definition notify (n : notice) (st : session) : session :=
  {| user := user st; selectedModel := selectedModel st;
     selectedLanguage := selectedLanguage st;
     currentConversationId := currentConversationId st;
     messages := messages st;
     modelStats := modelStats st; conversations := conversations st;
     notices := notices st ++ [n] |}.

(** [s.charAt(0).toUpperCase() + s.slice(1)], on ASCII letters. *)
Definition toUpperCase (c : ascii) : ascii :=
  let n := nat_of_ascii c in
  if (97 <=? n) && (n <=? 122) then ascii_of_nat (n - 32) else c.

Definition capitalize (s : string) : string :=
  match s with
  | EmptyString => EmptyString
  | String c rest => String (toUpperCase c) rest
  end.

(** [Math.random() * 2 + 3], the mock score. *)
Definition mock_score (fl : Q -> Q) (r : Q) : Q :=
  Num.add fl (Num.mul fl r 2) 3.

(** What the environment contributes to one run of
    [handleTranscriptionReceived]: the conditions of its five round-trips
    and the two values drawn from [Math.random()]. *)
Record exchange_env := {
  net_conversation : net;
  net_user : net;
  net_ai : net;
  net_performance : net;
  net_stats : net;
  random_quality : Q;
  random_expressivity : Q
}.

(** Which path a run of [handleTranscriptionReceived] took.  The source
    returns nothing; [Recorded] also keeps the outcome of the performance
    insert, which the source drops. *)
Inductive outcome : Type :=
| NoConversation
| SaveFailed (error : string)
| Recorded (userMessage aiMessage : Msg.row) (performance : result unit).

Section Page.
Variable fl : Q -> Q.

Definition createNewConversation (n : net) (st : session) (db : Db.store)
  : option uuid * session * Db.store :=
  match Db.insert_conversation n (user st) (user st)
          (capitalize (selectedModel st) ++ " Conversation")%string
          (selectedModel st) (selectedLanguage st) db with
  | (Ok data, db') =>
      (Some (Conv.id data),
       setMessages (fun _ => []) (setCurrentConversationId (Some (Conv.id data)) st),
       db')
  | (Err e, db') =>
      (None,
       notify (Toast "Error" "Failed to create new conversation" "destructive")
              (notify (ConsoleError "Error creating conversation:" e) st),
       db')
  end.

Definition fetchMessages (n : net) (conversationId : uuid) (st : session)
    (db : Db.store) : session * Db.store :=
  match Db.select_messages n (user st) conversationId db with
  | (Ok data, db') => (setMessages (fun _ => data) st, db')
  | (Err e, db') => (notify (ConsoleError "Error fetching messages:" e) st, db')
  end.

Definition fetchModelStats (n : net) (st : session) (db : Db.store)
  : session * Db.store :=
  match Db.select_model_performance n (user st) (user st) db with
  | (Ok data, db') => (setModelStats (computeStats fl data) st, db')
  | (Err e, db') =>
      (notify (ConsoleError "Error fetching model stats:" e) st, db')
  end.

Definition handleTranscriptionReceived (env : exchange_env)
    (transcript audioUrl : string) (latency : Z)
    (st : session) (db : Db.store) : outcome * session * Db.store :=
  let '(conversationId, st, db) :=
    match currentConversationId st with
    | Some c => (Some c, st, db)
    | None => createNewConversation (net_conversation env) st db
    end in
  match conversationId with
  | None => (NoConversation, st, db)
  | Some conversationId =>
      match Db.insert_message (net_user env) (user st) conversationId
              transcript (Some transcript) None true latency db with
      | (Err userError, db) =>
          (SaveFailed userError,
           notify (ConsoleError "Error saving messages:" userError) st, db)
      | (Ok userMessage, db) =>
          match Db.insert_message (net_ai env) (user st) conversationId
                  ("AI response using " ++ selectedModel st)%string
                  None (Some audioUrl) false latency db with
          | (Err aiError, db) =>
              (SaveFailed aiError,
               notify (ConsoleError "Error saving messages:" aiError) st, db)
          | (Ok aiMessage, db) =>
              let '(performance, db) :=
                Db.insert_model_performance (net_performance env)
                  (user st) (user st) (selectedModel st) (selectedLanguage st)
                  latency
                  (mock_score fl (random_quality env))
                  (mock_score fl (random_expressivity env)) db in
              let st := setMessages (fun prev => prev ++ [userMessage; aiMessage])
                                    st in
              let '(st, db) := fetchModelStats (net_stats env) st db in
              (Recorded userMessage aiMessage performance, st, db)
          end
      end
  end.

Definition handleSelectConversation (n : net) (conversationId : uuid)
    (st : session) (db : Db.store) : session * Db.store :=
  fetchMessages n conversationId
    (setCurrentConversationId (Some conversationId) st) db.

Definition handleNewConversation (st : session) : session :=
  setMessages (fun _ => []) (setCurrentConversationId None st).

(** [deleteConversation] of the sidebar; [selectedConversationId] is the
    page's [currentConversationId] and [onNewConversation] its
    [handleNewConversation].  The flag tells whether the delete went
    through. *)
Definition deleteConversation (n : net) (conversationId : uuid)
    (st : session) (db : Db.store) : bool * session * Db.store :=
  match Db.delete_conversation n (user st) conversationId db with
  | (Ok _, db') =>
      let st := setConversations
                  (filter (fun conv => negb (Nat.eqb (id conv) conversationId)))
                  st in
      let selectedConversationId := currentConversationId st in
      (true,
       match selectedConversationId with
       | Some c => if Nat.eqb c conversationId then handleNewConversation st
                   else st
       | None => st
       end,
       db')
  | (Err e, db') =>
      (false, notify (ConsoleError "Error deleting conversation:" e) st, db')
  end.
End Page.

(* ================================================================== *)
(** ** The [speech-to-speech] edge function *)
(* ================================================================== *)

Module Edge.

(** Values a property lookup on an object literal can produce. *)
Inductive jsval : Type :=
| JString (s : string)
| JFunction (name : string)
| JUndefined.

Definition truthy (v : jsval) : bool :=
  match v with
  | JString EmptyString => false
  | JString _ => true
  | JFunction _ => true
  | JUndefined => false
  end.

(** [a || b] *)
Definition or_else (a b : jsval) : jsval := if truthy a then a else b.

Fixpoint assoc (k : string) (l : list (string * jsval)) : option jsval :=
  match l with
  | [] => None
  | (k', v) :: l' => if String.eqb k k' then Some v else assoc k l'
  end.

(** The properties every object literal inherits from [Object.prototype]
    (the runtime, Deno, removes [__proto__]). *)
Definition object_prototype : list (string * jsval) :=
  [ ("constructor", JFunction "Object");
    ("hasOwnProperty", JFunction "hasOwnProperty");
    ("isPrototypeOf", JFunction "isPrototypeOf");
    ("propertyIsEnumerable", JFunction "propertyIsEnumerable");
    ("toLocaleString", JFunction "toLocaleString");
    ("toString", JFunction "toString");
    ("valueOf", JFunction "valueOf");
    ("__defineGetter__", JFunction "__defineGetter__");
    ("__defineSetter__", JFunction "__defineSetter__");
    ("__lookupGetter__", JFunction "__lookupGetter__");
    ("__lookupSetter__", JFunction "__lookupSetter__") ].

(** [obj[key]] on an object literal: own properties first, then the
    prototype, else [undefined]. *)
Definition get_prop (obj : list (string * jsval)) (key : string) : jsval :=
  match assoc key obj with
  | Some v => v
  | None =>
      match assoc key object_prototype with
      | Some v => v
      | None => JUndefined
      end
  end.

Inductive backend : Type := Moshi | Ultravox | SpiritLM.

(** What the runtime observes.  [Invoked b] marks the entry into a model
    backend; it is bookkeeping of the embedding, the source prints nothing
    for it. *)
Inductive event : Type :=
| Log (line : string)
| LogError (label message : string)
| Invoked (b : backend).

(** The runtime around the handler: the clock read by [Date.now()], the
    values [Math.random()] is going to return, and what has happened. *)
Record world := {
  now : Z;
  randoms : list Q;
  trace : list event
}.

(** Computations that read and change the world and may throw. *)
Definition M (A : Type) : Type := world -> result A * world.

Definition ret {A} (a : A) : M A := fun w => (Ok a, w).
Definition throw {A} (message : string) : M A := fun w => (Err message, w).
Definition bind {A B} (m : M A) (k : A -> M B) : M B :=
  fun w =>
    match m w with
    | (Ok a, w') => k a w'
    | (Err e, w') => (Err e, w')
    end.
Definition try_catch {A} (m : M A) (handler : string -> M A) : M A :=
  fun w =>
    match m w with
    | (Ok a, w') => (Ok a, w')
    | (Err e, w') => handler e w'
    end.

Notation "x <- m ;; k" := (bind m (fun x => k))
  (at level 61, m at next level, right associativity).
Notation "m ;;; k" := (bind m (fun _ => k))
  (at level 61, right associativity).

Definition emit (e : event) : M unit :=
  fun w => (Ok tt, {| now := now w; randoms := randoms w;
                      trace := trace w ++ [e] |}).

Definition console_log (line : string) : M unit := emit (Log line).

Definition Date_now : M Z := fun w => (Ok (now w), w).

(** [Math.random()]: the next value of the stream. *)
Definition Math_random : M Q :=
  fun w =>
    match randoms w with
    | r :: rest => (Ok r, {| now := now w; randoms := rest; trace := trace w |})
    | [] => (Ok 0%Q, w)
    end.

(** [await new Promise(resolve => setTimeout(resolve, ms))]: the timer is
    taken to fire exactly when it is due, delays being whole milliseconds. *)
Definition sleep (ms : Q) : M unit :=
  fun w => (Ok tt, {| now := (now w + Z.max 0 (Qfloor ms))%Z;
                      randoms := randoms w; trace := trace w |}).

(** Decimal rendering of a number inside a template string. *)
Definition show_Z (z : Z) : string := NilZero.string_of_int (Z.to_int z).

(** [btoa]: base64 of a byte string. *)
Definition base64_alphabet : string :=
  "ABCDEFGHIJKLMNOPQRSTUVWXYZabcdefghijklmnopqrstuvwxyz0123456789+/".

Definition base64_digit (n : N) : ascii :=
  match String.get (N.to_nat n) base64_alphabet with
  | Some c => c
  | None => "="%char
  end.

Fixpoint btoa (bytes : list byte) : string :=
  match bytes with
  | [] => EmptyString
  | [a] =>
      let n := (Byte.to_N a * 65536)%N in
      String (base64_digit (n / 262144))
        (String (base64_digit ((n / 4096) mod 64)) "==")
  | [a; b] =>
      let n := (Byte.to_N a * 65536 + Byte.to_N b * 256)%N in
      String (base64_digit (n / 262144))
        (String (base64_digit ((n / 4096) mod 64))
           (String (base64_digit ((n / 64) mod 64)) "="))
  | a :: b :: c :: rest =>
      let n := (Byte.to_N a * 65536 + Byte.to_N b * 256 + Byte.to_N c)%N in
      String (base64_digit (n / 262144))
        (String (base64_digit ((n / 4096) mod 64))
           (String (base64_digit ((n / 64) mod 64))
              (String (base64_digit (n mod 64)) (btoa rest))))
  end.

(** A value of a multipart form field. *)
Inductive entry : Type :=
| Text (s : string)
| File (bytes : list byte).

(** [String(v)], as template strings and property keys apply it. *)
Definition entry_string (v : entry) : string :=
  match v with
  | Text s => s
  | File _ => "[object File]"
  end.

(** [v === s] for a string literal [s], as the [case] labels of a
    [switch] compare. *)
Definition strict_eq (v : entry) (s : string) : bool :=
  match v with
  | Text t => String.eqb t s
  | File _ => false
  end.

(** Truthiness of what [formData.get] returns. *)
Definition present (v : option entry) : bool :=
  match v with
  | None => false
  | Some (Text EmptyString) => false
  | Some _ => true
  end.

Fixpoint formData_get (name : string) (form : list (string * entry))
  : option entry :=
  match form with
  | [] => None
  | (k, v) :: rest => if String.eqb name k then Some v else formData_get name rest
  end.

Record request := {
  method : string;
  (** [await req.formData()]: the parsed fields, or the message of the
      error it rejects with. *)
  formData : result (list (string * entry))
}.

(** The object handed to [JSON.stringify] for the body. *)
Inductive body : Type :=
| NoBody
| Success (transcript : jsval) (audioUrl : string) (latency : Z)
          (model language : entry)
| Failure (error : string).

Definition success (b : body) : option bool :=
  match b with
  | NoBody => None
  | Success _ _ _ _ _ => Some true
  | Failure _ => Some false
  end.

Record response := {
  status : nat;
  content_type_json : bool;
  payload : body
}.

Definition greetings : list (string * jsval) :=
  [
    ("en", JString "Hello! I heard you speaking. This is Moshi responding with full-duplex conversation capability.");
    ("ta", JString "வணக்கம்! நீங்கள் பேசுவதை நான் கேட்டேன். இது மோஷி முழு-டுப்ளெக்ஸ் உரையாடல் திறனுடன் பதிலளிக்கிறது.");
    ("es", JString "¡Hola! Te escuché hablar. Este es Moshi respondiendo con capacidad de conversación full-duplex.");
    ("fr", JString "Bonjour! Je vous ai entendu parler. Voici Moshi répondant avec une capacité de conversation full-duplex.");
    ("de", JString "Hallo! Ich habe Sie sprechen hören. Das ist Moshi, der mit Full-Duplex-Gesprächsfähigkeit antwortet.") ].

Definition ultravox_responses : list (string * jsval) :=
  [
    ("en", JString "Ultravox here! As a speech-extended language model, I can understand and respond to your speech with enhanced linguistic capabilities.");
    ("ta", JString "அல்ட்ராவோக்ஸ் இங்கே! ஒரு பேச்சு-விரிவாக்கப்பட்ட மொழி மாதிரியாக, மேம்பட்ட மொழியியல் திறன்களுடன் உங்கள் பேச்சை புரிந்துகொண்டு பதிலளிக்க முடியும்.");
    ("es", JString "¡Ultravox aquí! Como modelo de lenguaje extendido por voz, puedo entender y responder a tu habla con capacidades lingüísticas mejoradas.");
    ("fr", JString "Ultravox ici! En tant que modèle de langage étendu par la parole, je peux comprendre et répondre à votre parole avec des capacités linguistiques améliorées.");
    ("de", JString "Ultravox hier! Als spracherweiterte Sprachmodell kann ich Ihre Sprache verstehen und mit erweiterten sprachlichen Fähigkeiten antworten.") ].

Definition spirit_lm_responses : list (string * jsval) :=
  [
    ("en", JString "Spirit LM speaking! I specialize in expressive speech-text fusion, bringing emotion and nuance to our conversation.");
    ("ta", JString "ஸ்பிரிட் எல்எம் பேசுகிறது! வெளிப்பாடு நிறைந்த பேச்சு-உரை இணைப்பில் நான் நிபுணத்துவம் பெற்றுள்ளேன், உணர்ச்சி மற்றும் நுணுக்கத்தை உங்கள் உரையாடலுக்கு கொண்டு வருகிறேன்.");
    ("es", JString "¡Spirit LM hablando! Me especializo en la fusión expresiva de habla y texto, aportando emoción y matices a nuestra conversación.");
    ("fr", JString "Spirit LM parle! Je me spécialise dans la fusion expressive parole-texte, apportant émotion et nuance à notre conversation.");
    ("de", JString "Spirit LM spricht! Ich spezialisiere mich auf ausdrucksstarke Sprach-Text-Fusion und bringe Emotion und Nuancen in unser Gespräch.") ].

Section Handler.
Variable fl : Q -> Q.
(** The largest number of arguments a call accepts before the engine
    throws a [RangeError]. *)
Variable max_arguments : nat.

Definition generateMockAudioUrl (model language : string) : M string :=
  timestamp <- Date_now ;;
  ret ("https://mock-audio-storage.com/" ++ model ++ "/" ++ language ++ "/"
       ++ show_Z timestamp ++ ".wav")%string.

Definition processMoshiModel (audioBase64 language : string)
  : M (jsval * string) :=
  emit (Invoked Moshi) ;;;
  console_log "Processing with Moshi (Full-duplex) model" ;;;
  r <- Math_random ;;
  sleep (Num.add fl 300 (Num.mul fl r 200)) ;;;
  let transcript := or_else (get_prop greetings language)
                            (get_prop greetings "en") in
  audioUrl <- generateMockAudioUrl "moshi" language ;;
  ret (transcript, audioUrl).

Definition processUltravoxModel (audioBase64 language : string)
  : M (jsval * string) :=
  emit (Invoked Ultravox) ;;;
  console_log "Processing with Ultravox (Speech LLM) model" ;;;
  r <- Math_random ;;
  sleep (Num.add fl 500 (Num.mul fl r 300)) ;;;
  let transcript := or_else (get_prop ultravox_responses language)
                            (get_prop ultravox_responses "en") in
  audioUrl <- generateMockAudioUrl "ultravox" language ;;
  ret (transcript, audioUrl).

Definition processSpiritLMModel (audioBase64 language : string)
  : M (jsval * string) :=
  emit (Invoked SpiritLM) ;;;
  console_log "Processing with Spirit LM (Expressive) model" ;;;
  r <- Math_random ;;
  sleep (Num.add fl 400 (Num.mul fl r 400)) ;;;
  let transcript := or_else (get_prop spirit_lm_responses language)
                            (get_prop spirit_lm_responses "en") in
  audioUrl <- generateMockAudioUrl "spirit_lm" language ;;
  ret (transcript, audioUrl).

(** [await audioBlob.arrayBuffer()] followed by
    [btoa(String.fromCharCode(...new Uint8Array(audioBuffer)))]. *)
Definition encode_audio (audioBlob : entry) : M string :=
  match audioBlob with
  | Text _ => throw "audioBlob.arrayBuffer is not a function"
  | File bytes =>
      if max_arguments <? List.length bytes
      then throw "Maximum call stack size exceeded"
      else ret (btoa bytes)
  end.

(** The body of the [try] block. *)
Definition process (req : request) : M response :=
  console_log "Speech-to-Speech processing started" ;;;
  match formData req with
  | Err e => throw e
  | Ok form =>
      let audioBlob := formData_get "audio" form in
      let model := formData_get "model" form in
      let language := formData_get "language" form in
      match audioBlob, model, language with
      | Some audioBlob', Some model', Some language' =>
          if negb (present audioBlob && present model && present language)
          then throw "Missing required parameters: audio, model, or language"
          else
            console_log ("Processing with model: " ++ entry_string model'
                         ++ ", language: " ++ entry_string language')%string ;;;
            audioBase64 <- encode_audio audioBlob' ;;
            startTime <- Date_now ;;
            processedResponse <-
              (if strict_eq model' "moshi"
               then processMoshiModel audioBase64 (entry_string language')
               else if strict_eq model' "ultravox"
               then processUltravoxModel audioBase64 (entry_string language')
               else if strict_eq model' "spirit_lm"
               then processSpiritLMModel audioBase64 (entry_string language')
               else throw ("Unsupported model: "
                           ++ entry_string model')%string) ;;
            endTime <- Date_now ;;
            let processingTime := (endTime - startTime)%Z in
            console_log ("Processing completed in " ++ show_Z processingTime
                         ++ "ms")%string ;;;
            ret {| status := 200; content_type_json := true;
                   payload := Success (fst processedResponse)
                                      (snd processedResponse)
                                      processingTime model' language' |}
      | _, _, _ =>
          throw "Missing required parameters: audio, model, or language"
      end
  end.

(** The request handler given to [serve]. *)
Definition serve (req : request) : world -> response * world :=
  fun w =>
    if String.eqb (method req) "OPTIONS"
    then ({| status := 200; content_type_json := false; payload := NoBody |}, w)
    else
      match process req w with
      | (Ok resp, w') => (resp, w')
      | (Err message, w') =>
          match emit (LogError "Error in speech-to-speech processing:" message) w'
          with
          | (_, w'') =>
              ({| status := 500; content_type_json := true;
                  payload := Failure
                    (if String.eqb message "" then "Internal server error"
                     else message) |}, w'')
          end
      end.
End Handler.

End Edge.

(* ================================================================== *)
(** ** Notions used to state the properties *)
(* ================================================================== *)

(** The direct sum/count arithmetic mean. *)
Definition sum_Q (l : list Q) : Q := fold_right Qplus 0%Q l.

Definition direct_mean (l : list Q) : Q :=
  (sum_Q l / Num.of_nat (List.length l))%Q.

(** The records of one model, in the order they were fetched. *)
Definition group (m : string) (records : list Perf.row) : list Perf.row :=
  filter (fun r => String.eqb (Perf.model_name r) m) records.

Definition latency_of (r : Perf.row) : Q := inject_Z (Perf.latency_ms r).
Definition quality_of (r : Perf.row) : Q := or_zero (Perf.quality_score r).
Definition expressivity_of (r : Perf.row) : Q :=
  or_zero (Perf.expressivity_score r).

(** The entry of a model in the array [fetchModelStats] publishes. *)
Definition stats_of (m : string) (stats : list ModelStats) : option ModelStats :=
  find (fun s => String.eqb (model_name s) m) stats.

(** What one record does to the entry of model [m]. *)
Definition step_of (fl : Q -> Q) (m : string) (acc : option ModelStats)
    (record : Perf.row) : option ModelStats :=
  if String.eqb (Perf.model_name record) m
  then JsMap.get m (aggregate fl (match acc with
                                  | Some s => [(m, s)]
                                  | None => []
                                  end) record)
  else acc.

(** Every entry of the map is filed under the name it carries. *)
Definition well_keyed (sm : JsMap.t ModelStats) : Prop :=
  forall k s, In (k, s) sm -> model_name s = k.

(** [s] is the summary of the non-empty list [g] of records of model [m]:
    their number and the direct means of their three measures. *)
Definition summarises (m : string) (s : ModelStats) (g : list Perf.row) : Prop :=
  g <> [] /\ model_name s = m /\ usage_count s = List.length g /\
  (avg_latency s == direct_mean (map latency_of g))%Q /\
  (avg_quality s == direct_mean (map quality_of g))%Q /\
  (avg_expressivity s == direct_mean (map expressivity_of g))%Q.

Definition entry_for (m : string) (acc : option ModelStats) (g : list Perf.row)
  : Prop :=
  match acc with
  | Some s => summarises m s g
  | None => g = []
  end.

(** The claim's incremental step: [s'] counts one record more than [s],
    and each of its means is [(oldMean * (k-1) + value) / k]. *)
Definition incremental_step (s s' : ModelStats) (r : Perf.row) : Prop :=
  let k := Num.of_nat (usage_count s') in
  usage_count s' = S (usage_count s) /\
  (avg_latency s' == (avg_latency s * (k - 1) + latency_of r) / k)%Q /\
  (avg_quality s' == (avg_quality s * (k - 1) + quality_of r) / k)%Q /\
  (avg_expressivity s'
   == (avg_expressivity s * (k - 1) + expressivity_of r) / k)%Q.

(** The store takes a score: it fits DECIMAL(3,2) and passes the CHECK. *)
Definition score_accepted (s : Q) : bool :=
  match Db.decimal_3_2 s with
  | Some q => Db.check_score q
  | None => false
  end.

(** Stored timestamps are not ahead of the store's clock. *)
Definition store_ok (db : Db.store) : Prop :=
  Forall (fun m => Msg.created_at m <= Db.clock db) (Db.messages db).

(** The in-memory list is empty while no conversation is active, and its
    rows, which all came out of the store, are not ahead of its clock. *)
Definition session_ok (st : session) (db : Db.store) : Prop :=
  (currentConversationId st = None -> messages st = [])
  /\ Forall (fun m => Msg.created_at m <= Db.clock db) (messages st).

(** The notices a run adds are at most the one of a failed stats fetch. *)
Definition only_stats_notice (before after : list notice) : Prop :=
  after = before
  \/ exists e, after = before ++ [ConsoleError "Error fetching model stats:" e].

(** A round-trip that takes [dt] and goes through. *)
Definition calm (dt : nat) : net := {| elapsed := dt; fault := None |}.

Definition broken (dt : nat) (message : string) : net :=
  {| elapsed := dt; fault := Some message |}.

(** A sample run: every round-trip goes through, the generator returns
    1/2 and then the largest multiple of 2^-52 below 1. *)
Definition demo_env : exchange_env :=
  {| net_conversation := calm 5; net_user := calm 3; net_ai := calm 4;
     net_performance := calm 2; net_stats := calm 6;
     random_quality := (1 # 2)%Q;
     random_expressivity := (4503599627370495 # 4503599627370496)%Q |}.

Definition demo_first : outcome * session * Db.store :=
  Eval vm_compute in
    handleTranscriptionReceived Num.binary64 demo_env "hello"
      "https://mock-audio-storage.com/moshi/en/1700000000000.wav" 412
      (initial (Some 7)) Db.empty.

(** The session and the store after that first exchange. *)
Definition demo_session : session := Eval vm_compute in snd (fst demo_first).
Definition demo_store : Db.store := Eval vm_compute in snd demo_first.

(** [s], rounded to two decimals, is outside [0, 5]. *)
Definition rounds_outside (s : Q) : Prop :=
  (s <= - (1 # 200) \/ (1001 # 200) <= s)%Q.

(** A run in which the generator is made to return 2, so that the quality
    score comes out as 7.  [Math.random()] itself never returns such a
    value; the run serves to show what the store does with such a score. *)
Definition wild_env : exchange_env :=
  {| net_conversation := calm 5; net_user := calm 3; net_ai := calm 4;
     net_performance := calm 2; net_stats := calm 6;
     random_quality := 2%Q;
     random_expressivity := (1 # 4)%Q |}.

(** The reading of the score-range sentence over binary64: the score
    written for a draw [r] of [0, 1) is [2 r + 3] and lies in [3, 5). *)
Definition scores_in_half_open_range : Prop :=
  forall r : Q,
    (0 <= r)%Q -> (r < 1)%Q -> Num.binary64 r = Qred r ->
    (mock_score Num.binary64 r == 2 * r + 3)%Q
    /\ (3 <= mock_score Num.binary64 r)%Q
    /\ (mock_score Num.binary64 r < 5)%Q.

(** [db'] comes after [db]: the clock has not gone back and every message
    row is an old one or was stamped with the new clock. *)
Definition follows (db db' : Db.store) : Prop :=
  Db.clock db <= Db.clock db'
  /\ forall m, In m (Db.messages db') ->
               In m (Db.messages db) \/ Msg.created_at m = Db.clock db'.

(** The backends entered so far, oldest first. *)
Definition invocations_of (t : list Edge.event) : list Edge.backend :=
  flat_map (fun e => match e with
                     | Edge.Invoked b => [b]
                     | _ => []
                     end) t.

Definition invocations (w : Edge.world) : list Edge.backend :=
  invocations_of (Edge.trace w).

(** The language codes the three tables have an entry for. *)
Definition supported_languages : list string := ["en"; "ta"; "es"; "fr"; "de"].

(** A request that passes the parameter check and the audio encoding. *)
Definition complete (max_arguments : nat) (form : list (string * Edge.entry))
  : bool :=
  match Edge.formData_get "audio" form with
  | Some (Edge.File bytes) => List.length bytes <=? max_arguments
  | _ => false
  end
  && Edge.present (Edge.formData_get "model" form)
  && Edge.present (Edge.formData_get "language" form).

(** A sample world and a sample multipart form. *)
Definition demo_world : Edge.world :=
  {| Edge.now := 1700000000000; Edge.randoms := [(1 # 2)%Q; (1 # 3)%Q];
     Edge.trace := [] |}.

Definition demo_form (model language : string) : list (string * Edge.entry) :=
  [ ("audio", Edge.File [x52; x49; x46; x46]%byte);
    ("model", Edge.Text model);
    ("language", Edge.Text language) ].

(** The machine's binary64, for cross-checking [Num.binary64]: the value
    of a finite primitive float as a rational in lowest terms. *)
Definition float_value (f : PrimFloat.float) : option Q :=
  match Prim2SF f with
  | SpecFloat.S754_zero _ => Some 0%Q
  | SpecFloat.S754_finite s m e =>
      let v := Num.scale2 (inject_Z (Zpos m)) e in
      Some (Qred (if s then (- v)%Q else v))
  | _ => None
  end.

(** The double nearest to [n / d], computed by the machine from two
    integers below 2^53. *)
Definition float_ratio (n d : Z) : PrimFloat.float :=
  PrimFloat.div (PrimFloat.of_uint63 (Uint63.of_Z n))
                (PrimFloat.of_uint63 (Uint63.of_Z d)).

(** The distinct elements of a list, each where it first occurs. *)
Fixpoint distinct (l : list string) : list string :=
  match l with
  | [] => []
  | x :: l' => x :: filter (fun y => negb (String.eqb y x)) (distinct l')
  end.

(** The number of runs a list of statistics accounts for. *)
Definition total_usage (stats : list ModelStats) : nat :=
  fold_right (fun s n => usage_count s + n) 0 stats.

(** [acc] counts the records [g] of model [m], whatever its means are. *)
Definition counts (m : string) (acc : option ModelStats) (g : list Perf.row)
  : Prop :=
  match acc with
  | Some s => model_name s = m /\ usage_count s = List.length g /\ g <> []
  | None => g = []
  end.

(** The three measures a record carries and a statistics entry averages. *)
Inductive measure : Type := Latency | Quality | Expressivity.

Definition value_of (k : measure) (r : Perf.row) : Q :=
  match k with
  | Latency => latency_of r
  | Quality => quality_of r
  | Expressivity => expressivity_of r
  end.

Definition mean_of (k : measure) (s : ModelStats) : Q :=
  match k with
  | Latency => avg_latency s
  | Quality => avg_quality s
  | Expressivity => avg_expressivity s
  end.

(** Where a run of [handleTranscriptionReceived] starts from: the active
    conversation, or the attempt to create one. *)
Definition conversation_for (env : exchange_env) (st : session) (db : Db.store)
  : option uuid * session * Db.store :=
  match currentConversationId st with
  | Some c => (Some c, st, db)
  | None => createNewConversation (net_conversation env) st db
  end.

(** The tables of [db'] hold what those of [db] hold. *)
Definition same_tables (db db' : Db.store) : Prop :=
  Db.conversations db' = Db.conversations db
  /\ Db.messages db' = Db.messages db
  /\ Db.model_performance db' = Db.model_performance db.

(** What the CHECK constraints of [model_performance] guarantee of a row. *)
Definition performance_row_ok (r : Perf.row) : Prop :=
  Db.check_model (Perf.model_name r) = true
  /\ (exists q, Perf.quality_score r = Some q /\ (0 <= q <= 5)%Q)
  /\ (exists e, Perf.expressivity_score r = Some e /\ (0 <= e <= 5)%Q).

Definition performance_ok (db : Db.store) : Prop :=
  Forall performance_row_ok (Db.model_performance db).

(** Every message belongs to a conversation that exists. *)
Definition references_ok (db : Db.store) : Prop :=
  forall m, In m (Db.messages db) ->
            exists c, In c (Db.conversations db)
                      /\ Conv.id c = Msg.conversation_id m.

(** The two selects of the settings card: [onValueChange] is the state
    setter, and the items on offer are the three models and the five
    languages. *)
Definition setSelectedModel (m : string) (st : session) : session :=
  {| user := user st; selectedModel := m;
     selectedLanguage := selectedLanguage st;
     currentConversationId := currentConversationId st;
     messages := messages st;
     modelStats := modelStats st; conversations := conversations st;
     notices := notices st |}.

Definition setSelectedLanguage (l : string) (st : session) : session :=
  {| user := user st; selectedModel := selectedModel st;
     selectedLanguage := l;
     currentConversationId := currentConversationId st;
     messages := messages st;
     modelStats := modelStats st; conversations := conversations st;
     notices := notices st |}.

(** One thing the page can do, as its JSX wires the handlers: the
    recorder reports an exchange, the sidebar selects, starts or deletes a
    conversation, the statistics are fetched, or a select changes.  Each
    handler is taken through to its end before the next one starts; the
    handlers are asynchronous, and runs in which two of them overlap are
    not runs of this relation. *)
Inductive page_step (fl : Q -> Q)
  : session * Db.store -> session * Db.store -> Prop :=
| step_exchange env transcript audioUrl latency st db o st' db' :
    handleTranscriptionReceived fl env transcript audioUrl latency st db
    = (o, st', db') ->
    page_step fl (st, db) (st', db')
| step_select n conversationId st db st' db' :
    handleSelectConversation n conversationId st db = (st', db') ->
    page_step fl (st, db) (st', db')
| step_new st db :
    page_step fl (st, db) (handleNewConversation st, db)
| step_delete n conversationId st db ok st' db' :
    deleteConversation n conversationId st db = (ok, st', db') ->
    page_step fl (st, db) (st', db')
| step_stats n st db st' db' :
    fetchModelStats fl n st db = (st', db') ->
    page_step fl (st, db) (st', db')
| step_model m st db :
    In m Db.model_names ->
    page_step fl (st, db) (setSelectedModel m st, db)
| step_language l st db :
    In l supported_languages ->
    page_step fl (st, db) (setSelectedLanguage l st, db).

(** Any number of such steps. *)
Inductive page_run (fl : Q -> Q)
  : session * Db.store -> session * Db.store -> Prop :=
| run_done s : page_run fl s s
| run_step s1 s2 s3 :
    page_run fl s1 s2 -> page_step fl s2 s3 -> page_run fl s1 s3.

(** Not later, by creation timestamp. *)
Definition not_later (a b : Msg.row) : Prop :=
  Msg.created_at a <= Msg.created_at b.

(** The rows of a conversation that the caller may see. *)
Definition visible_messages (auth : option uuid) (conversationId : uuid)
    (db : Db.store) : list Msg.row :=
  filter (fun m => Nat.eqb (Msg.conversation_id m) conversationId
                   && Db.owns_conversation auth conversationId db)
         (Db.messages db).

(** The sample session after a second conversation has been started and
    one exchange recorded in it. *)
Definition demo_second : outcome * session * Db.store :=
  Eval vm_compute in
    handleTranscriptionReceived Num.binary64 demo_env "bonjour"
      "https://mock-audio-storage.com/moshi/en/1700000002000.wav" 405
      (handleNewConversation demo_session) demo_store.

Definition demo_session2 : session := Eval vm_compute in snd (fst demo_second).
Definition demo_store2 : Db.store := Eval vm_compute in snd demo_second.

(** The sample session after the first conversation has been selected
    again while the network was down. *)
Definition demo_stale : session * Db.store :=
  Eval vm_compute in
    handleSelectConversation (broken 8 "TypeError: Failed to fetch") 0
      demo_session2 demo_store2.

(** The three backends: the name that selects each one in the [switch],
    its table of replies and the fixed part of its simulated delay, in
    milliseconds. *)
Definition name_of (b : Edge.backend) : string :=
  match b with
  | Edge.Moshi => "moshi"
  | Edge.Ultravox => "ultravox"
  | Edge.SpiritLM => "spirit_lm"
  end.

Definition table_of (b : Edge.backend) : list (string * Edge.jsval) :=
  match b with
  | Edge.Moshi => Edge.greetings
  | Edge.Ultravox => Edge.ultravox_responses
  | Edge.SpiritLM => Edge.spirit_lm_responses
  end.

Definition least_delay (b : Edge.backend) : Z :=
  match b with
  | Edge.Moshi => 300
  | Edge.Ultravox => 500
  | Edge.SpiritLM => 400
  end.

(** What [Math.random()] promises of the values it returns. *)
Definition unit_interval (r : Q) : Prop := (0 <= r)%Q /\ (r < 1)%Q.

(** A sample request. *)
Definition demo_request (model language : string) : Edge.request :=
  {| Edge.method := "POST"; Edge.formData := Ok (demo_form model language) |}.

(** The performance dashboard.  [stats] is what [fetchModelStats]
    published; the colours are class names, the bars are the values
    handed to the progress component. *)
Module Dashboard.

Definition getLatencyColor (latency : Q) : string :=
  match Qcompare latency 500 with
  | Lt => "text-green-600"
  | _ =>
      match Qcompare latency 1000 with
      | Lt => "text-yellow-600"
      | _ => "text-red-600"
      end
  end.

Definition getScoreColor (score : Q) : string :=
  if Qle_bool 4 score then "text-green-600"
  else if Qle_bool 3 score then "text-yellow-600"
  else "text-red-600".

Definition formatModelName (modelName : string) : string :=
  if String.eqb modelName "moshi" then "Moshi"
  else if String.eqb modelName "ultravox" then "Ultravox"
  else if String.eqb modelName "spirit_lm" then "Spirit LM"
  else modelName.

Section Bars.
Variable fl : Q -> Q.

(** [Math.min((2000 - stat.avg_latency) / 2000 * 100, 100)] *)
Definition latency_bar (avg_latency : Q) : Q :=
  let v := Num.mul fl (Num.div fl (fl (2000 - avg_latency)) 2000) 100 in
  if Qle_bool v 100 then v else 100%Q.

(** [stat.avg_quality * 20], [stat.avg_expressivity * 20] *)
Definition score_bar (avg : Q) : Q := Num.mul fl avg 20.
End Bars.

End Dashboard.

(** A value between two whole numbers. *)
Definition within (lo hi : Z) (x : Q) : Prop :=
  (inject_Z lo <= x)%Q /\ (x <= inject_Z hi)%Q.

(** The sidebar ([ConversationHistory.tsx]). *)
Module History.

(** ORDER BY created_at DESC, as a stable insertion sort; the number next
    to a row is the count of its messages. *)
Fixpoint insert_newest_first (c : Conv.row * nat) (l : list (Conv.row * nat))
  : list (Conv.row * nat) :=
  match l with
  | [] => [c]
  | x :: l' =>
      if Conv.created_at (fst x) <? Conv.created_at (fst c) then c :: l
      else x :: insert_newest_first c l'
  end.

Definition newest_first (l : list (Conv.row * nat)) : list (Conv.row * nat) :=
  fold_left (fun acc c => insert_newest_first c acc) l [].

(** [from('conversations')
      .select('id, title, model_used, language, created_at, messages(count)')
      .order('created_at', { ascending: false })]: the rows the caller may
    see, each with the number of its messages. *)
Definition select_conversations (n : net) (auth : option uuid) (db : Db.store)
  : result (list (Conv.row * nat)) * Db.store :=
  let db := Db.tick n db in
  match fault n with
  | Some e => (Err e, db)
  | None =>
      (Ok (newest_first
             (map (fun c =>
                     (c, List.length
                           (filter (fun m => Nat.eqb (Msg.conversation_id m)
                                                     (Conv.id c))
                                   (Db.messages db))))
                  (filter (fun c => Db.owns auth (Conv.user_id c))
                          (Db.conversations db)))),
       db)
  end.

(** [{ ...conv, message_count: conv.messages?.[0]?.count || 0 }] *)
Definition with_count (conv : Conv.row * nat) : Conversation :=
  {| id := Conv.id (fst conv);
     title := Conv.title (fst conv);
     model_used := Conv.model_used (fst conv);
     language := Conv.language (fst conv);
     created_at := Conv.created_at (fst conv);
     message_count := snd conv |}.

Definition fetchConversations (n : net) (st : session) (db : Db.store)
  : session * Db.store :=
  match select_conversations n (user st) db with
  | (Ok data, db') => (setConversations (fun _ => map with_count data) st, db')
  | (Err e, db') =>
      (notify (ConsoleError "Error fetching conversations:" e) st, db')
  end.

Definition formatModelName (modelName : string) : string :=
  if String.eqb modelName "moshi" then "Moshi"
  else if String.eqb modelName "ultravox" then "Ultravox"
  else if String.eqb modelName "spirit_lm" then "Spirit LM"
  else modelName.

Section Dates.
Variable fl : Q -> Q.
(** [date.toLocaleDateString()], which depends on the browser's locale. *)
Variable toLocaleDateString : Z -> string.

(** [now] is what [new Date()] reads, [date] the parsed [created_at],
    both in milliseconds. *)
Definition formatDate (now date : Z) : string :=
  let diffTime := Qabs (fl (inject_Z now - inject_Z date)) in
  let diffDays :=
    Qceiling (Num.div fl diffTime (inject_Z (1000 * 60 * 60 * 24))) in
  if (diffDays =? 1)%Z then "Today"
  else if (diffDays =? 2)%Z then "Yesterday"
  else if (diffDays <=? 7)%Z
  then (Edge.show_Z diffDays ++ " days ago")%string
  else toLocaleDateString date.
End Dates.

End History.

(** Newer first, by creation timestamp. *)
Definition not_older (a b : Conversation) : Prop :=
  created_at b <= created_at a.

(** The stored messages of a conversation. *)
Definition stored_messages (conversationId : uuid) (db : Db.store)
  : list Msg.row :=
  filter (fun m => Nat.eqb (Msg.conversation_id m) conversationId)
         (Db.messages db).

(** The conversations the caller may see. *)
Definition own_conversations (auth : option uuid) (db : Db.store)
  : list Conv.row :=
  filter (fun c => Db.owns auth (Conv.user_id c)) (Db.conversations db).

(** Whole days elapsed, rounded up. *)
Definition days_elapsed (t : Z) : Z := ((t + 86399999) / 86400000)%Z.

(** The sample session after the sidebar has loaded. *)
Definition demo_listed : session * Db.store :=
  Eval vm_compute in History.fetchConversations (calm 7) demo_session2 demo_store2.

(** The sample session after one more exchange, recorded once the sidebar
    had loaded. *)
Definition demo_third : outcome * session * Db.store :=
  Eval vm_compute in
    handleTranscriptionReceived Num.binary64 demo_env "encore"
      "https://mock-audio-storage.com/moshi/en/1700000003000.wav" 390
      (fst demo_listed) (snd demo_listed).

(** What [JSON.stringify] writes for a property holding this value: a
    string is written, a property holding a function or [undefined] is
    left out of the object. *)
Definition stringified (v : Edge.jsval) : option string :=
  match v with
  | Edge.JString s => Some s
  | Edge.JFunction _ => None
  | Edge.JUndefined => None
  end.

(* ================================================================== *)
(** * Properties *)
(* ================================================================== *)

(** ** The map of statistics *)

Section JsMapFacts.
Variable V : Type.
Implicit Types (m : JsMap.t V) (k : string) (v : V).

Lemma get_set_same k v m : JsMap.get k (JsMap.set k v m) = Some v.
Proof.
  induction m as [|[k' v'] m IH]; simpl.
  - now rewrite String.eqb_refl.
  - destruct (String.eqb k k') eqn:E; simpl; rewrite E; auto.
Qed.

Lemma get_set_other k k' v m :
  k <> k' -> JsMap.get k (JsMap.set k' v m) = JsMap.get k m.
Proof.
  intros Hne. induction m as [|[k0 v0] m IH]; simpl.
  - apply String.eqb_neq in Hne. now rewrite Hne.
  - destruct (String.eqb k' k0) eqn:E; simpl.
    + apply String.eqb_eq in E. subst k0.
      apply String.eqb_neq in Hne. now rewrite Hne.
    + now rewrite IH.
Qed.

Lemma keys_set_present k v m e :
  JsMap.get k m = Some e -> JsMap.keys (JsMap.set k v m) = JsMap.keys m.
Proof.
  induction m as [|[k0 v0] m IH]; simpl; [discriminate|].
  destruct (String.eqb k k0) eqn:E; simpl; intros H; [reflexivity|].
  f_equal. now apply IH.
Qed.

Lemma keys_set_absent k v m :
  JsMap.get k m = None -> JsMap.keys (JsMap.set k v m) = JsMap.keys m ++ [k].
Proof.
  induction m as [|[k0 v0] m IH]; simpl; [reflexivity|].
  destruct (String.eqb k k0) eqn:E; simpl; intros H; [discriminate|].
  f_equal. now apply IH.
Qed.

Lemma in_set k v m k0 v0 :
  In (k0, v0) (JsMap.set k v m) -> In (k0, v0) m \/ (k0 = k /\ v0 = v).
Proof.
  induction m as [|[k1 v1] m IH]; simpl.
  - intros [H|[]]. inversion H. auto.
  - destruct (String.eqb k k1) eqn:E; simpl.
    + apply String.eqb_eq in E. subst k1.
      intros [H|H]; [inversion H; auto | auto].
    + intros [H|H]; [auto|]. destruct (IH H); auto.
Qed.
End JsMapFacts.

Lemma get_in (sm : JsMap.t ModelStats) k s :
  JsMap.get k sm = Some s -> exists k', In (k', s) sm /\ k' = k.
Proof.
  induction sm as [|[k0 v0] sm IH]; simpl; [discriminate|].
  destruct (String.eqb k k0) eqn:E; intros H.
  - apply String.eqb_eq in E. inversion H; subst. eauto.
  - destruct (IH H) as (k' & Hin & ->). eauto.
Qed.

Lemma aggregate_well_keyed fl sm r :
  well_keyed sm -> well_keyed (aggregate fl sm r).
Proof.
  intros Hwk k s. unfold aggregate.
  destruct (JsMap.get (Perf.model_name r) sm) as [existing|] eqn:G;
    intros Hin; apply in_set in Hin; destruct Hin as [Hin|[-> ->]]; auto.
  simpl. destruct (get_in _ _ G) as (k' & Hin & <-). now apply Hwk.
Qed.

Lemma fold_aggregate_well_keyed fl rs sm :
  well_keyed sm -> well_keyed (fold_left (aggregate fl) rs sm).
Proof.
  revert sm. induction rs as [|r rs IH]; simpl; intros sm H; auto.
  apply IH. now apply aggregate_well_keyed.
Qed.

Lemma stats_of_values m sm :
  well_keyed sm -> stats_of m (JsMap.values sm) = JsMap.get m sm.
Proof.
  unfold stats_of, JsMap.values.
  induction sm as [|[k s] sm IH]; simpl; intros Hwk; [reflexivity|].
  rewrite (Hwk k s (or_introl eq_refl)), String.eqb_sym.
  destruct (String.eqb m k); [reflexivity|].
  apply IH. intros k' s' Hin. apply Hwk. now right.
Qed.

(** The entry of [m] evolves on its own: records of other models do not
    touch it, and a record of [m] sees nothing but it. *)
Lemma get_aggregate fl m sm r :
  JsMap.get m (aggregate fl sm r) = step_of fl m (JsMap.get m sm) r.
Proof.
  unfold step_of, aggregate.
  destruct (String.eqb (Perf.model_name r) m) eqn:E.
  - apply String.eqb_eq in E. rewrite E.
    destruct (JsMap.get m sm) as [s|]; simpl; rewrite String.eqb_refl; simpl.
    + rewrite String.eqb_refl. apply get_set_same.
    + apply get_set_same.
  - apply String.eqb_neq in E.
    destruct (JsMap.get (Perf.model_name r) sm);
      apply get_set_other; congruence.
Qed.

Lemma get_fold_aggregate fl m rs sm :
  JsMap.get m (fold_left (aggregate fl) rs sm)
  = fold_left (step_of fl m) rs (JsMap.get m sm).
Proof.
  revert sm. induction rs as [|r rs IH]; simpl; intros sm; [reflexivity|].
  now rewrite IH, get_aggregate.
Qed.

(** ** The incremental mean over exact arithmetic *)

Section ExactMeans.
Local Open Scope Q_scope.

Lemma sum_Q_app l v : sum_Q (l ++ [v]) == sum_Q l + v.
Proof.
  induction l as [|x l IH]; simpl.
  - ring.
  - rewrite IH. ring.
Qed.

Lemma sum_Q_perm l l' : Permutation l l' -> sum_Q l == sum_Q l'.
Proof.
  induction 1; simpl.
  - reflexivity.
  - now rewrite IHPermutation.
  - ring.
  - now rewrite IHPermutation1.
Qed.

Lemma direct_mean_perm l l' :
  Permutation l l' -> direct_mean l == direct_mean l'.
Proof.
  intros H. unfold direct_mean.
  now rewrite (Permutation_length H), (sum_Q_perm H).
Qed.

Lemma of_nat_succ n : Num.of_nat (S n) == Num.of_nat n + 1.
Proof.
  unfold Num.of_nat. rewrite Nat2Z.inj_succ, <- Z.add_1_r, inject_Z_plus.
  reflexivity.
Qed.

Lemma of_nat_pos n : 0 < Num.of_nat (S n).
Proof.
  unfold Num.of_nat. change 0 with (inject_Z 0). rewrite <- Zlt_Qlt. lia.
Qed.

Lemma of_nat_nonneg n : 0 <= Num.of_nat n.
Proof.
  unfold Num.of_nat. change 0 with (inject_Z 0). rewrite <- Zle_Qle. lia.
Qed.

(** One step of the source's formula, in the claim's words: the new mean
    of [k] values is [(oldMean * (k-1) + value) / k]. *)
Lemma exact_step avg n v :
  Num.div Num.exact
    (Num.add Num.exact (Num.mul Num.exact avg (Num.of_nat n)) v)
    (Num.add Num.exact (Num.of_nat n) 1)
  == (avg * (Num.of_nat (S n) - 1) + v) / Num.of_nat (S n).
Proof.
  unfold Num.div, Num.add, Num.mul, Num.exact.
  rewrite !Qred_correct, of_nat_succ.
  assert (H := of_nat_nonneg n).
  field. lra.
Qed.

(** The step maps the direct mean of a list to the direct mean of the
    list extended by the new value. *)
Lemma incremental_mean l v avg :
  l <> [] -> avg == direct_mean l ->
  (avg * (Num.of_nat (S (List.length l)) - 1) + v)
    / Num.of_nat (S (List.length l))
  == direct_mean (l ++ [v]).
Proof.
  intros Hne Havg. unfold direct_mean in *.
  rewrite length_app, sum_Q_app, Havg. simpl List.length.
  rewrite Nat.add_1_r, of_nat_succ.
  destruct l as [|x l]; [congruence|].
  assert (H := of_nat_pos (List.length l)). simpl List.length.
  set (n := Num.of_nat (S (List.length l))) in *.
  field. lra.
Qed.
End ExactMeans.

(** ** One model's entry along the fold *)

Lemma step_of_other fl m acc r :
  Perf.model_name r <> m -> step_of fl m acc r = acc.
Proof.
  intros H. unfold step_of. apply String.eqb_neq in H. now rewrite H.
Qed.

Lemma step_of_fresh fl m r :
  Perf.model_name r = m ->
  step_of fl m None r
  = Some {| model_name := m;
            avg_latency := latency_of r;
            avg_quality := quality_of r;
            avg_expressivity := expressivity_of r;
            usage_count := 1 |}.
Proof.
  intros <-. unfold step_of, aggregate. rewrite String.eqb_refl. simpl.
  now rewrite String.eqb_refl.
Qed.

Lemma step_of_update fl m s r :
  Perf.model_name r = m ->
  step_of fl m (Some s) r
  = Some {| model_name := model_name s;
            avg_latency :=
              Num.div fl (Num.add fl (Num.mul fl (avg_latency s)
                                        (Num.of_nat (usage_count s)))
                                     (latency_of r))
                         (Num.add fl (Num.of_nat (usage_count s)) 1);
            avg_quality :=
              Num.div fl (Num.add fl (Num.mul fl (avg_quality s)
                                        (Num.of_nat (usage_count s)))
                                     (quality_of r))
                         (Num.add fl (Num.of_nat (usage_count s)) 1);
            avg_expressivity :=
              Num.div fl (Num.add fl (Num.mul fl (avg_expressivity s)
                                        (Num.of_nat (usage_count s)))
                                     (expressivity_of r))
                         (Num.add fl (Num.of_nat (usage_count s)) 1);
            usage_count := S (usage_count s) |}.
Proof.
  intros <-. unfold step_of, aggregate. rewrite String.eqb_refl. simpl.
  rewrite String.eqb_refl. simpl. now rewrite String.eqb_refl.
Qed.

Lemma group_app m l l' : group m (l ++ l') = group m l ++ group m l'.
Proof. apply filter_app. Qed.

Lemma group_perm m l l' :
  Permutation l l' -> Permutation (group m l) (group m l').
Proof.
  unfold group. induction 1; simpl.
  - constructor.
  - destruct (String.eqb (Perf.model_name x) m); auto.
  - destruct (String.eqb (Perf.model_name x) m),
             (String.eqb (Perf.model_name y) m); auto. constructor.
  - eapply Permutation_trans; eauto.
Qed.

Lemma direct_mean_single v : (direct_mean [v] == v)%Q.
Proof. unfold direct_mean. simpl. unfold Num.of_nat. simpl. field. Qed.

Lemma step_incremental m s r :
  Perf.model_name r = m ->
  exists s', step_of Num.exact m (Some s) r = Some s'
             /\ model_name s' = model_name s /\ incremental_step s s' r.
Proof.
  intros Hm. rewrite step_of_update by exact Hm. eexists. split; [reflexivity|].
  split; [reflexivity|]. unfold incremental_step. simpl usage_count.
  repeat split; simpl; apply exact_step.
Qed.

Lemma step_entry_for m acc g r :
  entry_for m acc g ->
  entry_for m (step_of Num.exact m acc r) (g ++ group m [r]).
Proof.
  intros H. unfold group. simpl.
  destruct (String.eqb (Perf.model_name r) m) eqn:E.
  - apply String.eqb_eq in E. destruct acc as [s|]; simpl in H.
    + destruct (@step_incremental m s r E) as (s' & -> & Hn & Hc & Hl & Hq & He).
      destruct H as (Hne & Hname & Hcount & Hl0 & Hq0 & He0). simpl.
      rewrite Hc, Hcount in *.
      repeat split.
      * destruct g; [congruence | discriminate].
      * congruence.
      * rewrite length_app. simpl. lia.
      * rewrite Hl, map_app. simpl.
        rewrite <- (length_map latency_of g).
        apply incremental_mean; [destruct g; [congruence | discriminate] | auto].
      * rewrite Hq, map_app. simpl.
        rewrite <- (length_map quality_of g).
        apply incremental_mean; [destruct g; [congruence | discriminate] | auto].
      * rewrite He, map_app. simpl.
        rewrite <- (length_map expressivity_of g).
        apply incremental_mean; [destruct g; [congruence | discriminate] | auto].
    + subst g. rewrite step_of_fresh by exact E. simpl.
      repeat split; try discriminate; simpl;
        symmetry; apply direct_mean_single.
  - apply String.eqb_neq in E. rewrite step_of_other by assumption.
    now rewrite app_nil_r.
Qed.

Lemma fold_entry_for m rs acc g :
  entry_for m acc g ->
  entry_for m (fold_left (step_of Num.exact m) rs acc) (g ++ group m rs).
Proof.
  revert acc g. induction rs as [|r rs IH]; intros acc g H.
  - simpl. now rewrite app_nil_r.
  - change (group m (r :: rs)) with (group m ([r] ++ rs)).
    rewrite group_app, app_assoc. simpl fold_left.
    apply IH. now apply step_entry_for.
Qed.

(** The published entry of every model is the summary of its records. *)
Lemma computeStats_entry m records :
  entry_for m (stats_of m (computeStats Num.exact records)) (group m records).
Proof.
  unfold computeStats.
  rewrite stats_of_values
    by (apply fold_aggregate_well_keyed; intros ? ? []).
  rewrite get_fold_aggregate. simpl JsMap.get.
  apply (fold_entry_for m records None []). reflexivity.
Qed.

Lemma summarises_perm m s g g' :
  Permutation g g' -> summarises m s g -> summarises m s g'.
Proof.
  intros P (Hne & Hname & Hcount & Hl & Hq & He).
  repeat split; auto.
  - intros ->. apply Permutation_sym, Permutation_nil in P. congruence.
  - rewrite Hcount. now apply Permutation_length.
  - rewrite Hl. now apply direct_mean_perm, Permutation_map.
  - rewrite Hq. now apply direct_mean_perm, Permutation_map.
  - rewrite He. now apply direct_mean_perm, Permutation_map.
Qed.

(** ** The two-record example *)

(** C1.  For two records of one owner, both of model [modelA], with
    latencies 100 and 200 ms and scores 4, 4 and 2, 2, the aggregation of
    [fetchModelStats] returns exactly one entry: [modelA] with
    [avg_latency = 150], [avg_quality = 3], [avg_expressivity = 3] and
    [usage_count = 2].  This holds over binary64 as well as over exact
    arithmetic, whatever the other columns of the two rows are. *)
Theorem modelA_two_records_stats :
  forall (owner id1 id2 : uuid) (lang1 lang2 : string) (t1 t2 : nat),
    let records :=
      [ {| Perf.id := id1; Perf.user_id := owner; Perf.model_name := "modelA";
           Perf.language := lang1; Perf.latency_ms := 100;
           Perf.quality_score := Some 4%Q;
           Perf.expressivity_score := Some 4%Q; Perf.created_at := t1 |};
        {| Perf.id := id2; Perf.user_id := owner; Perf.model_name := "modelA";
           Perf.language := lang2; Perf.latency_ms := 200;
           Perf.quality_score := Some 2%Q;
           Perf.expressivity_score := Some 2%Q; Perf.created_at := t2 |} ] in
    let expected :=
      [ {| model_name := "modelA"; avg_latency := 150; avg_quality := 3;
           avg_expressivity := 3; usage_count := 2 |} ] in
    computeStats Num.binary64 records = expected
    /\ computeStats Num.exact records = expected.
Proof.
  intros. split; vm_compute; reflexivity.
Qed.

(** ** Order independence of the means *)

(** C2.  Over exact arithmetic, for every list of performance records,
    every permutation [records'] of it and every model [m]: the entry that
    [fetchModelStats] computes for [m] from [records'] carries the number
    of records of [m] and the direct sum/count means of their latency,
    quality and expressivity, taken over the original list; there is no
    entry exactly when [m] has no record.  Moreover the fold proceeds by
    the incremental step: a further record [r] of model [m] turns the
    entry [s] into one with means [(oldMean * (k-1) + value) / k], [k]
    being the new count, and opens an entry with the record's own values
    if there was none. *)
Theorem stats_means_independent_of_order :
  forall (records records' : list Perf.row) (m : string) (r : Perf.row),
    Permutation records records' ->
    Perf.model_name r = m ->
    let after := stats_of m (computeStats Num.exact (records' ++ [r])) in
    match stats_of m (computeStats Num.exact records') with
    | Some s =>
        summarises m s (group m records)
        /\ exists s', after = Some s' /\ incremental_step s s' r
    | None =>
        group m records = []
        /\ after = Some {| model_name := m;
                           avg_latency := latency_of r;
                           avg_quality := quality_of r;
                           avg_expressivity := expressivity_of r;
                           usage_count := 1 |}
    end.
Proof.
  intros records records' m r P Hm after.
  assert (Hafter : after = step_of Num.exact m
                             (stats_of m (computeStats Num.exact records')) r).
  { unfold after, computeStats.
    rewrite !stats_of_values
      by (apply fold_aggregate_well_keyed; intros ? ? []).
    now rewrite fold_left_app, !get_fold_aggregate. }
  assert (He := computeStats_entry m records').
  destruct (stats_of m (computeStats Num.exact records')) as [s|]; simpl in He.
  - split.
    + apply summarises_perm with (g := group m records'); auto.
      apply group_perm. now apply Permutation_sym.
    + destruct (@step_incremental m s r Hm) as (s' & E & _ & Hs).
      exists s'. split; [congruence | exact Hs].
  - split.
    + apply Permutation_nil. rewrite <- He. apply group_perm.
      now apply Permutation_sym.
    + rewrite Hafter. now apply step_of_fresh.
Qed.

Lemma stats_means_independent_of_order_witness :
  let a := {| Perf.id := 1; Perf.user_id := 7; Perf.model_name := "moshi";
              Perf.language := "en"; Perf.latency_ms := 100;
              Perf.quality_score := Some 4%Q;
              Perf.expressivity_score := Some (7 # 2)%Q;
              Perf.created_at := 10 |} in
  let b := {| Perf.id := 2; Perf.user_id := 7; Perf.model_name := "ultravox";
              Perf.language := "en"; Perf.latency_ms := 640;
              Perf.quality_score := None;
              Perf.expressivity_score := Some 5%Q;
              Perf.created_at := 20 |} in
  let c := {| Perf.id := 3; Perf.user_id := 7; Perf.model_name := "moshi";
              Perf.language := "ta"; Perf.latency_ms := 201;
              Perf.quality_score := Some 3%Q;
              Perf.expressivity_score := Some (9 # 2)%Q;
              Perf.created_at := 30 |} in
  Permutation [a; b; c] [b; c; a]
  /\ Perf.model_name c = "moshi"
  /\ match stats_of "moshi" (computeStats Num.exact [b; c; a]) with
     | Some s =>
         summarises "moshi" s (group "moshi" [a; b; c])
         /\ exists s',
             stats_of "moshi" (computeStats Num.exact ([b; c; a] ++ [c]))
             = Some s' /\ incremental_step s s' c
     | None => False
     end.
Proof.
  intros a b c.
  assert (P : Permutation [a; b; c] [b; c; a])
    by apply (Permutation_cons_append [b; c] a).
  split; [exact P|]. split; [reflexivity|].
  exact (stats_means_independent_of_order c P eq_refl).
Defined.

(** ** Rounding to binary64 *)

Section Rounding.
Local Open Scope Q_scope.

Lemma Qfloor_between (n : Z) x :
  inject_Z n <= x -> x < inject_Z (n + 1) -> Qfloor x = n.
Proof.
  intros Hlo Hhi.
  assert (n <= Qfloor x)%Z.
  { rewrite <- (Qfloor_Z n). now apply Qfloor_resp_le. }
  assert (Qfloor x < n + 1)%Z.
  { rewrite Zlt_Qlt. eapply Qle_lt_trans; [apply Qfloor_le | exact Hhi]. }
  lia.
Qed.

Lemma round_ne_cases x : Num.round_ne x = Qfloor x \/ Num.round_ne x = (Qfloor x + 1)%Z.
Proof.
  unfold Num.round_ne. cbv zeta. destruct (Qcompare _ _); auto.
  destruct (Z.even _); auto.
Qed.

(** Rounding to an integer never crosses an integer. *)
Lemma round_ne_ge (n : Z) x : inject_Z n <= x -> (n <= Num.round_ne x)%Z.
Proof.
  intros H.
  assert (n <= Qfloor x)%Z.
  { rewrite <- (Qfloor_Z n). now apply Qfloor_resp_le. }
  destruct (round_ne_cases x) as [-> | ->]; lia.
Qed.

Lemma round_ne_le (n : Z) x : x <= inject_Z n -> (Num.round_ne x <= n)%Z.
Proof.
  intros H.
  assert (Hf : (Qfloor x <= n)%Z).
  { rewrite <- (Qfloor_Z n). now apply Qfloor_resp_le. }
  destruct (Z.eq_dec (Qfloor x) n) as [E|E].
  - unfold Num.round_ne. cbv zeta. rewrite E.
    assert (L : x - inject_Z n < 1 # 2) by lra.
    rewrite (proj1 (Qlt_alt _ _) L). lia.
  - destruct (round_ne_cases x) as [-> | ->]; lia.
Qed.

Lemma pow2_pos k : (0 <= k)%Z -> 0 < inject_Z (2 ^ k).
Proof.
  intros H. change 0 with (inject_Z 0). rewrite <- Zlt_Qlt.
  apply Z.pow_pos_nonneg; lia.
Qed.
Lemma scale2_le x y e : x <= y -> Num.scale2 x e <= Num.scale2 y e.
Proof.
  intros H. unfold Num.scale2. destruct (0 <=? e)%Z eqn:E.
  - apply Qmult_le_compat_r; [exact H|].
    apply Qlt_le_weak, pow2_pos. now apply Z.leb_le.
  - apply Qmult_le_compat_r; [exact H|].
    apply Qinv_le_0_compat, Qlt_le_weak, pow2_pos.
    apply Z.leb_gt in E. lia.
Qed.

(** If the scaled argument lies between two integers, so does its rounding:
    the rounded value stays between the corresponding grid points. *)
Lemma binary64_pos_bounds a (lo hi : Z) :
  inject_Z lo <= Num.scale2 a (- Num.exponent a) ->
  Num.scale2 a (- Num.exponent a) <= inject_Z hi ->
  Num.scale2 (inject_Z lo) (Num.exponent a) <= Num.binary64_pos a
  /\ Num.binary64_pos a <= Num.scale2 (inject_Z hi) (Num.exponent a).
Proof.
  intros Hlo Hhi. unfold Num.binary64_pos. cbv zeta.
  split; apply scale2_le; rewrite <- Zle_Qle.
  - now apply round_ne_ge.
  - now apply round_ne_le.
Qed.

Lemma exponent_of_floor a (f : Z) :
  (1 <= f)%Z -> inject_Z f <= a -> a < inject_Z (f + 1) ->
  Num.exponent a = Z.max (Z.log2 f - 52) (-1074).
Proof.
  intros Hf Hlo Hhi. unfold Num.exponent, Num.ilog2.
  assert (H1 : 1 <= a).
  { eapply Qle_trans; [|exact Hlo]. change 1 with (inject_Z 1).
    now rewrite <- Zle_Qle. }
  apply Qle_bool_iff in H1. rewrite H1.
  now rewrite (Qfloor_between Hlo Hhi).
Qed.

Lemma binary64_positive q : 0 < q -> Num.binary64 q == Num.binary64_pos q.
Proof.
  intros H. unfold Num.binary64. apply Qgt_alt in H. 
  unfold Qcompare in *. rewrite H. apply Qred_correct.
Qed.

(** Doubles in the binade [1, 2): spacing 2^-52. *)
Lemma binary64_1_2 x :
  1 <= x -> x < 2 -> 1 <= Num.binary64 x /\ Num.binary64 x <= 2.
Proof.
  intros Hlo Hhi. rewrite binary64_positive by lra.
  assert (E : Num.exponent x = (-52)%Z)
    by (rewrite (@exponent_of_floor x 1); [reflexivity | lia | exact Hlo | exact Hhi]).
  assert (S1 : Num.scale2 x (- Num.exponent x) == x * (4503599627370496 # 1))
    by (rewrite E; reflexivity).
  destruct (@binary64_pos_bounds x (2 ^ 52) (2 ^ 53)) as [A B].
  { rewrite S1. change (inject_Z (2 ^ 52)) with (4503599627370496 # 1). lra. }
  { rewrite S1. change (inject_Z (2 ^ 53)) with (9007199254740992 # 1). lra. }
  rewrite E in A, B.
  assert (L : Num.scale2 (inject_Z (2 ^ 52)) (-52) == 1) by (vm_compute; reflexivity).
  assert (U : Num.scale2 (inject_Z (2 ^ 53)) (-52) == 2) by (vm_compute; reflexivity).
  rewrite L in A. rewrite U in B. split; assumption.
Qed.

(** Doubles in the binade [2, 4): spacing 2^-51. *)
Lemma binary64_3_4 x :
  3 <= x -> x < 4 -> 3 <= Num.binary64 x /\ Num.binary64 x <= 4.
Proof.
  intros Hlo Hhi. rewrite binary64_positive by lra.
  assert (E : Num.exponent x = (-51)%Z)
    by (rewrite (@exponent_of_floor x 3); [reflexivity | lia | exact Hlo | exact Hhi]).
  assert (S1 : Num.scale2 x (- Num.exponent x) == x * (2251799813685248 # 1))
    by (rewrite E; reflexivity).
  destruct (@binary64_pos_bounds x (3 * 2 ^ 51) (4 * 2 ^ 51)) as [A B].
  { rewrite S1. change (inject_Z (3 * 2 ^ 51)) with (6755399441055744 # 1). lra. }
  { rewrite S1. change (inject_Z (4 * 2 ^ 51)) with (9007199254740992 # 1). lra. }
  rewrite E in A, B.
  assert (L : Num.scale2 (inject_Z (3 * 2 ^ 51)) (-51) == 3)
    by (vm_compute; reflexivity).
  assert (U : Num.scale2 (inject_Z (4 * 2 ^ 51)) (-51) == 4)
    by (vm_compute; reflexivity).
  rewrite L in A. rewrite U in B. split; assumption.
Qed.

(** Doubles in the binade [4, 8): spacing 2^-50; 5 is one of them. *)
Lemma binary64_4_5 x :
  4 <= x -> x <= 5 -> 4 <= Num.binary64 x /\ Num.binary64 x <= 5.
Proof.
  intros Hlo Hhi. rewrite binary64_positive by lra.
  assert (E : Num.exponent x = (-50)%Z).
  { destruct (Qlt_le_dec x 5) as [H5|H5].
    - rewrite (@exponent_of_floor x 4); [reflexivity | lia | exact Hlo | exact H5].
    - rewrite (@exponent_of_floor x 5); [reflexivity | lia | exact H5 |].
      change (inject_Z (5 + 1)) with (6 # 1). lra. }
  assert (S1 : Num.scale2 x (- Num.exponent x) == x * (1125899906842624 # 1))
    by (rewrite E; reflexivity).
  destruct (@binary64_pos_bounds x (4 * 2 ^ 50) (5 * 2 ^ 50)) as [A B].
  { rewrite S1. change (inject_Z (4 * 2 ^ 50)) with (4503599627370496 # 1). lra. }
  { rewrite S1. change (inject_Z (5 * 2 ^ 50)) with (5629499534213120 # 1). lra. }
  rewrite E in A, B.
  assert (L : Num.scale2 (inject_Z (4 * 2 ^ 50)) (-50) == 4)
    by (vm_compute; reflexivity).
  assert (U : Num.scale2 (inject_Z (5 * 2 ^ 50)) (-50) == 5)
    by (vm_compute; reflexivity).
  rewrite L in A. rewrite U in B. split; assumption.
Qed.

Lemma binary64_3_5 x :
  3 <= x -> x <= 5 -> 3 <= Num.binary64 x /\ Num.binary64 x <= 5.
Proof.
  intros Hlo Hhi. destruct (Qlt_le_dec x 4) as [H|H].
  - destruct (binary64_3_4 Hlo H). split; lra.
  - destruct (binary64_4_5 H Hhi). split; lra.
Qed.

(** Below 1, subnormals included: the grid contains 0 and 1. *)
Lemma binary64_0_1 x :
  0 < x -> x < 1 -> 0 <= Num.binary64 x /\ Num.binary64 x <= 1.
Proof.
  intros Hlo Hhi. rewrite binary64_positive by assumption.
  assert (E : (Num.exponent x < 0)%Z).
  { unfold Num.exponent, Num.ilog2.
    destruct (Qle_bool 1 x) eqn:B.
    - apply Qle_bool_iff in B. lra.
    - assert (0 <= Z.log2_up (Qceiling (/ x)))%Z by apply Z.log2_up_nonneg.
      lia. }
  set (e := Num.exponent x) in *.
  assert (P := @pow2_pos (- e) ltac:(lia)).
  assert (S1 : Num.scale2 x (- e) = x * inject_Z (2 ^ (- e))).
  { unfold Num.scale2. destruct (0 <=? - e)%Z eqn:B; [reflexivity|].
    apply Z.leb_gt in B. lia. }
  destruct (@binary64_pos_bounds x 0 (2 ^ (- e))) as [A B]; fold e.
  { rewrite S1. change (inject_Z 0) with 0.
    apply Qmult_le_0_compat; lra. }
  { rewrite S1. rewrite <- (Qmult_1_l (inject_Z (2 ^ (- e)))) at 2.
    apply Qmult_le_compat_r; lra. }
  fold e in A, B.
  assert (D : forall y, Num.scale2 y e = y / inject_Z (2 ^ (- e))).
  { intros y. unfold Num.scale2. destruct (0 <=? e)%Z eqn:C; [|reflexivity].
    apply Z.leb_le in C. lia. }
  rewrite D in A, B. split.
  - eapply Qle_trans; [|exact A]. change (inject_Z 0) with 0.
    unfold Qdiv. rewrite Qmult_0_l. apply Qle_refl.
  - eapply Qle_trans; [exact B|]. 
    assert (X : inject_Z (2 ^ (- e)) / inject_Z (2 ^ (- e)) == 1)
      by (field; lra).
    rewrite X. apply Qle_refl.
Qed.

Lemma binary64_0_2 x :
  0 <= x -> x < 2 -> 0 <= Num.binary64 x /\ Num.binary64 x <= 2.
Proof.
  intros Hlo Hhi. destruct (Qcompare_spec x 0) as [E|E|E].
  - unfold Num.binary64. apply Qeq_alt in E. unfold Qcompare in *.
    rewrite E. split; lra.
  - lra.
  - destruct (Qlt_le_dec x 1) as [H|H].
    + destruct (binary64_0_1 E H). split; lra.
    + destruct (binary64_1_2 H Hhi). split; lra.
Qed.

(** [Num.binary64] against the machine's floating-point unit, on the
    operations the page performs. *)
Example binary64_agrees_on_one_tenth :
  float_value (float_ratio 1 10) = Some (Num.binary64 (1 # 10))
  /\ Num.binary64 (1 # 10) = 3602879701896397 # 36028797018963968.
Proof. split; vm_compute; reflexivity. Qed.

Example binary64_agrees_on_a_sum :
  float_value (PrimFloat.add (float_ratio 1 10) (float_ratio 2 10))
  = Some (Num.add Num.binary64 (Num.binary64 (1 # 10)) (Num.binary64 (2 # 10)))
  /\ ~ Num.add Num.binary64 (Num.binary64 (1 # 10)) (Num.binary64 (2 # 10))
        == Num.binary64 (3 # 10).
Proof. split; vm_compute; [reflexivity | discriminate]. Qed.

Example binary64_agrees_on_a_mean :
  float_value
    (PrimFloat.div
       (PrimFloat.add (PrimFloat.mul (float_ratio 391 100) (float_ratio 2 1))
                      (float_ratio 457 100))
       (PrimFloat.add (float_ratio 2 1) (float_ratio 1 1)))
  = Some (Num.div Num.binary64
            (Num.add Num.binary64
               (Num.mul Num.binary64 (Num.binary64 (391 # 100)) 2)
               (Num.binary64 (457 # 100)))
            (Num.add Num.binary64 2 1)).
Proof. vm_compute. reflexivity. Qed.

Example binary64_agrees_on_the_largest_draw :
  let n := 4503599627370495%Z in
  let d := 4503599627370496%Z in
  float_value (float_ratio n d) = Some (Qred (inject_Z n / inject_Z d))
  /\ float_value (PrimFloat.add (PrimFloat.mul (float_ratio n d)
                                               (float_ratio 2 1))
                                (float_ratio 3 1))
     = Some (mock_score Num.binary64 (inject_Z n / inject_Z d))
  /\ mock_score Num.binary64 (inject_Z n / inject_Z d) = 5.
Proof. repeat split; vm_compute; reflexivity. Qed.

(** The mock score over binary64: both roundings stay inside [3, 5]. *)
Lemma mock_score_binary64_range r :
  0 <= r -> r < 1 ->
  3 <= mock_score Num.binary64 r /\ mock_score Num.binary64 r <= 5.
Proof.
  intros Hlo Hhi. unfold mock_score, Num.add, Num.mul.
  destruct (@binary64_0_2 (r * 2)) as [A B]; [lra | lra |].
  apply binary64_3_5; lra.
Qed.

(** The mock score over exact arithmetic is [2 r + 3], below 5. *)
Lemma mock_score_exact r : mock_score Num.exact r == 2 * r + 3.
Proof.
  unfold mock_score, Num.add, Num.mul, Num.exact.
  rewrite !Qred_correct. ring.
Qed.

End Rounding.

(** ** The store *)

Lemma insert_message_clock n auth cid c t a u l db r db' :
  Db.insert_message n auth cid c t a u l db = (r, db') ->
  Db.clock db' = Db.clock db + elapsed n.
Proof.
  unfold Db.insert_message. cbv zeta.
  destruct (fault n); [intros H; inversion H; reflexivity|].
  destruct (negb (Db.int4 l)); [intros H; inversion H; reflexivity|].
  destruct (negb _); intros H; inversion H; reflexivity.
Qed.

Lemma insert_message_ok n auth cid c t a u l db row db' :
  Db.insert_message n auth cid c t a u l db = (Ok row, db') ->
  Msg.is_user row = u
  /\ Msg.conversation_id row = cid
  /\ Msg.created_at row = Db.clock db'
  /\ Db.messages db' = Db.messages db ++ [row]
  /\ Db.model_performance db' = Db.model_performance db
  /\ Db.conversations db' = Db.conversations db.
Proof.
  unfold Db.insert_message. cbv zeta.
  destruct (fault n); [discriminate|].
  destruct (negb (Db.int4 l)); [discriminate|].
  destruct (negb _); [discriminate|].
  intros H. inversion H; subst. simpl. auto 10.
Qed.

Lemma insert_model_performance_clock n auth uid m lang l q e db r db' :
  Db.insert_model_performance n auth uid m lang l q e db = (r, db') ->
  Db.clock db' = Db.clock db + elapsed n
  /\ Db.messages db' = Db.messages db
  /\ Db.conversations db' = Db.conversations db.
Proof.
  unfold Db.insert_model_performance. cbv zeta.
  destruct (fault n); [intros H; inversion H; auto|].
  destruct (negb (Db.int4 l)); [intros H; inversion H; auto|].
  destruct (Db.decimal_3_2 q), (Db.decimal_3_2 e);
    try (intros H; inversion H; auto; fail).
  destruct uid; [|intros H; inversion H; auto].
  repeat (destruct (negb _); [intros H; inversion H; auto|]).
  intros H; inversion H; auto.
Qed.


(** Every row the insert adds carries scores within the 0-to-5 bound. *)
Lemma insert_model_performance_bound n auth uid m lang l q e db r db' :
  Db.insert_model_performance n auth uid m lang l q e db = (r, db') ->
  Db.model_performance db' = Db.model_performance db
  \/ exists row q' e',
       Db.model_performance db' = Db.model_performance db ++ [row]
       /\ Perf.quality_score row = Some q'
       /\ Perf.expressivity_score row = Some e'
       /\ Db.decimal_3_2 q = Some q' /\ Db.decimal_3_2 e = Some e'
       /\ Db.check_score q' = true /\ Db.check_score e' = true.
Proof.
  unfold Db.insert_model_performance. cbv zeta.
  destruct (fault n); [intros H; inversion H; auto|].
  destruct (negb (Db.int4 l)); [intros H; inversion H; auto|].
  destruct (Db.decimal_3_2 q) as [q'|], (Db.decimal_3_2 e) as [e'|];
    try (intros H; inversion H; auto; fail).
  destruct uid; [|intros H; inversion H; auto].
  destruct (negb (Db.owns auth u)); [intros H; inversion H; auto|].
  destruct (negb (Db.check_model m)); [intros H; inversion H; auto|].
  destruct (Db.check_score q') eqn:Cq; simpl; [|intros H; inversion H; auto].
  destruct (Db.check_score e') eqn:Ce; simpl; [|intros H; inversion H; auto].
  intros H; inversion H; subst. right. simpl.
  eexists; exists q', e'. simpl. repeat split; auto.
Qed.

(** A failed insert leaves the table as it was. *)
Lemma insert_model_performance_err n auth uid m lang l q e db msg db' :
  Db.insert_model_performance n auth uid m lang l q e db = (Err msg, db') ->
  Db.model_performance db' = Db.model_performance db.
Proof.
  unfold Db.insert_model_performance. cbv zeta.
  destruct (fault n); [intros H; inversion H; auto|].
  destruct (negb (Db.int4 l)); [intros H; inversion H; auto|].
  destruct (Db.decimal_3_2 q) as [q'|], (Db.decimal_3_2 e) as [e'|];
    try (intros H; inversion H; auto; fail).
  destruct uid; [|intros H; inversion H; auto].
  repeat (destruct (negb _); [intros H; inversion H; auto|]).
  discriminate.
Qed.

Section Decimal.
Local Open Scope Q_scope.

(** Scores in [3, 5] fit DECIMAL(3,2), stay in [3, 5] and pass the CHECK. *)
Lemma score_3_5_accepted s :
  3 <= s -> s <= 5 ->
  exists q, Db.decimal_3_2 s = Some q /\ 3 <= q /\ q <= 5
            /\ Db.check_score q = true.
Proof.
  intros Hlo Hhi. unfold Db.decimal_3_2, Db.round_half_away. cbv zeta.
  assert (G : 0 < s * 100) by lra.
  apply Qgt_alt in G. unfold Qcompare in G.
  replace (Qcompare (s * 100) 0) with Gt by (symmetry; exact G).
  set (c := Qfloor (s * 100 + (1 # 2))).
  assert (Hc1 : (300 <= c)%Z).
  { rewrite <- (Qfloor_Z 300). apply Qfloor_resp_le.
    change (inject_Z 300) with (300 # 1). lra. }
  assert (Hc2 : (c < 501)%Z).
  { rewrite Zlt_Qlt. eapply Qle_lt_trans; [apply Qfloor_le|].
    change (inject_Z 501) with (501 # 1). lra. }
  replace (Z.abs c <? 1000)%Z with true by (symmetry; apply Z.ltb_lt; lia).
  eexists. split; [reflexivity|].
  assert (Q1 : inject_Z 300 <= inject_Z c) by (rewrite <- Zle_Qle; lia).
  assert (Q2 : inject_Z c <= inject_Z 500) by (rewrite <- Zle_Qle; lia).
  change (inject_Z 300) with (300 # 1) in Q1.
  change (inject_Z 500) with (500 # 1) in Q2.
  assert (A : 3 <= Qred (inject_Z c / 100) /\ Qred (inject_Z c / 100) <= 5).
  { rewrite Qred_correct. split.
    - apply Qle_shift_div_l; lra.
    - apply Qle_shift_div_r; lra. }
  destruct A as [A1 A2]. repeat split; auto.
  unfold Db.check_score. apply andb_true_iff.
  split; apply Qle_bool_iff; lra.
Qed.






End Decimal.

(** ** The exchange handler *)

Lemma fetchModelStats_frame fl n st db st' db' :
  fetchModelStats fl n st db = (st', db') ->
  messages st' = messages st
  /\ currentConversationId st' = currentConversationId st
  /\ only_stats_notice (notices st) (notices st')
  /\ db' = Db.tick n db.
Proof.
  unfold fetchModelStats, Db.select_model_performance. cbv zeta.
  destruct (fault n).
  - intros H; inversion H; subst; simpl. unfold only_stats_notice. eauto 6.
  - destruct (user st); intros H; inversion H; subst; simpl;
      unfold only_stats_notice; eauto 6.
Qed.

Lemma createNewConversation_some n st db cid st' db' :
  createNewConversation n st db = (Some cid, st', db') ->
  st' = setMessages (fun _ => []) (setCurrentConversationId (Some cid) st)
  /\ Db.clock db' = Db.clock db + elapsed n
  /\ Db.model_performance db' = Db.model_performance db.
Proof.
  unfold createNewConversation, Db.insert_conversation. cbv zeta.
  destruct (fault n); [discriminate|].
  destruct (user st); [|discriminate].
  destruct (negb _); [discriminate|].
  destruct (negb _); [discriminate|].
  simpl. intros H; inversion H; subst. auto.
Qed.

(** The path on which an exchange is recorded, step by step. *)
Lemma recorded_inv fl env transcript audioUrl latency st db u a perf st' db' :
  handleTranscriptionReceived fl env transcript audioUrl latency st db
  = (Recorded u a perf, st', db') ->
  exists cid st0 db0 db1 db2 db3,
    ((currentConversationId st = Some cid /\ st0 = st /\ db0 = db)
     \/ (currentConversationId st = None
         /\ createNewConversation (net_conversation env) st db
            = (Some cid, st0, db0)))
    /\ Db.insert_message (net_user env) (user st0) cid transcript
         (Some transcript) None true latency db0 = (Ok u, db1)
    /\ Db.insert_message (net_ai env) (user st0) cid
         ("AI response using " ++ selectedModel st0)%string
         None (Some audioUrl) false latency db1 = (Ok a, db2)
    /\ Db.insert_model_performance (net_performance env) (user st0) (user st0)
         (selectedModel st0) (selectedLanguage st0) latency
         (mock_score fl (random_quality env))
         (mock_score fl (random_expressivity env)) db2 = (perf, db3)
    /\ fetchModelStats fl (net_stats env)
         (setMessages (fun prev => prev ++ [u; a]) st0) db3 = (st', db').
Proof.
  unfold handleTranscriptionReceived.
  set (start := match currentConversationId st with
                | Some c => (Some c, st, db)
                | None => createNewConversation (net_conversation env) st db
                end).
  assert (Hstart : forall cid st0 db0, start = (Some cid, st0, db0) ->
            (currentConversationId st = Some cid /\ st0 = st /\ db0 = db)
            \/ (currentConversationId st = None
                /\ createNewConversation (net_conversation env) st db
                   = (Some cid, st0, db0))).
  { intros cid st0 db0. unfold start.
    destruct (currentConversationId st) eqn:C.
    - intros H; inversion H; subst. auto.
    - intros H. auto. }
  destruct start as [[[cid|] st0] db0]; [|discriminate].
  specialize (Hstart cid st0 db0 eq_refl).
  destruct (Db.insert_message (net_user env) _ _ _ _ _ _ _ db0)
    as [[u0|e] db1] eqn:E1; [|discriminate].
  destruct (Db.insert_message (net_ai env) _ _ _ _ _ _ _ db1)
    as [[a0|e] db2] eqn:E2; [|discriminate].
  destruct (Db.insert_model_performance _ _ _ _ _ _ _ _ db2)
    as [perf0 db3] eqn:E3.
  destruct (fetchModelStats _ _ _ db3) as [st1 db4] eqn:E4.
  intros H; inversion H; subst.
  exists cid, st0, db0, db1, db2, db3. auto 10.
Qed.

(** The list the appended pair lands on: the current one, or the empty
    list of a conversation that has just been created. *)
Lemma recorded_messages fl env transcript audioUrl latency st db u a perf st' db' :
  handleTranscriptionReceived fl env transcript audioUrl latency st db
  = (Recorded u a perf, st', db') ->
  messages st'
  = (match currentConversationId st with
     | Some _ => messages st
     | None => []
     end) ++ [u; a]
  /\ only_stats_notice (notices st) (notices st')
  /\ Msg.is_user u = true /\ Msg.is_user a = false
  /\ Db.clock db <= Msg.created_at u
  /\ Msg.created_at u <= Msg.created_at a.
Proof.
  intros H. apply recorded_inv in H.
  destruct H as (cid & st0 & db0 & db1 & db2 & db3 & Hc & Hu & Ha & Hp & Hf).
  destruct (insert_message_ok _ _ _ _ _ _ _ _ _ Hu) as (Uu & _ & Ut & _).
  destruct (insert_message_ok _ _ _ _ _ _ _ _ _ Ha) as (Au & _ & At & _).
  assert (C1 := insert_message_clock _ _ _ _ _ _ _ _ _ Hu).
  assert (C2 := insert_message_clock _ _ _ _ _ _ _ _ _ Ha).
  destruct (fetchModelStats_frame _ _ _ _ Hf) as (Fm & _ & Fn & _).
  simpl in Fm, Fn.
  destruct Hc as [(Hc & -> & ->) | (Hc & Hn)].
  - rewrite Hc. repeat split; auto; lia.
  - destruct (createNewConversation_some _ _ _ Hn) as (-> & Hk & _).
    rewrite Hc. simpl in *. repeat split; auto; lia.
Qed.

(** C4.  For every exchange that goes through (both message inserts
    succeed), starting from a session whose list is empty when no
    conversation is active and holds rows of the store otherwise: the
    in-memory list grows by exactly two entries, the first with
    [is_user = true], the second with [is_user = false], both filed under
    the conversation that is active afterwards, and both with creation
    timestamps not earlier than any entry that was in the list (the
    store's clock does not run backwards). *)
Theorem exchange_appends_user_then_assistant :
  forall fl env transcript audioUrl latency st db u a perf st' db',
    session_ok st db ->
    handleTranscriptionReceived fl env transcript audioUrl latency st db
    = (Recorded u a perf, st', db') ->
    messages st' = messages st ++ [u; a]
    /\ List.length (messages st') = List.length (messages st) + 2
    /\ Msg.is_user u = true
    /\ Msg.is_user a = false
    /\ currentConversationId st' = Some (Msg.conversation_id u)
    /\ Msg.conversation_id a = Msg.conversation_id u
    /\ Msg.created_at u <= Msg.created_at a
    /\ Forall (fun m => Msg.created_at m <= Msg.created_at u
                        /\ Msg.created_at m <= Msg.created_at a)
              (messages st).
Proof.
  intros fl env transcript audioUrl latency st db u a perf st' db' [Hnone Hts] H.
  destruct (recorded_messages _ _ _ _ _ _ _ H) as (Hm & _ & Hu & Ha & Hc & Hua).
  assert (Hprior : messages st' = messages st ++ [u; a]).
  { rewrite Hm. destruct (currentConversationId st); [reflexivity|].
    now rewrite Hnone. }
  apply recorded_inv in H.
  destruct H as (cid & st0 & db0 & db1 & db2 & db3 & Hs & Iu & Ia & _ & Hf).
  destruct (insert_message_ok _ _ _ _ _ _ _ _ _ Iu) as (_ & Uc & _).
  destruct (insert_message_ok _ _ _ _ _ _ _ _ _ Ia) as (_ & Ac & _).
  destruct (fetchModelStats_frame _ _ _ _ Hf) as (_ & Fc & _).
  assert (Hcur : currentConversationId st0 = Some cid).
  { destruct Hs as [(Hc0 & -> & _) | (_ & Hn)]; [exact Hc0|].
    now destruct (createNewConversation_some _ _ _ Hn) as (-> & _). }
  repeat split; auto.
  - rewrite Hprior, length_app. reflexivity.
  - rewrite Fc. simpl. congruence.
  - congruence.
  - eapply Forall_impl; [|exact Hts]. simpl. intros m Hmc. lia.
Qed.

Lemma exchange_appends_user_then_assistant_witness :
  exists u a perf st' db',
    session_ok demo_session demo_store
    /\ handleTranscriptionReceived Num.binary64 demo_env "again"
         "https://mock-audio-storage.com/moshi/en/1700000001000.wav" 388
         demo_session demo_store = (Recorded u a perf, st', db')
    /\ List.length (messages demo_session) = 2
    /\ List.length (messages st') = 4
    /\ Msg.is_user u = true /\ Msg.is_user a = false
    /\ Forall (fun m => Msg.created_at m <= Msg.created_at u
                        /\ Msg.created_at m <= Msg.created_at a)
              (messages demo_session).
Proof.
  assert (Hok : session_ok demo_session demo_store).
  { split; [discriminate|]. unfold demo_session, demo_store. simpl.
    repeat constructor. }
  assert (E : { r | handleTranscriptionReceived Num.binary64 demo_env "again"
                      "https://mock-audio-storage.com/moshi/en/1700000001000.wav"
                      388 demo_session demo_store = r })
    by (eexists; vm_compute; reflexivity).
  destruct E as [[[o st'] db'] E].
  assert (Ho : { x | o = Recorded (fst (fst x)) (snd (fst x)) (snd x) }).
  { revert E. vm_compute. intros E. inversion E.
    eexists (_, _, _). reflexivity. }
  destruct Ho as [[[u a] perf] Ho]. simpl in Ho. subst o.
  destruct (@exchange_appends_user_then_assistant _ _ _ _ _ _ _ _ _ _ _ _ Hok E)
    as (Hm & Hl & Hu & Ha & _ & _ & _ & Hts).
  exists u, a, perf, st', db'.
  split; [exact Hok|]. split; [exact E|]. split; [reflexivity|].
  split; [rewrite Hl; reflexivity|]. repeat split; assumption.
Defined.

(** C9.  The result of the performance-record insert is dropped: in every
    exchange in which both message inserts succeed and the
    [model_performance] insert fails, the two messages are still appended
    to the in-memory list, the statistics are still refreshed (the final
    state is the one [fetchModelStats] produces from the session with the
    pair appended), and the failure surfaces nowhere: the handler's
    [catch] does not run, and the only notice that can appear is the one
    of a failed statistics fetch. *)
Theorem failed_performance_insert_is_ignored :
  forall fl env transcript audioUrl latency st db u a e st' db',
    handleTranscriptionReceived fl env transcript audioUrl latency st db
    = (Recorded u a (Err e), st', db') ->
    messages st'
    = (match currentConversationId st with
       | Some _ => messages st
       | None => []
       end) ++ [u; a]
    /\ (exists st1 db1,
          fetchModelStats fl (net_stats env) st1 db1 = (st', db')
          /\ messages st1 = messages st'
          /\ notices st1 = notices st
          /\ Db.model_performance db1 = Db.model_performance db)
    /\ only_stats_notice (notices st) (notices st')
    /\ (forall err, ~ In (ConsoleError "Error saving messages:" err)
                         (skipn (List.length (notices st)) (notices st'))).
Proof.
  intros fl env transcript audioUrl latency st db u a e st' db' H.
  destruct (recorded_messages _ _ _ _ _ _ _ H) as (Hm & Hn & _).
  split; [exact Hm|]. split; [|split; [exact Hn|]].
  - apply recorded_inv in H.
    destruct H as (cid & st0 & db0 & db1 & db2 & db3 & Hs & Iu & Ia & Ip & Hf).
    destruct (fetchModelStats_frame _ _ _ _ Hf) as (Fm & _ & _ & _).
    destruct (insert_message_ok _ _ _ _ _ _ _ _ _ Iu) as (_ & _ & _ & _ & P1 & _).
    destruct (insert_message_ok _ _ _ _ _ _ _ _ _ Ia) as (_ & _ & _ & _ & P2 & _).
    assert (P3 := insert_model_performance_err _ _ _ _ _ _ _ _ _ Ip).
    exists (setMessages (fun prev => prev ++ [u; a]) st0), db3.
    split; [exact Hf|]. split; [now rewrite Fm|].
    destruct Hs as [(_ & -> & ->) | (_ & Hc)].
    + split; [reflexivity|]. congruence.
    + destruct (createNewConversation_some _ _ _ Hc) as (-> & _ & P0).
      split; [reflexivity|]. congruence.
  - intros err Hin. destruct Hn as [Hn | (e' & Hn)]; rewrite Hn in Hin.
    + rewrite skipn_all in Hin. exact Hin.
    + rewrite skipn_app, skipn_all, Nat.sub_diag in Hin. simpl in Hin.
      destruct Hin as [Hin|[]]. discriminate.
Qed.

Lemma failed_performance_insert_is_ignored_witness :
  let env := {| net_conversation := calm 5; net_user := calm 3;
                net_ai := calm 4;
                net_performance := broken 2 "TypeError: Failed to fetch";
                net_stats := calm 6;
                random_quality := (1 # 2)%Q;
                random_expressivity := (1 # 4)%Q |} in
  exists u a st' db',
    handleTranscriptionReceived Num.binary64 env "again"
      "https://mock-audio-storage.com/moshi/en/1700000001000.wav" 388
      demo_session demo_store
    = (Recorded u a (Err "TypeError: Failed to fetch"), st', db')
    /\ messages st' = messages demo_session ++ [u; a]
    /\ notices st' = []
    /\ Db.model_performance db' = Db.model_performance demo_store.
Proof.
  intros env.
  assert (E : { r | handleTranscriptionReceived Num.binary64 env "again"
                      "https://mock-audio-storage.com/moshi/en/1700000001000.wav"
                      388 demo_session demo_store = r })
    by (eexists; vm_compute; reflexivity).
  destruct E as [[[o st'] db'] E].
  assert (Ho : { x | o = Recorded (fst x) (snd x)
                           (Err "TypeError: Failed to fetch")
                     /\ notices st' = []
                     /\ Db.model_performance db'
                        = Db.model_performance demo_store }).
  { revert E. vm_compute. intros E. inversion E.
    eexists (_, _). repeat split; reflexivity. }
  destruct Ho as [[u a] (Ho & Hn & Hp)]. simpl in Ho. subst o.
  destruct (@failed_performance_insert_is_ignored _ _ _ _ _ _ _ _ _ _ _ _ E)
    as (Hm & _).
  exists u, a, st', db'. repeat split; assumption.
Defined.

(** ** Scores *)




(** C10, as stated, fails over binary64.  For [r = 1 - 2^-52], a double
    of [0, 1), the sum [2 r + 3 = 5 - 2^-51] lies halfway between two
    doubles and rounds to 5: the score is 5, not below 5, and not equal
    to [2 r + 3]. *)
Lemma mock_score_reaches_five : ~ scores_in_half_open_range.
Proof.
  intros H.
  destruct (H (4503599627370495 # 4503599627370496)%Q) as (_ & _ & B).
  - vm_compute. discriminate.
  - vm_compute. reflexivity.
  - vm_compute. reflexivity.
  - revert B. vm_compute. discriminate.
Qed.

(** C10, amended.  For every value [r] of [0, 1) the generator produces,
    the score written with the performance record is the binary64 result
    of [r * 2 + 3] and lies in [3, 5], the bound 5 included (it is reached
    by rounding); over exact arithmetic it is [2 r + 3], below 5.
    Consequently the store takes it, and the persisted value lies within
    the 0-to-5 bound (in fact within [3, 5]). *)
Theorem mock_score_within_three_and_five :
  forall r : Q,
    (0 <= r)%Q -> (r < 1)%Q ->
    (3 <= mock_score Num.binary64 r)%Q
    /\ (mock_score Num.binary64 r <= 5)%Q
    /\ (mock_score Num.exact r == 2 * r + 3)%Q
    /\ (mock_score Num.exact r < 5)%Q
    /\ exists q, Db.decimal_3_2 (mock_score Num.binary64 r) = Some q
                 /\ (3 <= q)%Q /\ (q <= 5)%Q /\ Db.check_score q = true.
Proof.
  intros r Hlo Hhi.
  destruct (mock_score_binary64_range Hlo Hhi) as [A B].
  repeat split; auto.
  - apply mock_score_exact.
  - rewrite mock_score_exact. lra.
  - now apply score_3_5_accepted.
Qed.

Lemma mock_score_within_three_and_five_witness :
  let r := (4503599627370495 # 4503599627370496)%Q in
  (0 <= r)%Q /\ (r < 1)%Q
  /\ (3 <= mock_score Num.binary64 r)%Q
  /\ (mock_score Num.binary64 r <= 5)%Q
  /\ Db.decimal_3_2 (mock_score Num.binary64 r) = Some 5%Q.
Proof.
  intros r.
  assert (Hlo : (0 <= r)%Q) by (vm_compute; discriminate).
  assert (Hhi : (r < 1)%Q) by (vm_compute; reflexivity).
  destruct (mock_score_within_three_and_five Hlo Hhi) as (A & B & _).
  split; [exact Hlo|]. split; [exact Hhi|]. split; [exact A|].
  split; [exact B|]. vm_compute. reflexivity.
Defined.

(** ** Deleting a conversation *)

(** C8.  After a successful delete of the active conversation the session
    has no active conversation id and an empty in-memory list; after a
    successful delete of any other conversation both are unchanged. *)
Theorem delete_resets_only_the_active_conversation :
  forall n conversationId st db st' db',
    deleteConversation n conversationId st db = (true, st', db') ->
    (currentConversationId st = Some conversationId ->
     currentConversationId st' = None /\ messages st' = [])
    /\ (currentConversationId st <> Some conversationId ->
        currentConversationId st' = currentConversationId st
        /\ messages st' = messages st).
Proof.
  intros n cid st db st' db'. unfold deleteConversation.
  destruct (Db.delete_conversation n (user st) cid db) as [[[]|e] db1];
    [|discriminate].
  intros H. inversion H; subst; clear H. simpl.
  destruct (currentConversationId st) as [c|] eqn:C.
  - destruct (Nat.eqb c cid) eqn:E.
    + apply Nat.eqb_eq in E. subst c. split; [auto | congruence].
    + apply Nat.eqb_neq in E. split; [congruence | auto].
  - split; [discriminate | auto].
Qed.

Lemma delete_resets_only_the_active_conversation_witness :
  (exists st' db',
     deleteConversation (calm 9) 0 demo_session demo_store = (true, st', db')
     /\ currentConversationId demo_session = Some 0
     /\ messages demo_session <> []
     /\ currentConversationId st' = None /\ messages st' = []
     /\ Db.messages db' = [])
  /\ (exists st' db',
        deleteConversation (calm 9) 5 demo_session demo_store = (true, st', db')
        /\ currentConversationId st' = Some 0
        /\ messages st' = messages demo_session).
Proof.
  split.
  - assert (E : { r | deleteConversation (calm 9) 0 demo_session demo_store
                      = (true, fst r, snd r) })
      by (eexists (_, _); vm_compute; reflexivity).
    destruct E as [[st' db'] E]. simpl in E.
    destruct (@delete_resets_only_the_active_conversation _ _ _ _ _ _ E)
      as [A _].
    destruct (A eq_refl) as [A1 A2].
    exists st', db'. repeat split; auto; try discriminate.
    revert E. vm_compute. intros E. now inversion E.
  - assert (E : { r | deleteConversation (calm 9) 5 demo_session demo_store
                      = (true, fst r, snd r) })
      by (eexists (_, _); vm_compute; reflexivity).
    destruct E as [[st' db'] E]. simpl in E.
    destruct (@delete_resets_only_the_active_conversation _ _ _ _ _ _ E)
      as [_ B].
    destruct B as [B1 B2]; [discriminate|].
    exists st', db'. repeat split; auto.
Defined.

(** ** The session invariant is kept by every handler *)

Lemma session_ok_initial u db : session_ok (initial u) db.
Proof. split; [reflexivity | constructor]. Qed.

Lemma session_ok_later st db db' :
  Db.clock db <= Db.clock db' -> session_ok st db -> session_ok st db'.
Proof.
  intros Hc [H1 H2]. split; [exact H1|].
  eapply Forall_impl; [|exact H2]. simpl. intros m Hm. lia.
Qed.

Lemma session_ok_same_messages st st' db :
  currentConversationId st' = currentConversationId st ->
  messages st' = messages st ->
  session_ok st db -> session_ok st' db.
Proof.
  intros Hc Hm [H1 H2]. split; rewrite Hm; [rewrite Hc; exact H1 | exact H2].
Qed.

Lemma createNewConversation_any n st db o st' db' :
  createNewConversation n st db = (o, st', db') ->
  Db.clock db' = Db.clock db + elapsed n
  /\ match o with
     | Some c => currentConversationId st' = Some c /\ messages st' = []
     | None => currentConversationId st' = currentConversationId st
               /\ messages st' = messages st
     end.
Proof.
  unfold createNewConversation, Db.insert_conversation. cbv zeta.
  destruct (fault n); [intros H; inversion H; subst; simpl; auto|].
  destruct (user st); [|intros H; inversion H; subst; simpl; auto].
  destruct (negb _); [intros H; inversion H; subst; simpl; auto|].
  destruct (negb _); [intros H; inversion H; subst; simpl; auto|].
  intros H; inversion H; subst; simpl; auto.
Qed.

Lemma fetchModelStats_session_ok fl n st db st' db' :
  fetchModelStats fl n st db = (st', db') ->
  session_ok st db -> session_ok st' db'.
Proof.
  intros H Hok. destruct (fetchModelStats_frame _ _ _ _ H) as (Hm & Hc & _ & ->).
  apply session_ok_later with (db := db); [simpl; lia|].
  now apply session_ok_same_messages with (st := st).
Qed.

Lemma handleTranscriptionReceived_session_ok
    fl env transcript audioUrl latency st db o st' db' :
  handleTranscriptionReceived fl env transcript audioUrl latency st db
  = (o, st', db') ->
  session_ok st db -> session_ok st' db'.
Proof.
  unfold handleTranscriptionReceived.
  intros H Hok.
  assert (Hstart : exists c st0 db0,
            match currentConversationId st with
            | Some c => (Some c, st, db)
            | None => createNewConversation (net_conversation env) st db
            end = (c, st0, db0)
            /\ session_ok st0 db0
            /\ (c = None \/ currentConversationId st0 = c)).
  { destruct (currentConversationId st) as [c|] eqn:C.
    - exists (Some c), st, db. auto.
    - destruct (createNewConversation (net_conversation env) st db)
        as [[c st0] db0] eqn:N.
      exists c, st0, db0. split; [reflexivity|].
      destruct (createNewConversation_any _ _ _ N) as (Hk & Hc).
      destruct c as [c|]; destruct Hc as [Hc Hm].
      + split; [|auto]. split; rewrite Hm; [reflexivity | constructor].
      + split; [|auto]. apply session_ok_later with (db := db); [lia|].
        now apply session_ok_same_messages with (st := st). }
  destruct Hstart as (c & st0 & db0 & E0 & Hok0 & Hcur).
  rewrite E0 in H. destruct c as [cid|].
  2:{ inversion H; subst. exact Hok0. }
  destruct Hcur as [Hcur|Hcur]; [discriminate|].
  destruct (Db.insert_message (net_user env) _ _ _ _ _ _ _ db0)
    as [[u|e] db1] eqn:E1.
  2:{ inversion H; subst.
      apply session_ok_later with (db := db0).
      - rewrite (insert_message_clock _ _ _ _ _ _ _ _ _ E1). lia.
      - now apply session_ok_same_messages with (st := st0). }
  destruct (Db.insert_message (net_ai env) _ _ _ _ _ _ _ db1)
    as [[a|e] db2] eqn:E2.
  2:{ inversion H; subst.
      apply session_ok_later with (db := db0).
      - rewrite (insert_message_clock _ _ _ _ _ _ _ _ _ E2),
                (insert_message_clock _ _ _ _ _ _ _ _ _ E1). lia.
      - now apply session_ok_same_messages with (st := st0). }
  destruct (Db.insert_model_performance _ _ _ _ _ _ _ _ db2)
    as [perf db3] eqn:E3.
  destruct (fetchModelStats _ _ _ db3) as [st1 db4] eqn:E4.
  inversion H; subst. eapply fetchModelStats_session_ok; [exact E4|].
  destruct (insert_message_ok _ _ _ _ _ _ _ _ _ E1) as (_ & _ & Tu & _).
  destruct (insert_message_ok _ _ _ _ _ _ _ _ _ E2) as (_ & _ & Ta & _).
  assert (K1 := insert_message_clock _ _ _ _ _ _ _ _ _ E1).
  assert (K2 := insert_message_clock _ _ _ _ _ _ _ _ _ E2).
  destruct (insert_model_performance_clock _ _ _ _ _ _ _ _ _ E3) as (K3 & _).
  destruct Hok0 as [_ Hts]. split; simpl.
  - rewrite Hcur. discriminate.
  - apply Forall_app. split.
    + eapply Forall_impl; [|exact Hts]. simpl. intros m Hm. lia.
    + repeat constructor; lia.
Qed.

Lemma handleNewConversation_session_ok st db :
  session_ok (handleNewConversation st) db.
Proof. split; [reflexivity | constructor]. Qed.

Lemma order_by_created_at_In m l :
  In m (Db.order_by_created_at l) -> In m l.
Proof.
  unfold Db.order_by_created_at.
  assert (G : forall acc, In m (fold_left
                (fun acc x => Db.insert_by_created_at x acc) l acc)
              -> In m acc \/ In m l).
  { induction l as [|x l IH]; simpl; intros acc H; [auto|].
    destruct (IH _ H) as [H1|H1]; [|auto].
    assert (I : forall y ys, In m (Db.insert_by_created_at y ys)
                             -> m = y \/ In m ys).
    { clear. intros y ys. induction ys as [|z ys IH]; simpl.
      - intros [H|[]]; auto.
      - destruct (Msg.created_at y <? Msg.created_at z); simpl.
        + intros [H|[H|H]]; auto.
        + intros [H|H]; [auto|]. destruct (IH H); auto. }
    destruct (I _ _ H1) as [->|H2]; auto. }
  intros H. destruct (G [] H) as [[]|H1]. exact H1.
Qed.

Lemma handleSelectConversation_session_ok n conversationId st db st' db' :
  handleSelectConversation n conversationId st db = (st', db') ->
  store_ok db -> session_ok st db -> session_ok st' db'.
Proof.
  unfold handleSelectConversation, fetchMessages, Db.select_messages.
  cbv zeta. intros H Hs [_ Hts].
  destruct (fault n); inversion H; subst; clear H; split; simpl;
    try discriminate.
  - eapply Forall_impl; [|exact Hts]. simpl. intros m Hm. lia.
  - apply Forall_forall. intros m Hin.
    apply order_by_created_at_In, filter_In in Hin. destruct Hin as [Hin _].
    unfold store_ok in Hs. rewrite Forall_forall in Hs.
    specialize (Hs m Hin). lia.
Qed.

Lemma deleteConversation_session_ok n conversationId st db ok st' db' :
  deleteConversation n conversationId st db = (ok, st', db') ->
  session_ok st db -> session_ok st' db'.
Proof.
  unfold deleteConversation, Db.delete_conversation. cbv zeta.
  intros H [H1 H2].
  destruct (fault n); inversion H; subst; clear H; simpl.
  - split; simpl; [exact H1|].
    eapply Forall_impl; [|exact H2]. simpl. intros m Hm. lia.
  - destruct (currentConversationId st) as [c|] eqn:C; simpl.
    + destruct (Nat.eqb c conversationId).
      * split; [reflexivity | constructor].
      * split; simpl; [rewrite C; discriminate|].
        eapply Forall_impl; [|exact H2]. simpl. intros m Hm. lia.
    + split; simpl; [rewrite C; exact H1|].
      eapply Forall_impl; [|exact H2]. simpl. intros m Hm. lia.
Qed.

(** ** The store invariant is kept by every statement *)

Lemma follows_refl db : follows db db.
Proof. split; auto. Qed.

Lemma store_ok_follows db db' : follows db db' -> store_ok db -> store_ok db'.
Proof.
  unfold store_ok. intros [C M] H. rewrite Forall_forall in *.
  intros m Hin. destruct (M m Hin) as [H1|H1].
  - specialize (H m H1). lia.
  - lia.
Qed.

Lemma store_ok_empty : store_ok Db.empty.
Proof. constructor. Qed.

Lemma tick_follows n db : follows db (Db.tick n db).
Proof. split; simpl; [lia | auto]. Qed.

Lemma insert_message_follows n auth cid c t a u l db r db' :
  Db.insert_message n auth cid c t a u l db = (r, db') -> follows db db'.
Proof.
  unfold Db.insert_message. cbv zeta.
  destruct (fault n); [intros H; inversion H; apply tick_follows|].
  destruct (negb (Db.int4 l)); [intros H; inversion H; apply tick_follows|].
  destruct (negb _); intros H; inversion H; [apply tick_follows|].
  split; simpl; [lia|]. intros m Hin. apply in_app_or in Hin.
  destruct Hin as [Hin|[<-|[]]]; auto.
Qed.

Lemma insert_model_performance_follows n auth uid m lang l q e db r db' :
  Db.insert_model_performance n auth uid m lang l q e db = (r, db') ->
  follows db db'.
Proof.
  intros H.
  destruct (insert_model_performance_clock _ _ _ _ _ _ _ _ _ H) as (C & M & _).
  split; [lia|]. rewrite M. auto.
Qed.

Lemma insert_conversation_follows n auth uid t m l db r db' :
  Db.insert_conversation n auth uid t m l db = (r, db') -> follows db db'.
Proof.
  unfold Db.insert_conversation. cbv zeta.
  destruct (fault n); [intros H; inversion H; apply tick_follows|].
  destruct uid; [|intros H; inversion H; apply tick_follows].
  destruct (negb _); [intros H; inversion H; apply tick_follows|].
  destruct (negb _); intros H; inversion H; [apply tick_follows|].
  split; simpl; [lia | auto].
Qed.

Lemma delete_conversation_follows n auth id db r db' :
  Db.delete_conversation n auth id db = (r, db') -> follows db db'.
Proof.
  unfold Db.delete_conversation. cbv zeta.
  destruct (fault n); intros H; inversion H; [apply tick_follows|].
  split; simpl; [lia|]. intros m Hin. apply filter_In in Hin.
  left. tauto.
Qed.

Lemma handleTranscriptionReceived_store_ok
    fl env transcript audioUrl latency st db o st' db' :
  handleTranscriptionReceived fl env transcript audioUrl latency st db
  = (o, st', db') ->
  store_ok db -> store_ok db'.
Proof.
  unfold handleTranscriptionReceived. intros H Hok.
  assert (Hstart : exists c st0 db0,
            match currentConversationId st with
            | Some c => (Some c, st, db)
            | None => createNewConversation (net_conversation env) st db
            end = (c, st0, db0) /\ store_ok db0).
  { destruct (currentConversationId st) as [c|].
    - exists (Some c), st, db. auto.
    - unfold createNewConversation.
      destruct (Db.insert_conversation _ _ _ _ _ _ db) as [[d|e] db0] eqn:N;
        eexists _, _, db0; (split; [reflexivity|]);
        exact (store_ok_follows (insert_conversation_follows _ _ _ _ _ _ _ N) Hok). }
  destruct Hstart as (c & st0 & db0 & E0 & Hok0).
  rewrite E0 in H. destruct c as [cid|]; [|inversion H; subst; exact Hok0].
  destruct (Db.insert_message (net_user env) _ _ _ _ _ _ _ db0)
    as [[u|e] db1] eqn:E1;
    assert (Hok1 := store_ok_follows
                      (insert_message_follows _ _ _ _ _ _ _ _ _ E1) Hok0);
    [|inversion H; subst; exact Hok1].
  destruct (Db.insert_message (net_ai env) _ _ _ _ _ _ _ db1)
    as [[a|e] db2] eqn:E2;
    assert (Hok2 := store_ok_follows
                      (insert_message_follows _ _ _ _ _ _ _ _ _ E2) Hok1);
    [|inversion H; subst; exact Hok2].
  destruct (Db.insert_model_performance _ _ _ _ _ _ _ _ db2)
    as [perf db3] eqn:E3.
  assert (Hok3 := store_ok_follows
                    (insert_model_performance_follows _ _ _ _ _ _ _ _ _ E3) Hok2).
  destruct (fetchModelStats _ _ _ db3) as [st1 db4] eqn:E4.
  inversion H; subst.
  destruct (fetchModelStats_frame _ _ _ _ E4) as (_ & _ & _ & ->).
  exact (store_ok_follows (tick_follows _ _) Hok3).
Qed.

(** ** The edge function *)

Lemma invocations_of_app t t' :
  invocations_of (t ++ t') = invocations_of t ++ invocations_of t'.
Proof. apply flat_map_app. Qed.

Ltac run_edge :=
  unfold Edge.process, Edge.bind, Edge.console_log, Edge.emit, Edge.throw,
    Edge.ret, Edge.Date_now, Edge.encode_audio; simpl.

Ltac same_invocations :=
  unfold invocations; simpl;
  rewrite ?invocations_of_app; simpl; rewrite ?app_nil_r; reflexivity.

(** A request with a field missing or empty is thrown out right after
    the form has been read. *)
Lemma process_missing fl max_arguments req form w :
  Edge.formData req = Ok form ->
  Edge.present (Edge.formData_get "audio" form)
  && Edge.present (Edge.formData_get "model" form)
  && Edge.present (Edge.formData_get "language" form) = false ->
  Edge.process fl max_arguments req w
  = (Err "Missing required parameters: audio, model, or language",
     {| Edge.now := Edge.now w; Edge.randoms := Edge.randoms w;
        Edge.trace := Edge.trace w
                      ++ [Edge.Log "Speech-to-Speech processing started"] |}).
Proof.
  intros Hform Hp. run_edge. rewrite Hform.
  destruct (Edge.formData_get "audio" form) as [au|];
    destruct (Edge.formData_get "model" form) as [mo|];
    destruct (Edge.formData_get "language" form) as [la|];
    try reflexivity.
  rewrite Hp. reflexivity.
Qed.

Lemma strict_eq_unsupported m :
  ~ In m Db.model_names ->
  Edge.strict_eq (Edge.Text m) "moshi" = false
  /\ Edge.strict_eq (Edge.Text m) "ultravox" = false
  /\ Edge.strict_eq (Edge.Text m) "spirit_lm" = false.
Proof.
  intros H. simpl. repeat split; apply String.eqb_neq; intros ->;
    apply H; simpl; auto.
Qed.

(** Whatever else is wrong with the request, an unsupported model name
    ends in a thrown error before any backend is entered; when the
    request is otherwise complete, the error is the one of the [default]
    branch. *)
Lemma process_unsupported fl max_arguments req form w m :
  Edge.formData req = Ok form ->
  Edge.formData_get "model" form = Some (Edge.Text m) ->
  ~ In m Db.model_names ->
  exists e w',
    Edge.process fl max_arguments req w = (Err e, w')
    /\ invocations w' = invocations w
    /\ e <> EmptyString
    /\ (complete max_arguments form = true ->
        e = ("Unsupported model: " ++ m)%string).
Proof.
  intros Hform Hm Hun.
  destruct (strict_eq_unsupported Hun) as (E1 & E2 & E3).
  unfold complete. run_edge. rewrite Hform, Hm.
  destruct (Edge.formData_get "audio" form) as [au|].
  2:{ do 2 eexists. split; [reflexivity|]. split; [same_invocations|].
      split; [discriminate|]. discriminate. }
  destruct (Edge.formData_get "language" form) as [la|].
  2:{ do 2 eexists. split; [reflexivity|]. split; [same_invocations|].
      split; [discriminate|]. rewrite andb_false_r. discriminate. }
  destruct (Edge.present (Some au) && Edge.present (Some (Edge.Text m))
            && Edge.present (Some la)) eqn:P; simpl.
  2:{ do 2 eexists. split; [reflexivity|]. split; [same_invocations|].
      split; [discriminate|]. intros C. exfalso.
      destruct au as [s|bytes]; [discriminate|].
      apply andb_true_iff in C. destruct C as [C C3].
      apply andb_true_iff in C. destruct C as [_ C2].
      simpl in P. rewrite C2, C3 in P. discriminate. }
  destruct au as [s|bytes]; simpl.
  { do 2 eexists. split; [reflexivity|]. split; [same_invocations|].
    split; [discriminate|]. discriminate. }
  destruct (max_arguments <? List.length bytes) eqn:L; simpl.
  { do 2 eexists. split; [reflexivity|]. split; [same_invocations|].
    split; [discriminate|]. intros C. exfalso.
    apply andb_true_iff in C. destruct C as [C _].
    apply andb_true_iff in C. destruct C as [C _].
    apply Nat.leb_le in C. apply Nat.ltb_lt in L. lia. }
  simpl in E1, E2, E3. rewrite E1, E2, E3. simpl.
  do 2 eexists. split; [reflexivity|]. split; [same_invocations|].
  split; [discriminate|]. reflexivity.
Qed.

(** C6.  For every request to the endpoint (not the CORS preflight) whose
    form lacks one of the fields [audio], [model], [language], the handler
    answers with the missing-parameter error: HTTP 500, [success: false],
    the message of the parameter check; and no model backend is entered. *)
Theorem missing_parameter_is_rejected_first :
  forall fl max_arguments req form w,
    String.eqb (Edge.method req) "OPTIONS" = false ->
    Edge.formData req = Ok form ->
    Edge.formData_get "audio" form = None
    \/ Edge.formData_get "model" form = None
    \/ Edge.formData_get "language" form = None ->
    let (resp, w') := Edge.serve fl max_arguments req w in
    Edge.status resp = 500
    /\ Edge.payload resp
       = Edge.Failure "Missing required parameters: audio, model, or language"
    /\ Edge.success (Edge.payload resp) = Some false
    /\ invocations w' = invocations w.
Proof.
  intros fl max_arguments req form w Hmeth Hform Hmiss.
  unfold Edge.serve. rewrite Hmeth.
  rewrite (process_missing fl max_arguments req w Hform).
  - simpl. repeat split. same_invocations.
  - destruct Hmiss as [-> | [-> | ->]]; simpl;
      rewrite ?andb_false_r; reflexivity.
Qed.

Lemma missing_parameter_is_rejected_first_witness :
  let req := {| Edge.method := "POST";
                Edge.formData :=
                  Ok [ ("audio", Edge.File [x52; x49; x46; x46]%byte);
                       ("model", Edge.Text "moshi") ] |} in
  String.eqb (Edge.method req) "OPTIONS" = false
  /\ Edge.formData_get "language" [ ("audio", Edge.File [x52; x49; x46; x46]%byte);
                                    ("model", Edge.Text "moshi") ] = None
  /\ let (resp, w') := Edge.serve Num.binary64 1000 req demo_world in
     Edge.status resp = 500
     /\ Edge.payload resp
        = Edge.Failure "Missing required parameters: audio, model, or language"
     /\ Edge.success (Edge.payload resp) = Some false
     /\ invocations w' = invocations demo_world.
Proof.
  intros req. split; [reflexivity|]. split; [reflexivity|].
  exact (@missing_parameter_is_rejected_first Num.binary64 1000 req _
           demo_world eq_refl eq_refl (or_intror (or_intror eq_refl))).
Defined.

(** C5.  For every model name outside [moshi], [ultravox], [spirit_lm],
    the endpoint (preflight apart) answers with an error: HTTP 500 and
    [success: false], and none of the three backends is entered; when the
    request passes the parameter check and the audio encoding, the error
    is the unsupported-model one, with the message
    [Unsupported model: <name>]. *)
Theorem unsupported_model_is_rejected :
  forall fl max_arguments req form w m,
    String.eqb (Edge.method req) "OPTIONS" = false ->
    Edge.formData req = Ok form ->
    Edge.formData_get "model" form = Some (Edge.Text m) ->
    ~ In m ["moshi"; "ultravox"; "spirit_lm"] ->
    let (resp, w') := Edge.serve fl max_arguments req w in
    Edge.status resp = 500
    /\ Edge.success (Edge.payload resp) = Some false
    /\ invocations w' = invocations w
    /\ (complete max_arguments form = true ->
        Edge.payload resp = Edge.Failure ("Unsupported model: " ++ m)%string).
Proof.
  intros fl max_arguments req form w m Hmeth Hform Hm Hun.
  unfold Edge.serve. rewrite Hmeth.
  destruct (process_unsupported fl max_arguments req w Hform Hm Hun)
    as (e & w1 & -> & Hinv & Hne & Hmsg).
  simpl. repeat split.
  - rewrite <- Hinv. same_invocations.
  - intros C. rewrite (Hmsg C). reflexivity.
Qed.

Lemma unsupported_model_is_rejected_witness :
  let req := {| Edge.method := "POST";
                Edge.formData := Ok (demo_form "whisper" "en") |} in
  String.eqb (Edge.method req) "OPTIONS" = false
  /\ ~ In "whisper" ["moshi"; "ultravox"; "spirit_lm"]
  /\ complete 1000 (demo_form "whisper" "en") = true
  /\ let (resp, w') := Edge.serve Num.binary64 1000 req demo_world in
     Edge.status resp = 500
     /\ Edge.success (Edge.payload resp) = Some false
     /\ invocations w' = invocations demo_world
     /\ Edge.payload resp = Edge.Failure "Unsupported model: whisper".
Proof.
  intros req.
  assert (Hun : ~ In "whisper" ["moshi"; "ultravox"; "spirit_lm"]).
  { simpl. intros [H|[H|[H|[]]]]; discriminate. }
  split; [reflexivity|]. split; [exact Hun|]. split; [reflexivity|].
  assert (T := @unsupported_model_is_rejected Num.binary64 1000 req _
                 demo_world "whisper" eq_refl eq_refl eq_refl Hun).
  destruct (Edge.serve Num.binary64 1000 req demo_world) as [resp w'].
  destruct T as (A & B & C & D). repeat split; auto.
Defined.

(** ** The language fallback of the backends *)

Lemma assoc_unsupported table language :
  map fst table = supported_languages ->
  ~ In language supported_languages ->
  Edge.assoc language table = None.
Proof.
  intros <- Hnot. induction table as [|[k v] table IH]; simpl; [reflexivity|].
  destruct (String.eqb language k) eqn:E.
  - apply String.eqb_eq in E. subst k. exfalso. apply Hnot. now left.
  - apply IH. intros H. apply Hnot. now right.
Qed.

(** Where the fallback works: a language that is neither in the table nor
    the name of an inherited property gets the English entry. *)
Lemma fallback_when_not_inherited table language :
  map fst table = supported_languages ->
  ~ In language supported_languages ->
  Edge.assoc language Edge.object_prototype = None ->
  Edge.or_else (Edge.get_prop table language) (Edge.get_prop table "en")
  = Edge.get_prop table "en".
Proof.
  intros Hk Hnot Hproto. unfold Edge.get_prop at 1.
  rewrite (assoc_unsupported table Hk Hnot), Hproto. reflexivity.
Qed.

Lemma url_not_empty model language z :
  ("https://mock-audio-storage.com/" ++ model ++ "/" ++ language ++ "/"
   ++ Edge.show_Z z ++ ".wav")%string <> EmptyString.
Proof. discriminate. Qed.

(** The three backends on an unsupported language that is not an
    inherited property name: the English transcript and a non-empty URL. *)
Lemma backends_fall_back_to_english fl audioBase64 language w :
  ~ In language supported_languages ->
  Edge.assoc language Edge.object_prototype = None ->
  (exists url w',
     Edge.processMoshiModel fl audioBase64 language w
     = (Ok (Edge.get_prop Edge.greetings "en", url), w')
     /\ url <> EmptyString)
  /\ (exists url w',
        Edge.processUltravoxModel fl audioBase64 language w
        = (Ok (Edge.get_prop Edge.ultravox_responses "en", url), w')
        /\ url <> EmptyString)
  /\ (exists url w',
        Edge.processSpiritLMModel fl audioBase64 language w
        = (Ok (Edge.get_prop Edge.spirit_lm_responses "en", url), w')
        /\ url <> EmptyString).
Proof.
  intros Hnot Hproto.
  unfold Edge.processMoshiModel, Edge.processUltravoxModel,
    Edge.processSpiritLMModel, Edge.generateMockAudioUrl.
  rewrite !fallback_when_not_inherited by (auto; reflexivity).
  unfold Edge.bind, Edge.emit, Edge.console_log, Edge.Math_random,
    Edge.sleep, Edge.Date_now, Edge.ret.
  destruct (Edge.randoms w) as [|r rest]; cbn [Edge.now Edge.randoms Edge.trace];
    repeat split; do 2 eexists; (split; [reflexivity | apply url_not_empty]).
Qed.

(** C7, at its failing input.  [constructor] is not one of the five
    supported codes, yet for it each of the three backends returns, as
    transcript, the function that every object literal inherits under
    that name, not the English text (the URL is non-empty all the same).
    The fallback [table[language] || table['en']] only triggers when the
    lookup is falsy, and an inherited property is not. *)
Theorem inherited_property_name_defeats_fallback :
  forall fl audioBase64 w,
    ~ In "constructor" supported_languages
    /\ (exists url w',
          Edge.processMoshiModel fl audioBase64 "constructor" w
          = (Ok (Edge.JFunction "Object", url), w')
          /\ url <> EmptyString
          /\ Edge.JFunction "Object" <> Edge.get_prop Edge.greetings "en")
    /\ (exists url w',
          Edge.processUltravoxModel fl audioBase64 "constructor" w
          = (Ok (Edge.JFunction "Object", url), w')
          /\ url <> EmptyString
          /\ Edge.JFunction "Object"
             <> Edge.get_prop Edge.ultravox_responses "en")
    /\ (exists url w',
          Edge.processSpiritLMModel fl audioBase64 "constructor" w
          = (Ok (Edge.JFunction "Object", url), w')
          /\ url <> EmptyString
          /\ Edge.JFunction "Object"
             <> Edge.get_prop Edge.spirit_lm_responses "en").
Proof.
  intros fl audioBase64 w. split.
  - simpl. intros [H|[H|[H|[H|[H|[]]]]]]; discriminate.
  - unfold Edge.processMoshiModel, Edge.processUltravoxModel,
      Edge.processSpiritLMModel, Edge.generateMockAudioUrl.
    unfold Edge.bind, Edge.emit, Edge.console_log, Edge.Math_random,
      Edge.sleep, Edge.Date_now, Edge.ret.
    destruct (Edge.randoms w) as [|r rest];
      cbn [Edge.now Edge.randoms Edge.trace];
      repeat split; do 2 eexists;
      (split; [reflexivity | split; [apply url_not_empty | discriminate]]).
Qed.

(* ================================================================== *)
(** * Further properties *)
(* ================================================================== *)

(** ** The shape of the statistics, under any rounding *)

Lemma get_none_iff (V : Type) k (m : JsMap.t V) :
  JsMap.get k m = None <-> ~ In k (JsMap.keys m).
Proof.
  induction m as [|[k0 v0] m IH]; simpl.
  - tauto.
  - destruct (String.eqb k k0) eqn:E.
    + apply String.eqb_eq in E. subst. split; [discriminate | tauto].
    + apply String.eqb_neq in E. rewrite IH. split; [intros H [H1|H1] | ]; 
        try tauto. congruence.
Qed.

Lemma keys_aggregate fl sm r :
  JsMap.keys (aggregate fl sm r)
  = JsMap.keys sm
    ++ (if existsb (String.eqb (Perf.model_name r)) (JsMap.keys sm)
        then [] else [Perf.model_name r]).
Proof.
  unfold aggregate.
  destruct (JsMap.get (Perf.model_name r) sm) as [e|] eqn:G.
  - erewrite keys_set_present by exact G.
    assert (In (Perf.model_name r) (JsMap.keys sm)).
    { destruct (in_dec string_dec (Perf.model_name r) (JsMap.keys sm)) as [H|H];
        [exact H|]. apply get_none_iff in H. congruence. }
    replace (existsb _ _) with true; [now rewrite app_nil_r|].
    symmetry. apply existsb_exists. eexists. split; [eassumption|].
    apply String.eqb_refl.
  - rewrite keys_set_absent by exact G.
    replace (existsb _ _) with false; [reflexivity|].
    symmetry. apply not_true_is_false. intros H.
    apply existsb_exists in H. destruct H as (x & Hin & E).
    apply String.eqb_eq in E. subst x. apply get_none_iff in G. contradiction.
Qed.

Lemma filter_filter_unseen seen k l :
  In k seen ->
  filter (fun y => negb (existsb (String.eqb y) seen))
         (filter (fun y => negb (String.eqb y k)) l)
  = filter (fun y => negb (existsb (String.eqb y) seen)) l.
Proof.
  intros Hk. induction l as [|x l IH]; simpl; [reflexivity|].
  destruct (String.eqb x k) eqn:E; simpl.
  - apply String.eqb_eq in E. subst x.
    replace (existsb (String.eqb k) seen) with true; [exact IH|].
    symmetry. apply existsb_exists. exists k. split; [exact Hk|].
    apply String.eqb_refl.
  - now rewrite IH.
Qed.

Lemma filter_filter_seen seen k l :
  filter (fun y => negb (existsb (String.eqb y) seen))
         (filter (fun y => negb (String.eqb y k)) l)
  = filter (fun y => negb (existsb (String.eqb y) (seen ++ [k]))) l.
Proof.
  induction l as [|x l IH]; simpl; [reflexivity|].
  rewrite existsb_app. simpl. rewrite orb_false_r.
  destruct (String.eqb x k) eqn:E; simpl.
  - rewrite orb_true_r. simpl. exact IH.
  - rewrite orb_false_r. now rewrite IH.
Qed.

Lemma keys_fold_aggregate fl data sm :
  JsMap.keys (fold_left (aggregate fl) data sm)
  = JsMap.keys sm
    ++ filter (fun y => negb (existsb (String.eqb y) (JsMap.keys sm)))
              (distinct (map Perf.model_name data)).
Proof.
  revert sm. induction data as [|r data IH]; intros sm; simpl.
  - now rewrite app_nil_r.
  - rewrite IH, keys_aggregate.
    destruct (existsb (String.eqb (Perf.model_name r)) (JsMap.keys sm)) eqn:E;
      simpl.
    + rewrite app_nil_r. f_equal. rewrite filter_filter_unseen; [reflexivity|].
      apply existsb_exists in E. destruct E as (x & Hin & E).
      apply String.eqb_eq in E. now subst x.
    + rewrite <- app_assoc. simpl. f_equal. f_equal.
      symmetry. apply filter_filter_seen.
Qed.

Lemma values_names sm :
  well_keyed sm -> map model_name (JsMap.values sm) = JsMap.keys sm.
Proof.
  unfold JsMap.values, JsMap.keys.
  induction sm as [|[k s] sm IH]; simpl; intros H; [reflexivity|].
  rewrite (H k s (or_introl eq_refl)). f_equal.
  apply IH. intros k' s' Hin. apply H. now right.
Qed.

Lemma distinct_In x l : In x (distinct l) <-> In x l.
Proof.
  induction l as [|y l IH]; simpl; [tauto|].
  rewrite filter_In, IH. split.
  - tauto.
  - intros [H|H]; [auto|]. destruct (string_dec y x) as [E|E]; [auto|].
    right. split; [exact H|]. apply negb_true_iff, String.eqb_neq. congruence.
Qed.

Lemma distinct_NoDup l : NoDup (distinct l).
Proof.
  induction l as [|y l IH]; simpl; constructor.
  - rewrite filter_In. intros [_ H]. rewrite String.eqb_refl in H. discriminate.
  - now apply NoDup_filter.
Qed.

(** X1.  Under any rounding, [fetchModelStats] publishes one entry per
    distinct model name of the fetched rows, no name twice, in the order
    in which the names first occur among the rows. *)
Theorem stats_one_entry_per_model_in_first_seen_order :
  forall fl (data : list Perf.row),
    map model_name (computeStats fl data) = distinct (map Perf.model_name data)
    /\ NoDup (map model_name (computeStats fl data))
    /\ (forall m, In m (map model_name (computeStats fl data))
                  <-> exists r, In r data /\ Perf.model_name r = m).
Proof.
  intros fl data.
  assert (E : map model_name (computeStats fl data)
              = distinct (map Perf.model_name data)).
  { unfold computeStats. rewrite values_names
      by (apply fold_aggregate_well_keyed; intros ? ? []).
    rewrite keys_fold_aggregate. simpl.
    induction (distinct (map Perf.model_name data)) as [|x l IH]; simpl;
      [reflexivity | now rewrite IH]. }
  split; [exact E|]. rewrite E. split; [apply distinct_NoDup|].
  intros m. rewrite distinct_In, in_map_iff.
  split; intros (r & H1 & H2); exists r; auto.
Qed.

Lemma step_counts fl m acc g r :
  counts m acc g -> counts m (step_of fl m acc r) (g ++ group m [r]).
Proof.
  intros H. unfold group. simpl.
  destruct (String.eqb (Perf.model_name r) m) eqn:E.
  - apply String.eqb_eq in E. destruct acc as [s|]; simpl in H.
    + rewrite step_of_update by exact E. destruct H as (Hn & Hc & Hne).
      simpl. rewrite length_app. simpl. repeat split; auto; [lia|].
      destruct g; [congruence | discriminate].
    + subst g. rewrite step_of_fresh by exact E. simpl.
      repeat split; auto. discriminate.
  - apply String.eqb_neq in E. rewrite step_of_other by assumption.
    now rewrite app_nil_r.
Qed.

Lemma fold_counts fl m rs acc g :
  counts m acc g ->
  counts m (fold_left (step_of fl m) rs acc) (g ++ group m rs).
Proof.
  revert acc g. induction rs as [|r rs IH]; intros acc g H.
  - simpl. now rewrite app_nil_r.
  - change (group m (r :: rs)) with (group m ([r] ++ rs)).
    rewrite group_app, app_assoc. simpl fold_left.
    apply IH. now apply step_counts.
Qed.

Lemma total_usage_set_present k v (sm : JsMap.t ModelStats) e :
  JsMap.get k sm = Some e ->
  total_usage (JsMap.values (JsMap.set k v sm)) + usage_count e
  = total_usage (JsMap.values sm) + usage_count v.
Proof.
  unfold JsMap.values.
  induction sm as [|[k0 v0] sm IH]; simpl; [discriminate|].
  destruct (String.eqb k k0); simpl.
  - intros H. inversion H; subst. lia.
  - intros H. specialize (IH H). lia.
Qed.

Lemma total_usage_set_absent k v (sm : JsMap.t ModelStats) :
  JsMap.get k sm = None ->
  total_usage (JsMap.values (JsMap.set k v sm))
  = total_usage (JsMap.values sm) + usage_count v.
Proof.
  unfold JsMap.values.
  induction sm as [|[k0 v0] sm IH]; simpl; [lia|].
  destruct (String.eqb k k0); simpl; [discriminate|].
  intros H. specialize (IH H). lia.
Qed.

Lemma total_usage_aggregate fl sm r :
  total_usage (JsMap.values (aggregate fl sm r))
  = S (total_usage (JsMap.values sm)).
Proof.
  unfold aggregate.
  destruct (JsMap.get (Perf.model_name r) sm) as [e|] eqn:G.
  - assert (H := total_usage_set_present
                   (Perf.model_name r)
                   {| model_name := model_name e;
                      avg_latency :=
                        Num.div fl
                          (Num.add fl (Num.mul fl (avg_latency e)
                                         (Num.of_nat (usage_count e)))
                                      (inject_Z (Perf.latency_ms r)))
                          (Num.add fl (Num.of_nat (usage_count e)) 1);
                      avg_quality :=
                        Num.div fl
                          (Num.add fl (Num.mul fl (avg_quality e)
                                         (Num.of_nat (usage_count e)))
                                      (or_zero (Perf.quality_score r)))
                          (Num.add fl (Num.of_nat (usage_count e)) 1);
                      avg_expressivity :=
                        Num.div fl
                          (Num.add fl (Num.mul fl (avg_expressivity e)
                                         (Num.of_nat (usage_count e)))
                                      (or_zero (Perf.expressivity_score r)))
                          (Num.add fl (Num.of_nat (usage_count e)) 1);
                      usage_count := S (usage_count e) |} sm G).
    simpl in H. lia.
  - rewrite total_usage_set_absent by exact G. simpl. lia.
Qed.

(** X2.  Under any rounding, the entry of a model counts exactly the
    fetched rows of that model (and exists only if there is one), and the
    counts of all entries add up to the number of fetched rows: no row is
    dropped and none is counted twice. *)
Theorem stats_usage_counts_partition_the_rows :
  forall fl (data : list Perf.row),
    total_usage (computeStats fl data) = List.length data
    /\ forall m,
         match stats_of m (computeStats fl data) with
         | Some s => model_name s = m
                     /\ usage_count s = List.length (group m data)
                     /\ 0 < usage_count s
         | None => group m data = []
         end.
Proof.
  intros fl data. split.
  - unfold computeStats.
    assert (G : forall sm, total_usage (JsMap.values (fold_left (aggregate fl) data sm))
                           = total_usage (JsMap.values sm) + List.length data).
    { induction data as [|r data IH]; intros sm; simpl; [lia|].
      rewrite IH, total_usage_aggregate. lia. }
    rewrite G. reflexivity.
  - intros m. unfold computeStats.
    rewrite stats_of_values
      by (apply fold_aggregate_well_keyed; intros ? ? []).
    rewrite get_fold_aggregate. simpl JsMap.get.
    assert (H := @fold_counts fl m data None [] eq_refl). simpl in H.
    destruct (fold_left (step_of fl m) data None) as [s|]; simpl in H.
    + destruct H as (Hn & Hc & Hne). repeat split; auto.
      rewrite Hc. destruct (group m data); [congruence | simpl; lia].
    + exact H.
Qed.

Lemma fold_step_of_group fl m rs acc :
  fold_left (step_of fl m) rs acc = fold_left (step_of fl m) (group m rs) acc.
Proof.
  revert acc. induction rs as [|r rs IH]; intros acc; [reflexivity|].
  unfold group. simpl.
  destruct (String.eqb (Perf.model_name r) m) eqn:E; simpl.
  - apply IH.
  - apply String.eqb_neq in E. rewrite step_of_other by assumption. apply IH.
Qed.

(** X3.  A model that occurs in exactly one fetched row is shown with
    that row's own latency and scores and a count of 1: no arithmetic, and
    therefore no rounding, touches them. *)
Theorem model_used_once_shows_its_single_run :
  forall fl (data : list Perf.row) (m : string) (r : Perf.row),
    group m data = [r] ->
    stats_of m (computeStats fl data)
    = Some {| model_name := m;
              avg_latency := inject_Z (Perf.latency_ms r);
              avg_quality := or_zero (Perf.quality_score r);
              avg_expressivity := or_zero (Perf.expressivity_score r);
              usage_count := 1 |}.
Proof.
  intros fl data m r Hg. unfold computeStats.
  rewrite stats_of_values
    by (apply fold_aggregate_well_keyed; intros ? ? []).
  rewrite get_fold_aggregate, fold_step_of_group, Hg. simpl.
  apply step_of_fresh.
  assert (Hin : In r (group m data)) by (rewrite Hg; now left).
  apply filter_In in Hin. destruct Hin as [_ E]. now apply String.eqb_eq.
Qed.

Lemma model_used_once_shows_its_single_run_witness :
  let a := {| Perf.id := 1; Perf.user_id := 7; Perf.model_name := "moshi";
              Perf.language := "en"; Perf.latency_ms := 412;
              Perf.quality_score := Some (391 # 100)%Q;
              Perf.expressivity_score := None;
              Perf.created_at := 10 |} in
  let b := {| Perf.id := 2; Perf.user_id := 7; Perf.model_name := "ultravox";
              Perf.language := "en"; Perf.latency_ms := 640;
              Perf.quality_score := Some 4%Q;
              Perf.expressivity_score := Some 5%Q;
              Perf.created_at := 20 |} in
  group "moshi" [b; a; b] = [a]
  /\ stats_of "moshi" (computeStats Num.binary64 [b; a; b])
     = Some {| model_name := "moshi"; avg_latency := 412;
               avg_quality := (391 # 100)%Q; avg_expressivity := 0;
               usage_count := 1 |}.
Proof.
  intros a b. split; [reflexivity|].
  exact (@model_used_once_shows_its_single_run Num.binary64 [b; a; b]
           "moshi" a eq_refl).
Defined.

Section MeanBounds.
Local Open Scope Q_scope.

Lemma sum_Q_bounds l lo hi :
  Forall (fun x => lo <= x /\ x <= hi) l ->
  Num.of_nat (List.length l) * lo <= sum_Q l
  /\ sum_Q l <= Num.of_nat (List.length l) * hi.
Proof.
  induction 1 as [|x l [Hlo Hhi] _ [IH1 IH2]].
  - simpl. change (Num.of_nat 0) with 0. split; lra.
  - change (List.length (x :: l)) with (S (List.length l)).
    rewrite of_nat_succ. simpl sum_Q. split; lra.
Qed.

Lemma direct_mean_bounds l lo hi :
  l <> [] ->
  Forall (fun x => lo <= x /\ x <= hi) l ->
  lo <= direct_mean l /\ direct_mean l <= hi.
Proof.
  intros Hne H. destruct (sum_Q_bounds H) as [A B].
  destruct l as [|x l]; [congruence|].
  assert (P := of_nat_pos (List.length l)).
  unfold direct_mean. change (List.length (x :: l)) with (S (List.length l)) in *.
  split.
  - apply Qle_shift_div_l; [exact P|]. lra.
  - apply Qle_shift_div_r; [exact P|]. lra.
Qed.

(** X4.  Over exact arithmetic every published mean lies within the range
    of the values it averages: if a measure (latency, quality or
    expressivity) of every record of a model is between [lo] and [hi], so
    is the model's mean of that measure. *)
Theorem means_stay_within_the_range_of_the_records :
  forall (k : measure) (data : list Perf.row) (m : string) (s : ModelStats)
         (lo hi : Q),
    stats_of m (computeStats Num.exact data) = Some s ->
    (forall r, In r data -> Perf.model_name r = m ->
               lo <= value_of k r /\ value_of k r <= hi) ->
    lo <= mean_of k s /\ mean_of k s <= hi.
Proof.
  intros k data m s lo hi Hs Hr.
  assert (He := computeStats_entry m data). rewrite Hs in He. simpl in He.
  destruct He as (Hne & _ & _ & Hl & Hq & Hx).
  assert (F : forall f, (forall r, value_of k r = f r) ->
                        Forall (fun x => lo <= x /\ x <= hi)
                               (map f (group m data))).
  { intros f Hf. apply Forall_forall. intros x Hx'.
    apply in_map_iff in Hx'. destruct Hx' as (r & <- & Hin).
    apply filter_In in Hin. destruct Hin as [Hin E].
    apply String.eqb_eq in E. rewrite <- Hf. now apply Hr. }
  assert (N : forall f : Perf.row -> Q, map f (group m data) <> []).
  { intros f E. apply map_eq_nil in E. contradiction. }
  destruct k; simpl.
  - rewrite Hl. apply direct_mean_bounds; [apply N | now apply F].
  - rewrite Hq. apply direct_mean_bounds; [apply N | now apply F].
  - rewrite Hx. apply direct_mean_bounds; [apply N | now apply F].
Qed.

End MeanBounds.

Lemma means_stay_within_the_range_of_the_records_witness :
  let a := {| Perf.id := 1; Perf.user_id := 7; Perf.model_name := "moshi";
              Perf.language := "en"; Perf.latency_ms := 412;
              Perf.quality_score := Some (391 # 100)%Q;
              Perf.expressivity_score := Some 3%Q;
              Perf.created_at := 10 |} in
  let b := {| Perf.id := 2; Perf.user_id := 7; Perf.model_name := "moshi";
              Perf.language := "en"; Perf.latency_ms := 640;
              Perf.quality_score := Some (457 # 100)%Q;
              Perf.expressivity_score := Some 5%Q;
              Perf.created_at := 20 |} in
  exists s,
    stats_of "moshi" (computeStats Num.exact [a; b; a]) = Some s
    /\ (3 <= mean_of Quality s)%Q /\ (mean_of Quality s <= 5)%Q.
Proof.
  intros a b.
  assert (E : { s | stats_of "moshi" (computeStats Num.exact [a; b; a]) = Some s })
    by (eexists; vm_compute; reflexivity).
  destruct E as [s E]. exists s. split; [exact E|].
  apply (@means_stay_within_the_range_of_the_records
           Quality [a; b; a] "moshi" s 3%Q 5%Q E).
  intros r [<-|[<-|[<-|[]]]] _; simpl; unfold quality_of; simpl; split; lra.
Defined.


(** ** The exchange handler, path by path *)

(** Every run of the handler is one of four: no conversation could be
    had; the user message was refused; the assistant message was refused
    after the user message went in; or the exchange was recorded. *)
Lemma handler_paths fl env transcript audioUrl latency st db o st' db' :
  handleTranscriptionReceived fl env transcript audioUrl latency st db
  = (o, st', db') ->
  exists c st0 db0,
    conversation_for env st db = (c, st0, db0)
    /\ match c with
       | None => o = NoConversation /\ st' = st0 /\ db' = db0
       | Some cid =>
           (exists e,
              Db.insert_message (net_user env) (user st0) cid transcript
                (Some transcript) None true latency db0 = (Err e, db')
              /\ o = SaveFailed e
              /\ st' = notify (ConsoleError "Error saving messages:" e) st0)
           \/ (exists u db1 e,
                 Db.insert_message (net_user env) (user st0) cid transcript
                   (Some transcript) None true latency db0 = (Ok u, db1)
                 /\ Db.insert_message (net_ai env) (user st0) cid
                      ("AI response using " ++ selectedModel st0)%string
                      None (Some audioUrl) false latency db1 = (Err e, db')
                 /\ o = SaveFailed e
                 /\ st' = notify (ConsoleError "Error saving messages:" e) st0)
           \/ (exists u a perf, o = Recorded u a perf)
       end.
Proof.
  unfold handleTranscriptionReceived. fold (conversation_for env st db).
  destruct (conversation_for env st db) as [[c st0] db0].
  intros H. exists c, st0, db0. split; [reflexivity|].
  destruct c as [cid|]; [|inversion H; auto].
  destruct (Db.insert_message (net_user env) _ _ _ _ _ _ _ db0)
    as [[u|e] db1] eqn:E1.
  2:{ inversion H; subst. left. eauto. }
  destruct (Db.insert_message (net_ai env) _ _ _ _ _ _ _ db1)
    as [[a|e] db2] eqn:E2.
  2:{ inversion H; subst. right. left. exists u, db1, e. auto. }
  destruct (Db.insert_model_performance _ _ _ _ _ _ _ _ db2) as [perf db3].
  destruct (fetchModelStats _ _ _ db3) as [st1 db4].
  inversion H; subst. right. right. eauto.
Qed.

Lemma conversation_for_none env st db st0 db0 :
  conversation_for env st db = (None, st0, db0) ->
  currentConversationId st = None
  /\ same_tables db db0
  /\ exists e,
       st0 = notify (Toast "Error" "Failed to create new conversation"
                           "destructive")
               (notify (ConsoleError "Error creating conversation:" e) st).
Proof.
  unfold conversation_for, createNewConversation, Db.insert_conversation.
  cbv zeta. destruct (currentConversationId st); [discriminate|].
  split; [reflexivity|].
  destruct (fault _); [inversion H; subst; split; [repeat split|eauto]|].
  destruct (user st); [|inversion H; subst; split; [repeat split|eauto]].
  destruct (negb _); [inversion H; subst; split; [repeat split|eauto]|].
  destruct (negb _); [inversion H; subst; split; [repeat split|eauto]|].
  discriminate.
Qed.

Lemma conversation_for_some env st db cid st0 db0 :
  conversation_for env st db = (Some cid, st0, db0) ->
  currentConversationId st0 = Some cid
  /\ user st0 = user st
  /\ selectedModel st0 = selectedModel st
  /\ notices st0 = notices st
  /\ modelStats st0 = modelStats st
  /\ messages st0 = match currentConversationId st with
                    | Some _ => messages st
                    | None => []
                    end
  /\ Db.messages db0 = Db.messages db
  /\ Db.model_performance db0 = Db.model_performance db
  /\ (currentConversationId st = Some cid /\ st0 = st /\ db0 = db
      \/ currentConversationId st = None
         /\ exists row, Db.conversations db0 = Db.conversations db ++ [row]
                        /\ Conv.id row = cid
                        /\ user st = Some (Conv.user_id row)
                        /\ Conv.model_used row = selectedModel st
                        /\ Conv.language row = selectedLanguage st
                        /\ Conv.title row
                           = (capitalize (selectedModel st)
                              ++ " Conversation")%string).
Proof.
  unfold conversation_for, createNewConversation, Db.insert_conversation.
  cbv zeta. destruct (currentConversationId st) as [c|] eqn:C.
  - intros H; inversion H; subst. rewrite C. auto 12.
  - destruct (fault _); [discriminate|].
    destruct (user st) as [uid|] eqn:U; [|discriminate].
    destruct (negb _); [discriminate|].
    destruct (negb _); [discriminate|].
    intros H; inversion H; subst; clear H. simpl.
    repeat split; auto. right. split; [reflexivity|].
    eexists. split; [reflexivity|]. simpl. auto.
Qed.

Lemma insert_message_err n auth cid c t a u l db e db' :
  Db.insert_message n auth cid c t a u l db = (Err e, db') ->
  same_tables db db'.
Proof.
  unfold Db.insert_message. cbv zeta.
  destruct (fault n); [intros H; inversion H; repeat split|].
  destruct (negb (Db.int4 l)); [intros H; inversion H; repeat split|].
  destruct (negb _); [intros H; inversion H; repeat split|discriminate].
Qed.

Lemma insert_message_row n auth cid c t a u l db row db' :
  Db.insert_message n auth cid c t a u l db = (Ok row, db') ->
  Msg.content row = c /\ Msg.transcript row = t /\ Msg.audio_url row = a
  /\ Msg.latency_ms row = Some l
  /\ Db.owns_conversation auth cid (Db.tick n db) = true
  /\ Db.int4 l = true.
Proof.
  unfold Db.insert_message. cbv zeta.
  destruct (fault n); [discriminate|].
  destruct (Db.int4 l); simpl; [|discriminate].
  destruct (Db.owns_conversation auth cid (Db.tick n db)); simpl;
    [|discriminate].
  intros H; inversion H; subst. simpl. auto 6.
Qed.

(** X5.  When no conversation is active and none can be created, the
    handler records nothing: the session still has no active conversation,
    its message list and statistics are as before, the three tables are
    unchanged, and the failure is reported twice, on the console and as a
    destructive toast. *)
Theorem failed_conversation_creation_records_nothing :
  forall fl env transcript audioUrl latency st db st' db',
    handleTranscriptionReceived fl env transcript audioUrl latency st db
    = (NoConversation, st', db') ->
    currentConversationId st = None
    /\ currentConversationId st' = None
    /\ messages st' = messages st
    /\ modelStats st' = modelStats st
    /\ same_tables db db'
    /\ exists e,
         notices st'
         = notices st
           ++ [ConsoleError "Error creating conversation:" e;
               Toast "Error" "Failed to create new conversation" "destructive"].
Proof.
  intros fl env transcript audioUrl latency st db st' db' H.
  destruct (handler_paths _ _ _ _ _ _ _ H) as (c & st0 & db0 & Hc & Hp).
  destruct c as [cid|].
  - destruct Hp as [(e & _ & Ho & _) | [(u & db1 & e & _ & _ & Ho & _)
                                       | (u & a & perf & Ho)]]; discriminate.
  - destruct Hp as (_ & -> & ->).
    destruct (conversation_for_none _ _ _ Hc) as (Hn & Ht & e & ->).
    simpl. rewrite <- app_assoc. simpl.
    split; [exact Hn|]. split; [exact Hn|]. split; [reflexivity|].
    split; [reflexivity|]. split; [exact Ht|]. exists e. reflexivity.
Qed.

Lemma failed_conversation_creation_records_nothing_witness :
  let env := {| net_conversation := broken 5 "TypeError: Failed to fetch";
                net_user := calm 3; net_ai := calm 4;
                net_performance := calm 2; net_stats := calm 6;
                random_quality := (1 # 2)%Q;
                random_expressivity := (1 # 4)%Q |} in
  exists st' db',
    handleTranscriptionReceived Num.binary64 env "hello"
      "https://mock-audio-storage.com/moshi/en/1700000000000.wav" 412
      (initial (Some 7)) Db.empty = (NoConversation, st', db')
    /\ currentConversationId st' = None
    /\ messages st' = []
    /\ same_tables Db.empty db'
    /\ List.length (notices st') = 2.
Proof.
  intros env.
  assert (E : { r | handleTranscriptionReceived Num.binary64 env "hello"
                      "https://mock-audio-storage.com/moshi/en/1700000000000.wav"
                      412 (initial (Some 7)) Db.empty
                    = (NoConversation, fst r, snd r) })
    by (eexists (_, _); vm_compute; reflexivity).
  destruct E as [[st' db'] E]. simpl in E.
  destruct (@failed_conversation_creation_records_nothing
              _ _ _ _ _ _ _ _ _ E) as (_ & Hc & Hm & _ & Ht & e & Hn).
  exists st', db'. repeat split; try assumption; try apply Ht.
  rewrite Hn. reflexivity.
Defined.

(** X6.  When a message insert is refused, the in-memory list gets no new
    entry, the statistics are not refreshed, no performance record is
    written and the error goes to the console once.  Which rows the
    [messages] table then holds depends on the insert that was refused:
    if it was the user's, the table is as before; if it was the
    assistant's, nothing is rolled back, and the table is the one before
    with the user message, inserted just before, at its end. *)
Theorem refused_message_insert_leaves_the_list_alone :
  forall fl env transcript audioUrl latency st db e st' db',
    handleTranscriptionReceived fl env transcript audioUrl latency st db
    = (SaveFailed e, st', db') ->
    messages st' = match currentConversationId st with
                   | Some _ => messages st
                   | None => []
                   end
    /\ modelStats st' = modelStats st
    /\ notices st' = notices st ++ [ConsoleError "Error saving messages:" e]
    /\ Db.model_performance db' = Db.model_performance db
    /\ exists cid st0 db0,
         conversation_for env st db = (Some cid, st0, db0)
         /\ ((Db.insert_message (net_user env) (user st0) cid transcript
                (Some transcript) None true latency db0 = (Err e, db')
              /\ Db.messages db' = Db.messages db)
             \/ (exists u db1,
                   Db.insert_message (net_user env) (user st0) cid transcript
                     (Some transcript) None true latency db0 = (Ok u, db1)
                   /\ Db.insert_message (net_ai env) (user st0) cid
                        ("AI response using " ++ selectedModel st0)%string
                        None (Some audioUrl) false latency db1 = (Err e, db')
                   /\ Db.messages db' = Db.messages db ++ [u]
                   /\ Msg.is_user u = true
                   /\ Msg.content u = transcript
                   /\ Msg.conversation_id u = cid)).
Proof.
  intros fl env transcript audioUrl latency st db e st' db' H.
  destruct (handler_paths _ _ _ _ _ _ _ H) as (c & st0 & db0 & Hc & Hp).
  destruct c as [cid|]; [|destruct Hp as (Ho & _); discriminate].
  destruct (conversation_for_some _ _ _ Hc)
    as (_ & _ & _ & Hn & Hs & Hm & Dm & Dp & _).
  destruct Hp as [(e1 & I1 & Ho & ->)
                 | [(u & db1 & e1 & I1 & I2 & Ho & ->) | (u & a & perf & Ho)]];
    [| |discriminate]; inversion Ho; subst e1; simpl.
  - destruct (insert_message_err _ _ _ _ _ _ _ _ _ I1) as (_ & M & P).
    rewrite Hn. repeat split; auto; [congruence|].
    exists cid, st0, db0. split; [exact Hc|]. left.
    split; [exact I1 | congruence].
  - destruct (insert_message_ok _ _ _ _ _ _ _ _ _ I1)
      as (Uu & Ucid & _ & M1 & P1 & _).
    destruct (insert_message_row _ _ _ _ _ _ _ _ _ I1) as (Uc & _).
    destruct (insert_message_err _ _ _ _ _ _ _ _ _ I2) as (_ & M2 & P2).
    rewrite Hn. repeat split; auto; [congruence|].
    exists cid, st0, db0. split; [exact Hc|]. right.
    exists u, db1. split; [exact I1|]. split; [exact I2|].
    split; [congruence|]. split; [exact Uu|]. split; [exact Uc | exact Ucid].
Qed.

Lemma refused_message_insert_leaves_the_list_alone_witness :
  let env := {| net_conversation := calm 5; net_user := calm 3;
                net_ai := broken 4 "TypeError: Failed to fetch";
                net_performance := calm 2; net_stats := calm 6;
                random_quality := (1 # 2)%Q;
                random_expressivity := (1 # 4)%Q |} in
  exists st' db' u,
    handleTranscriptionReceived Num.binary64 env "again"
      "https://mock-audio-storage.com/moshi/en/1700000001000.wav" 388
      demo_session demo_store
    = (SaveFailed "TypeError: Failed to fetch", st', db')
    /\ messages st' = messages demo_session
    /\ Db.messages db' = Db.messages demo_store ++ [u]
    /\ Msg.is_user u = true
    /\ Db.model_performance db' = Db.model_performance demo_store.
Proof.
  intros env.
  assert (E : { r | handleTranscriptionReceived Num.binary64 env "again"
                      "https://mock-audio-storage.com/moshi/en/1700000001000.wav"
                      388 demo_session demo_store
                    = (SaveFailed "TypeError: Failed to fetch", fst r, snd r) })
    by (eexists (_, _); vm_compute; reflexivity).
  destruct E as [[st' db'] E]. simpl in E.
  destruct (@refused_message_insert_leaves_the_list_alone
              _ _ _ _ _ _ _ _ _ _ E)
    as (Hm & _ & _ & Hp & cid & st0 & db0 & Hc & Hd).
  destruct Hd as [(_ & Hd) | (u & db1 & _ & _ & Hd & Hu & _)].
  - exfalso. revert E Hd. vm_compute. intros E Hd.
    inversion E; subst. discriminate.
  - exists st', db', u. repeat split; assumption.
Defined.

Lemma insert_message_needs_owner n cid c t a u l db row db' :
  Db.insert_message n None cid c t a u l db = (Ok row, db') -> False.
Proof.
  intros H. destruct (insert_message_row _ _ _ _ _ _ _ _ _ H) as (_ & _ & _ & _ & O & _).
  unfold Db.owns_conversation in O.
  induction (Db.conversations (Db.tick n db)) as [|x l0 IH]; simpl in O;
    [discriminate|].
  rewrite andb_false_r in O. simpl in O. auto.
Qed.

(** X7.  Without a signed-in user the handler never records an exchange
    and never changes a table: the row-level policies refuse the
    conversation and the messages alike. *)
Theorem signed_out_session_records_nothing :
  forall fl env transcript audioUrl latency st db o st' db',
    user st = None ->
    handleTranscriptionReceived fl env transcript audioUrl latency st db
    = (o, st', db') ->
    same_tables db db'
    /\ messages st' = messages st
    /\ forall u a perf, o <> Recorded u a perf.
Proof.
  intros fl env transcript audioUrl latency st db o st' db' Hu H.
  destruct (handler_paths _ _ _ _ _ _ _ H) as (c & st0 & db0 & Hc & Hp).
  destruct c as [cid|].
  - destruct (conversation_for_some _ _ _ Hc)
      as (_ & U0 & _ & _ & _ & Hm & _ & _ & Hs).
    destruct Hs as [(Ha & -> & ->) | (_ & row & _ & _ & Hrow & _)];
      [|congruence].
    rewrite Ha in Hm.
    destruct Hp as [(e & I1 & -> & ->)
                   | [(u & db1 & e & I1 & _) | (u & a & perf & ->)]].
    + split; [exact (insert_message_err _ _ _ _ _ _ _ _ _ I1)|].
      split; [reflexivity | discriminate].
    + exfalso. rewrite Hu in I1. exact (insert_message_needs_owner _ _ _ _ _ _ _ _ I1).
    + exfalso. apply recorded_inv in H.
      destruct H as (cid' & st1 & db1 & db2 & db3 & db4 & Hs & I1 & _).
      assert (user st1 = None).
      { destruct Hs as [(_ & -> & _) | (_ & Hn)]; [exact Hu|].
        now destruct (createNewConversation_some _ _ _ Hn) as (-> & _). }
      rewrite H in I1. exact (insert_message_needs_owner _ _ _ _ _ _ _ _ I1).
  - destruct Hp as (-> & -> & ->).
    destruct (conversation_for_none _ _ _ Hc) as (_ & Ht & e & ->).
    split; [exact Ht|]. split; [reflexivity | discriminate].
Qed.

Lemma signed_out_session_records_nothing_witness :
  exists o st' db',
    user (initial None) = None
    /\ handleTranscriptionReceived Num.binary64 demo_env "hello"
         "https://mock-audio-storage.com/moshi/en/1700000000000.wav" 412
         (initial None) demo_store = (o, st', db')
    /\ same_tables demo_store db'
    /\ o = NoConversation.
Proof.
  assert (E : { r | handleTranscriptionReceived Num.binary64 demo_env "hello"
                      "https://mock-audio-storage.com/moshi/en/1700000000000.wav"
                      412 (initial None) demo_store
                    = (NoConversation, fst r, snd r) })
    by (eexists (_, _); vm_compute; reflexivity).
  destruct E as [[st' db'] E]. simpl in E.
  destruct (@signed_out_session_records_nothing
              Num.binary64 demo_env _ _ _ (initial None) _ _ _ _ eq_refl E)
    as (Ht & _).
  exists NoConversation, st', db'. repeat split; try assumption; apply Ht.
Defined.

(** X8.  While a conversation is active the handler never creates
    another one: whatever the outcome, the active conversation stays the
    same and the [conversations] table is untouched; a recorded pair is
    filed under the active conversation and is what the run adds to the
    [messages] table. *)
Theorem active_conversation_is_reused :
  forall fl env transcript audioUrl latency st db cid o st' db',
    currentConversationId st = Some cid ->
    handleTranscriptionReceived fl env transcript audioUrl latency st db
    = (o, st', db') ->
    currentConversationId st' = Some cid
    /\ Db.conversations db' = Db.conversations db
    /\ forall u a perf,
         o = Recorded u a perf ->
         Msg.conversation_id u = cid /\ Msg.conversation_id a = cid
         /\ Db.messages db' = Db.messages db ++ [u; a].
Proof.
  intros fl env transcript audioUrl latency st db cid o st' db' Hcur H.
  assert (Hc : conversation_for env st db = (Some cid, st, db))
    by (unfold conversation_for; now rewrite Hcur).
  destruct (handler_paths _ _ _ _ _ _ _ H) as (c & st0 & db0 & Hc' & Hp).
  rewrite Hc in Hc'. inversion Hc'; subst c st0 db0; clear Hc'.
  destruct Hp as [(e & I1 & -> & ->)
                 | [(u & db1 & e & I1 & I2 & -> & ->) | (u & a & perf & ->)]].
  - destruct (insert_message_err _ _ _ _ _ _ _ _ _ I1) as (C & _).
    simpl. split; [exact Hcur|]. split; [exact C|].
    intros ? ? ? X; discriminate X.
  - destruct (insert_message_ok _ _ _ _ _ _ _ _ _ I1) as (_ & _ & _ & _ & _ & C1).
    destruct (insert_message_err _ _ _ _ _ _ _ _ _ I2) as (C2 & _).
    simpl. split; [exact Hcur|]. split; [congruence|].
    intros ? ? ? X; discriminate X.
  - apply recorded_inv in H.
    destruct H as (cid' & st1 & db1 & db2 & db3 & db4 & Hs & I1 & I2 & Ip & Hf).
    destruct Hs as [(Hcid & -> & ->) | (Hn & _)]; [|congruence].
    assert (cid' = cid) by congruence. subst cid'.
    destruct (insert_message_ok _ _ _ _ _ _ _ _ _ I1)
      as (_ & U1 & _ & M1 & _ & C1).
    destruct (insert_message_ok _ _ _ _ _ _ _ _ _ I2)
      as (_ & U2 & _ & M2 & _ & C2).
    destruct (insert_model_performance_clock _ _ _ _ _ _ _ _ _ Ip)
      as (_ & M3 & C3).
    destruct (fetchModelStats_frame _ _ _ _ Hf) as (_ & Fc & _ & ->).
    simpl in *. split; [congruence|]. split; [congruence|].
    intros u0 a0 perf0 E. inversion E; subst u0 a0 perf0.
    repeat split; auto. rewrite M3, M2, M1, <- app_assoc. reflexivity.
Qed.

Lemma active_conversation_is_reused_witness :
  exists u a perf st' db',
    currentConversationId demo_session = Some 0
    /\ handleTranscriptionReceived Num.binary64 demo_env "again"
         "https://mock-audio-storage.com/moshi/en/1700000001000.wav" 388
         demo_session demo_store = (Recorded u a perf, st', db')
    /\ currentConversationId st' = Some 0
    /\ Db.conversations db' = Db.conversations demo_store
    /\ Msg.conversation_id u = 0 /\ Msg.conversation_id a = 0.
Proof.
  assert (E : { r | handleTranscriptionReceived Num.binary64 demo_env "again"
                      "https://mock-audio-storage.com/moshi/en/1700000001000.wav"
                      388 demo_session demo_store = r })
    by (eexists; vm_compute; reflexivity).
  destruct E as [[[o st'] db'] E].
  assert (Ho : { x | o = Recorded (fst (fst x)) (snd (fst x)) (snd x) }).
  { revert E. vm_compute. intros E. inversion E.
    eexists (_, _, _). reflexivity. }
  destruct Ho as [[[u a] perf] Ho]. simpl in Ho. subst o.
  destruct (@active_conversation_is_reused
              Num.binary64 demo_env _ _ _ demo_session demo_store 0 _ _ _
              eq_refl E) as (Hc & Hd & Hr).
  destruct (Hr u a perf eq_refl) as (Hu & Ha & _).
  exists u, a, perf, st', db'. repeat split; assumption.
Defined.

(** X9.  What a recorded exchange stores: the user message carries the
    text handed to the handler as content and as transcript and has no
    audio; the assistant message carries the fixed text naming the
    selected model, the audio URL and no transcript; both carry the
    measured latency, and they are two different rows. *)
Theorem recorded_pair_contents :
  forall fl env transcript audioUrl latency st db u a perf st' db',
    handleTranscriptionReceived fl env transcript audioUrl latency st db
    = (Recorded u a perf, st', db') ->
    Msg.content u = transcript
    /\ Msg.transcript u = Some transcript
    /\ Msg.audio_url u = None
    /\ Msg.content a = ("AI response using " ++ selectedModel st)%string
    /\ Msg.transcript a = None
    /\ Msg.audio_url a = Some audioUrl
    /\ Msg.latency_ms u = Some latency
    /\ Msg.latency_ms a = Some latency
    /\ Msg.id u <> Msg.id a.
Proof.
  intros fl env transcript audioUrl latency st db u a perf st' db' H.
  apply recorded_inv in H.
  destruct H as (cid & st0 & db0 & db1 & db2 & db3 & Hs & I1 & I2 & _).
  assert (Hmodel : selectedModel st0 = selectedModel st).
  { destruct Hs as [(_ & -> & _) | (_ & Hn)]; [reflexivity|].
    now destruct (createNewConversation_some _ _ _ Hn) as (-> & _). }
  destruct (insert_message_row _ _ _ _ _ _ _ _ _ I1) as (A1 & A2 & A3 & A4 & _).
  destruct (insert_message_row _ _ _ _ _ _ _ _ _ I2) as (B1 & B2 & B3 & B4 & _).
  rewrite Hmodel in B1. repeat split; auto.
  revert I1 I2. unfold Db.insert_message. cbv zeta.
  destruct (fault (net_user env)); [discriminate|].
  destruct (negb (Db.int4 latency)); [discriminate|].
  destruct (negb _); [discriminate|].
  intros I1. inversion I1; subst; clear I1.
  destruct (fault (net_ai env)); [discriminate|].
  destruct (negb _); [discriminate|].
  intros I2. inversion I2; subst; clear I2. simpl. lia.
Qed.

Lemma recorded_pair_contents_witness :
  exists u a perf st' db',
    handleTranscriptionReceived Num.binary64 demo_env "again"
      "https://mock-audio-storage.com/moshi/en/1700000001000.wav" 388
      demo_session demo_store = (Recorded u a perf, st', db')
    /\ Msg.content u = "again"
    /\ Msg.content a = "AI response using moshi"
    /\ Msg.audio_url a
       = Some "https://mock-audio-storage.com/moshi/en/1700000001000.wav"
    /\ Msg.id u <> Msg.id a.
Proof.
  assert (E : { r | handleTranscriptionReceived Num.binary64 demo_env "again"
                      "https://mock-audio-storage.com/moshi/en/1700000001000.wav"
                      388 demo_session demo_store = r })
    by (eexists; vm_compute; reflexivity).
  destruct E as [[[o st'] db'] E].
  assert (Ho : { x | o = Recorded (fst (fst x)) (snd (fst x)) (snd x) }).
  { revert E. vm_compute. intros E. inversion E.
    eexists (_, _, _). reflexivity. }
  destruct Ho as [[[u a] perf] Ho]. simpl in Ho. subst o.
  destruct (@recorded_pair_contents _ _ _ _ _ _ _ _ _ _ _ _ E)
    as (A1 & _ & _ & B1 & _ & B3 & _ & _ & D).
  exists u, a, perf, st', db'. repeat split; assumption.
Defined.

(** ** Invariants along every run of the page *)

Lemma check_score_range q : Db.check_score q = true -> (0 <= q <= 5)%Q.
Proof.
  unfold Db.check_score. rewrite andb_true_iff, !Qle_bool_iff. tauto.
Qed.

Lemma insert_model_performance_row_ok n auth uid m lang l q e db r db' :
  Db.insert_model_performance n auth uid m lang l q e db = (r, db') ->
  Db.model_performance db' = Db.model_performance db
  \/ exists row, Db.model_performance db' = Db.model_performance db ++ [row]
                 /\ performance_row_ok row
                 /\ auth = Some (Perf.user_id row).
Proof.
  unfold Db.insert_model_performance. cbv zeta.
  destruct (fault n); [intros H; inversion H; auto|].
  destruct (negb (Db.int4 l)); [intros H; inversion H; auto|].
  destruct (Db.decimal_3_2 q) as [q'|], (Db.decimal_3_2 e) as [e'|];
    try (intros H; inversion H; auto; fail).
  destruct uid as [u|]; [|intros H; inversion H; auto].
  destruct (Db.owns auth u) eqn:O; simpl; [|intros H; inversion H; auto].
  destruct (Db.check_model m) eqn:Cm; simpl; [|intros H; inversion H; auto].
  destruct (Db.check_score q') eqn:Cq; simpl; [|intros H; inversion H; auto].
  destruct (Db.check_score e') eqn:Ce; simpl; [|intros H; inversion H; auto].
  intros H; inversion H; subst. right. eexists. split; [reflexivity|].
  split.
  - unfold performance_row_ok. simpl. split; [exact Cm|].
    split; eexists; (split; [reflexivity|]); now apply check_score_range.
  - simpl. unfold Db.owns in O. destruct auth as [x|]; [|discriminate].
    apply Nat.eqb_eq in O. now subst.
Qed.

Lemma handler_performance_table fl env transcript audioUrl latency st db o st' db' :
  handleTranscriptionReceived fl env transcript audioUrl latency st db
  = (o, st', db') ->
  Db.model_performance db' = Db.model_performance db
  \/ exists row, Db.model_performance db' = Db.model_performance db ++ [row]
                 /\ performance_row_ok row
                 /\ user st = Some (Perf.user_id row).
Proof.
  intros H.
  destruct (handler_paths _ _ _ _ _ _ _ H) as (c & st0 & db0 & Hc & Hp).
  destruct c as [cid|].
  - destruct (conversation_for_some _ _ _ Hc)
      as (_ & U0 & _ & _ & _ & _ & _ & P0 & _).
    destruct Hp as [(e & I1 & _) | [(u & db1 & e & I1 & I2 & _)
                                   | (u & a & perf & ->)]].
    + destruct (insert_message_err _ _ _ _ _ _ _ _ _ I1) as (_ & _ & P).
      left. congruence.
    + destruct (insert_message_ok _ _ _ _ _ _ _ _ _ I1) as (_ & _ & _ & _ & P1 & _).
      destruct (insert_message_err _ _ _ _ _ _ _ _ _ I2) as (_ & _ & P2).
      left. congruence.
    + apply recorded_inv in H.
      destruct H as (cid' & st1 & db1 & db2 & db3 & db4 & Hs & I1 & I2 & Ip & Hf).
      assert (Hst : user st1 = user st
                    /\ Db.model_performance db1 = Db.model_performance db).
      { destruct Hs as [(_ & -> & ->) | (_ & Hn)]; [auto|].
        destruct (createNewConversation_some _ _ _ Hn) as (-> & _ & P). auto. }
      destruct Hst as [Hu Hp0].
      destruct (insert_message_ok _ _ _ _ _ _ _ _ _ I1) as (_ & _ & _ & _ & P1 & _).
      destruct (insert_message_ok _ _ _ _ _ _ _ _ _ I2) as (_ & _ & _ & _ & P2 & _).
      destruct (fetchModelStats_frame _ _ _ _ Hf) as (_ & _ & _ & ->). simpl.
      destruct (insert_model_performance_row_ok _ _ _ _ _ _ _ _ _ Ip)
        as [P | (row & P & Hok & Hau)].
      * left. congruence.
      * right. exists row. split; [congruence|]. split; [exact Hok|]. congruence.
  - destruct Hp as (_ & _ & ->).
    destruct (conversation_for_none _ _ _ Hc) as (_ & (_ & _ & P) & _). auto.
Qed.

Lemma page_step_performance_table fl s s' :
  page_step fl s s' ->
  Db.model_performance (snd s') = Db.model_performance (snd s)
  \/ exists row, Db.model_performance (snd s')
                 = Db.model_performance (snd s) ++ [row]
                 /\ performance_row_ok row
                 /\ user (fst s) = Some (Perf.user_id row).
Proof.
  destruct 1 as [env t a l st db o st' db' H | n cid st db st' db' H | st db
                | n cid st db ok st' db' H | n st db st' db' H
                | m st db Hm | l st db Hl]; simpl; auto.
  - exact (handler_performance_table _ _ _ _ _ _ _ H).
  - left. revert H. unfold handleSelectConversation, fetchMessages,
      Db.select_messages. cbv zeta.
    destruct (fault n); intros H; inversion H; reflexivity.
  - left. revert H. unfold deleteConversation, Db.delete_conversation.
    cbv zeta. destruct (fault n); intros H; inversion H; reflexivity.
  - left. destruct (fetchModelStats_frame _ _ _ _ H) as (_ & _ & _ & ->).
    reflexivity.
Qed.

(** X10.  Whatever the page does and whatever values the score generator
    and the network supply, the [model_performance] table only ever holds
    rows with one of the three model names and with both scores present
    and within [0, 5]: a table that satisfies the CHECK constraints keeps
    satisfying them along every run. *)
Theorem performance_table_stays_within_its_checks :
  forall fl s s',
    page_run fl s s' ->
    performance_ok (snd s) -> performance_ok (snd s').
Proof.
  intros fl s s' R. induction R as [s | s1 s2 s3 R IH S]; intros H; [exact H|].
  specialize (IH H). unfold performance_ok in *.
  destruct (page_step_performance_table S) as [E | (row & E & Hok & _)];
    rewrite E; [exact IH|].
  apply Forall_app. split; [exact IH|]. constructor; [exact Hok | constructor].
Qed.

Lemma performance_table_stays_within_its_checks_witness :
  exists s',
    page_run Num.binary64 (demo_session, demo_store) s'
    /\ performance_ok demo_store
    /\ performance_ok (snd s')
    /\ List.length (Db.model_performance (snd s')) = 1
    /\ List.length (Db.messages (snd s')) = 4.
Proof.
  assert (E : { r | handleTranscriptionReceived Num.binary64 wild_env "again"
                      "https://mock-audio-storage.com/moshi/en/1700000001000.wav"
                      388 demo_session demo_store = r })
    by (eexists; vm_compute; reflexivity).
  destruct E as [[[o st'] db'] E].
  assert (R : page_run Num.binary64 (demo_session, demo_store) (st', db')).
  { eapply run_step; [apply run_done|]. eapply step_exchange. exact E. }
  assert (H0 : performance_ok demo_store).
  { unfold performance_ok, demo_store. simpl. constructor; [|constructor].
    unfold performance_row_ok. simpl. split; [reflexivity|].
    split; eexists; (split; [reflexivity|]); split; vm_compute; discriminate. }
  exists (st', db'). split; [exact R|]. split; [exact H0|].
  split; [exact (performance_table_stays_within_its_checks R H0)|].
  revert E. vm_compute. intros E. inversion E. split; reflexivity.
Defined.

Lemma references_ok_same db db' :
  Db.conversations db' = Db.conversations db ->
  Db.messages db' = Db.messages db ->
  references_ok db -> references_ok db'.
Proof.
  unfold references_ok. intros C M H m Hin. rewrite C. apply H. now rewrite <- M.
Qed.

Lemma insert_message_references n auth cid c t a u l db r db' :
  Db.insert_message n auth cid c t a u l db = (r, db') ->
  references_ok db -> references_ok db'.
Proof.
  intros H Hok. destruct r as [row|e].
  - destruct (insert_message_ok _ _ _ _ _ _ _ _ _ H) as (_ & Hc & _ & M & _ & C).
    destruct (insert_message_row _ _ _ _ _ _ _ _ _ H) as (_ & _ & _ & _ & O & _).
    intros m Hin. rewrite M in Hin. rewrite C.
    apply in_app_or in Hin. destruct Hin as [Hin | [<- | []]]; [now apply Hok|].
    unfold Db.owns_conversation in O. apply existsb_exists in O.
    destruct O as (x & Hx & E). apply andb_true_iff in E. destruct E as [E _].
    apply Nat.eqb_eq in E. exists x. split; [exact Hx | congruence].
  - destruct (insert_message_err _ _ _ _ _ _ _ _ _ H) as (C & M & _).
    exact (@references_ok_same _ _ C M Hok).
Qed.

Lemma insert_conversation_references n auth uid t m l db r db' :
  Db.insert_conversation n auth uid t m l db = (r, db') ->
  references_ok db -> references_ok db'.
Proof.
  unfold Db.insert_conversation. cbv zeta. intros H Hok.
  assert (T : references_ok (Db.tick n db))
    by (apply (references_ok_same (db := db)); auto).
  destruct (fault n); [inversion H; subst; exact T|].
  destruct uid; [|inversion H; subst; exact T].
  destruct (negb _); [inversion H; subst; exact T|].
  destruct (negb _); inversion H; subst; [exact T|].
  intros x Hin. simpl in *. destruct (Hok x Hin) as (c & Hc & E).
  exists c. split; [apply in_or_app; now left | exact E].
Qed.

Lemma delete_conversation_references n auth id db r db' :
  Db.delete_conversation n auth id db = (r, db') ->
  references_ok db -> references_ok db'.
Proof.
  unfold Db.delete_conversation. cbv zeta. intros H Hok.
  destruct (fault n); inversion H; subst; clear H.
  - apply (references_ok_same (db := db)); auto.
  - intros m Hin. simpl in *. apply filter_In in Hin. destruct Hin as [Hin Hk].
    destruct (Hok m Hin) as (c & Hc & E).
    exists c. split; [|exact E]. apply filter_In. split; [exact Hc|].
    apply negb_true_iff. apply negb_true_iff in Hk.
    destruct (Nat.eqb (Conv.id c) id && Db.owns auth (Conv.user_id c)) eqn:D;
      [|reflexivity].
    exfalso. apply andb_true_iff in D. destruct D as [D1 D2].
    apply andb_false_iff in Hk. destruct Hk as [Hk|Hk].
    + apply not_true_iff_false in Hk. apply Hk. apply existsb_exists.
      exists c. split; [exact Hc|]. now rewrite D1, D2.
    + apply Nat.eqb_eq in D1. apply Nat.eqb_neq in Hk. congruence.
Qed.

Lemma handler_references fl env transcript audioUrl latency st db o st' db' :
  handleTranscriptionReceived fl env transcript audioUrl latency st db
  = (o, st', db') ->
  references_ok db -> references_ok db'.
Proof.
  unfold handleTranscriptionReceived. intros H Hok.
  assert (Hstart : exists c st0 db0,
            match currentConversationId st with
            | Some c => (Some c, st, db)
            | None => createNewConversation (net_conversation env) st db
            end = (c, st0, db0) /\ references_ok db0).
  { destruct (currentConversationId st) as [c|].
    - exists (Some c), st, db. auto.
    - unfold createNewConversation.
      destruct (Db.insert_conversation _ _ _ _ _ _ db) as [[d|e] db0] eqn:N;
        eexists _, _, db0; (split; [reflexivity|]);
        (eapply insert_conversation_references; [exact N | exact Hok]). }
  destruct Hstart as (c & st0 & db0 & E0 & Hok0).
  rewrite E0 in H. destruct c as [cid|]; [|inversion H; subst; exact Hok0].
  destruct (Db.insert_message (net_user env) _ _ _ _ _ _ _ db0)
    as [[u|e] db1] eqn:E1;
    assert (Hok1 : references_ok db1)
      by (eapply insert_message_references; [exact E1 | exact Hok0]);
    [|inversion H; subst; exact Hok1].
  destruct (Db.insert_message (net_ai env) _ _ _ _ _ _ _ db1)
    as [[a|e] db2] eqn:E2;
    assert (Hok2 : references_ok db2)
      by (eapply insert_message_references; [exact E2 | exact Hok1]);
    [|inversion H; subst; exact Hok2].
  destruct (Db.insert_model_performance _ _ _ _ _ _ _ _ db2)
    as [perf db3] eqn:E3.
  destruct (insert_model_performance_clock _ _ _ _ _ _ _ _ _ E3) as (_ & M3 & C3).
  assert (Hok3 := @references_ok_same _ _ C3 M3 Hok2).
  destruct (fetchModelStats _ _ _ db3) as [st1 db4] eqn:E4.
  inversion H; subst.
  destruct (fetchModelStats_frame _ _ _ _ E4) as (_ & _ & _ & ->).
  apply (references_ok_same (db := db3)); auto.
Qed.

Lemma page_step_references fl s s' :
  page_step fl s s' -> references_ok (snd s) -> references_ok (snd s').
Proof.
  destruct 1 as [env t a l st db o st' db' H | n cid st db st' db' H | st db
                | n cid st db ok st' db' H | n st db st' db' H
                | m st db Hm | l st db Hl]; simpl; auto.
  - intros Hok. eapply handler_references; [exact H | exact Hok].
  - revert H. unfold handleSelectConversation, fetchMessages,
      Db.select_messages. cbv zeta.
    destruct (fault n); intros H Hok; inversion H; subst;
      apply (references_ok_same (db := db)); auto.
  - revert H. unfold deleteConversation.
    destruct (Db.delete_conversation n (user st) cid db) as [[[]|e] db1] eqn:D;
      intros H Hok; inversion H; subst;
      (eapply delete_conversation_references; [exact D | exact Hok]).
  - destruct (fetchModelStats_frame _ _ _ _ H) as (_ & _ & _ & ->).
    intros Hok. apply (references_ok_same (db := db)); auto.
Qed.

(** X11.  Along every run of the page, every row of [messages] belongs to
    a conversation that exists in [conversations]: a message is only
    inserted under a conversation the caller owns, and deleting a
    conversation takes its messages with it. *)
Theorem messages_always_belong_to_a_conversation :
  forall fl s s',
    page_run fl s s' ->
    references_ok (snd s) -> references_ok (snd s').
Proof.
  intros fl s s' R. induction R as [s | s1 s2 s3 R IH S]; intros H; [exact H|].
  eapply page_step_references; [exact S | exact (IH H)].
Qed.

Lemma messages_always_belong_to_a_conversation_witness :
  exists s',
    page_run Num.binary64 (demo_session, demo_store) s'
    /\ references_ok demo_store
    /\ references_ok (snd s')
    /\ Db.conversations (snd s') = []
    /\ Db.messages (snd s') = [].
Proof.
  assert (E : { r | deleteConversation (calm 9) 0 demo_session demo_store
                    = (true, fst r, snd r) })
    by (eexists (_, _); vm_compute; reflexivity).
  destruct E as [[st' db'] E]. simpl in E.
  assert (R : page_run Num.binary64 (demo_session, demo_store) (st', db')).
  { eapply run_step; [apply run_done|]. eapply step_delete. exact E. }
  assert (H0 : references_ok demo_store).
  { intros m Hin. unfold demo_store in *. simpl in *.
    eexists. split; [left; reflexivity|].
    destruct Hin as [<-|[<-|[]]]; reflexivity. }
  exists (st', db'). split; [exact R|]. split; [exact H0|].
  split; [exact (messages_always_belong_to_a_conversation R H0)|].
  revert E. vm_compute. intros E. inversion E. split; reflexivity.
Defined.

Lemma page_step_store_ok fl s s' :
  page_step fl s s' -> store_ok (snd s) -> store_ok (snd s').
Proof.
  destruct 1 as [env t a l st db o st' db' H | n cid st db st' db' H | st db
                | n cid st db ok st' db' H | n st db st' db' H
                | m st db Hm | l st db Hl]; simpl; auto; intros Hok.
  - eapply handleTranscriptionReceived_store_ok; [exact H | exact Hok].
  - revert H. unfold handleSelectConversation, fetchMessages,
      Db.select_messages. cbv zeta.
    destruct (fault n); intros H; inversion H; subst;
      exact (store_ok_follows (tick_follows _ _) Hok).
  - revert H. unfold deleteConversation.
    destruct (Db.delete_conversation n (user st) cid db) as [[[]|e] db1] eqn:D;
      intros H; inversion H; subst;
      exact (store_ok_follows (delete_conversation_follows _ _ _ _ D) Hok).
  - destruct (fetchModelStats_frame _ _ _ _ H) as (_ & _ & _ & ->).
    exact (store_ok_follows (tick_follows _ _) Hok).
Qed.

Lemma page_step_session_ok fl s s' :
  page_step fl s s' ->
  store_ok (snd s) -> session_ok (fst s) (snd s) ->
  session_ok (fst s') (snd s').
Proof.
  destruct 1 as [env t a l st db o st' db' H | n cid st db st' db' H | st db
                | n cid st db ok st' db' H | n st db st' db' H
                | m st db Hm | l st db Hl]; simpl; intros Hs Hok.
  - eapply handleTranscriptionReceived_session_ok; [exact H | exact Hok].
  - eapply handleSelectConversation_session_ok; [exact H | exact Hs | exact Hok].
  - apply handleNewConversation_session_ok.
  - eapply deleteConversation_session_ok; [exact H | exact Hok].
  - eapply fetchModelStats_session_ok; [exact H | exact Hok].
  - exact Hok.
  - exact Hok.
Qed.

(** As long as no two handlers overlap, the in-memory message list is
    empty whenever no conversation is active, and neither it nor the
    [messages] table holds a row stamped later than the store's clock. *)
Lemma session_invariant_without_overlap fl (u : option uuid) (db0 : Db.store) s' :
  page_run fl (initial u, db0) s' ->
  store_ok db0 ->
  session_ok (fst s') (snd s') /\ store_ok (snd s').
Proof.
  intros R Hs.
  remember (initial u, db0) as s0 eqn:E0.
  induction R as [s | s1 s2 s3 R IH S].
  - subst s. simpl. split; [apply session_ok_initial | exact Hs].
  - destruct (IH E0) as [A B]. split.
    + eapply page_step_session_ok; [exact S | exact B | exact A].
    + eapply page_step_store_ok; [exact S | exact B].
Qed.

Lemma fetchModelStats_selection fl n st db st' db' :
  fetchModelStats fl n st db = (st', db') ->
  user st' = user st /\ selectedModel st' = selectedModel st
  /\ selectedLanguage st' = selectedLanguage st.
Proof.
  unfold fetchModelStats.
  destruct (Db.select_model_performance n (user st) (user st) db) as [[d|e] db1];
    intros H; inversion H; subst; simpl; auto.
Qed.

Lemma handler_selection fl env transcript audioUrl latency st db o st' db' :
  handleTranscriptionReceived fl env transcript audioUrl latency st db
  = (o, st', db') ->
  user st' = user st /\ selectedModel st' = selectedModel st
  /\ selectedLanguage st' = selectedLanguage st.
Proof.
  intros H.
  destruct (handler_paths _ _ _ _ _ _ _ H) as (c & st0 & db0 & Hc & Hp).
  assert (H0 : user st0 = user st /\ selectedModel st0 = selectedModel st
               /\ selectedLanguage st0 = selectedLanguage st).
  { revert Hc. unfold conversation_for, createNewConversation.
    destruct (currentConversationId st); [intros X; inversion X; auto|].
    destruct (Db.insert_conversation _ _ _ _ _ _ db) as [[d|e] db1];
      intros X; inversion X; subst; simpl; auto. }
  destruct c as [cid|].
  - destruct Hp as [(e & _ & _ & ->) | [(u & db1 & e & _ & _ & _ & ->)
                                       | (u & a & perf & ->)]];
      [exact H0 | exact H0 |].
    apply recorded_inv in H.
    destruct H as (cid' & st1 & db1 & db2 & db3 & db4 & Hs & _ & _ & _ & Hf).
    destruct (fetchModelStats_selection _ _ _ _ Hf) as (A & B & C).
    simpl in A, B, C. rewrite A, B, C.
    destruct Hs as [(_ & -> & _) | (_ & Hn)]; [auto|].
    destruct (createNewConversation_some _ _ _ Hn) as (-> & _). simpl. auto.
  - destruct Hp as (_ & -> & _). exact H0.
Qed.

Lemma page_step_selection fl s s' :
  page_step fl s s' ->
  In (selectedModel (fst s)) Db.model_names ->
  In (selectedModel (fst s')) Db.model_names.
Proof.
  destruct 1 as [env t a l st db o st' db' H | n cid st db st' db' H | st db
                | n cid st db ok st' db' H | n st db st' db' H
                | m st db Hm | l st db Hl]; simpl; auto.
  - destruct (handler_selection _ _ _ _ _ _ _ H) as (_ & -> & _). auto.
  - revert H. unfold handleSelectConversation, fetchMessages.
    destruct (Db.select_messages _ _ _ db) as [[d|e] db1];
      intros H; inversion H; subst; simpl; auto.
  - revert H. unfold deleteConversation.
    destruct (Db.delete_conversation n (user st) cid db) as [[[]|e] db1];
      intros H; inversion H; subst; simpl; auto.
    destruct (currentConversationId st) as [c|]; simpl; auto.
    destruct (Nat.eqb c cid); simpl; auto.
  - destruct (fetchModelStats_selection _ _ _ _ H) as (_ & -> & _). auto.
Qed.

Lemma page_run_selection fl (u : option uuid) db0 s :
  page_run fl (initial u, db0) s ->
  In (selectedModel (fst s)) Db.model_names.
Proof.
  intros R. remember (initial u, db0) as s0 eqn:E0.
  induction R as [s | s1 s2 s3 R IH S].
  - subst s. simpl. auto.
  - eapply page_step_selection; [exact S | exact (IH E0)].
Qed.

(** X13.  Along every run from the initial session the selected model is
    one of the three on offer, so the store never refuses a new
    conversation for its model: creating a conversation can only fail
    when the request does not get through or nobody is signed in. *)
Theorem conversation_creation_fails_only_offline_or_signed_out :
  forall fl (u : option uuid) (db0 : Db.store) st db n st' db',
    page_run fl (initial u, db0) (st, db) ->
    createNewConversation n st db = (None, st', db') ->
    In (selectedModel st) Db.model_names
    /\ (fault n <> None \/ user st = None).
Proof.
  intros fl u db0 st db n st' db' R H.
  assert (Hsel := page_run_selection R). simpl in Hsel.
  split; [exact Hsel|].
  revert H. unfold createNewConversation, Db.insert_conversation. cbv zeta.
  destruct (fault n) as [e|]; [intros _; left; discriminate|].
  destruct (user st) as [uid|]; [|auto].
  unfold Db.owns. rewrite Nat.eqb_refl. simpl.
  replace (Db.check_model (selectedModel st)) with true; [discriminate|].
  symmetry. unfold Db.check_model. apply existsb_exists.
  exists (selectedModel st). split; [exact Hsel | apply String.eqb_refl].
Qed.

Lemma conversation_creation_fails_only_offline_or_signed_out_witness :
  exists st' db',
    page_run Num.binary64 (initial (Some 7), Db.empty)
      (setSelectedModel "ultravox" (initial (Some 7)), Db.empty)
    /\ createNewConversation (broken 5 "TypeError: Failed to fetch")
         (setSelectedModel "ultravox" (initial (Some 7))) Db.empty
       = (None, st', db')
    /\ fault (broken 5 "TypeError: Failed to fetch") <> None.
Proof.
  assert (R : page_run Num.binary64 (initial (Some 7), Db.empty)
                (setSelectedModel "ultravox" (initial (Some 7)), Db.empty)).
  { eapply run_step; [apply run_done|]. apply step_model. simpl. auto. }
  assert (E : { r | createNewConversation (broken 5 "TypeError: Failed to fetch")
                      (setSelectedModel "ultravox" (initial (Some 7))) Db.empty
                    = (None, fst r, snd r) })
    by (eexists (_, _); vm_compute; reflexivity).
  destruct E as [[st' db'] E]. simpl in E.
  destruct (@conversation_creation_fails_only_offline_or_signed_out
              _ _ _ _ _ _ _ _ R E) as (_ & [F|F]).
  - exists st', db'. split; [exact R|]. split; [exact E | exact F].
  - discriminate F.
Defined.

(** ** Loading a conversation *)

Lemma insert_by_created_at_perm m l :
  Permutation (Db.insert_by_created_at m l) (m :: l).
Proof.
  induction l as [|x l IH]; simpl; [apply Permutation_refl|].
  destruct (Msg.created_at m <? Msg.created_at x).
  - apply Permutation_refl.
  - eapply Permutation_trans; [apply perm_skip; exact IH | apply perm_swap].
Qed.

Lemma insert_by_created_at_sorted m l :
  Sorted not_later l -> Sorted not_later (Db.insert_by_created_at m l).
Proof.
  induction l as [|x l IH]; simpl; intros H.
  - repeat constructor.
  - destruct (Msg.created_at m <? Msg.created_at x) eqn:E.
    + apply Nat.ltb_lt in E. constructor; [exact H|].
      constructor. unfold not_later. lia.
    + apply Nat.ltb_ge in E. inversion H as [|? ? Hs Hh]; subst.
      constructor; [now apply IH|].
      destruct l as [|y l]; simpl.
      * constructor. exact E.
      * destruct (Msg.created_at m <? Msg.created_at y).
        -- constructor. exact E.
        -- inversion Hh; subst. constructor. assumption.
Qed.

Lemma order_by_created_at_spec l :
  Sorted not_later (Db.order_by_created_at l)
  /\ Permutation (Db.order_by_created_at l) l.
Proof.
  unfold Db.order_by_created_at.
  assert (G : forall acc,
            Sorted not_later acc ->
            Sorted not_later
              (fold_left (fun acc m => Db.insert_by_created_at m acc) l acc)
            /\ Permutation
                 (fold_left (fun acc m => Db.insert_by_created_at m acc) l acc)
                 (acc ++ l)).
  { induction l as [|x l IH]; simpl; intros acc Hs.
    - rewrite app_nil_r. split; [exact Hs | apply Permutation_refl].
    - destruct (IH _ (insert_by_created_at_sorted x Hs)) as [A B].
      split; [exact A|]. eapply Permutation_trans; [exact B|].
      eapply Permutation_trans;
        [apply Permutation_app_tail, insert_by_created_at_perm|].
      simpl. apply Permutation_middle. }
  destruct (G [] (Sorted_nil _)) as [A B]. split; assumption.
Qed.

(** X14.  When the fetch goes through, selecting a conversation makes it
    the active one and replaces the in-memory list by exactly the rows of
    that conversation the caller may see (none, if the conversation is
    not the caller's), in ascending order of creation time. *)
Theorem selecting_loads_the_conversation_in_time_order :
  forall n conversationId st db st' db',
    fault n = None ->
    handleSelectConversation n conversationId st db = (st', db') ->
    currentConversationId st' = Some conversationId
    /\ Sorted not_later (messages st')
    /\ Permutation (messages st')
                   (visible_messages (user st) conversationId db)
    /\ (Db.owns_conversation (user st) conversationId db = false ->
        messages st' = [])
    /\ notices st' = notices st.
Proof.
  intros n cid st db st' db' Hf.
  unfold handleSelectConversation, fetchMessages, Db.select_messages.
  cbv zeta. rewrite Hf. intros H; inversion H; subst; clear H. simpl.
  change (Db.owns_conversation (user st) cid (Db.tick n db))
    with (Db.owns_conversation (user st) cid db).
  change (Db.messages (Db.tick n db)) with (Db.messages db).
  fold (visible_messages (user st) cid db).
  destruct (order_by_created_at_spec (visible_messages (user st) cid db))
    as [A B].
  repeat split; auto.
  intros O.
  assert (V : visible_messages (user st) cid db = []).
  { unfold visible_messages. rewrite O.
    induction (Db.messages db) as [|x l IH]; simpl; [reflexivity|].
    rewrite andb_false_r. exact IH. }
  rewrite V. reflexivity.
Qed.

Lemma selecting_loads_the_conversation_in_time_order_witness :
  exists st' db',
    fault (calm 8) = None
    /\ handleSelectConversation (calm 8) 0 (handleNewConversation demo_session)
         demo_store = (st', db')
    /\ currentConversationId st' = Some 0
    /\ messages st' = Db.messages demo_store
    /\ Sorted not_later (messages st').
Proof.
  assert (E : { r | handleSelectConversation (calm 8) 0
                      (handleNewConversation demo_session) demo_store
                    = (fst r, snd r) })
    by (eexists (_, _); vm_compute; reflexivity).
  destruct E as [[st' db'] E]. simpl in E.
  destruct (@selecting_loads_the_conversation_in_time_order
              (calm 8) 0 _ _ _ _ eq_refl E) as (A & B & _).
  exists st', db'. repeat split; auto.
  revert E. vm_compute. intros E. inversion E. reflexivity.
Defined.

(** X15.  When the fetch fails, selecting a conversation still makes it
    the active one but leaves the in-memory list as it was, with one
    console error; an exchange recorded next is filed under the newly
    selected conversation and appended to that old list, so the list on
    screen can hold rows of two conversations. *)
Theorem failed_fetch_keeps_the_previous_list :
  forall fl n e conversationId st db st1 db1
         env transcript audioUrl latency u a perf st2 db2,
    fault n = Some e ->
    handleSelectConversation n conversationId st db = (st1, db1) ->
    handleTranscriptionReceived fl env transcript audioUrl latency st1 db1
    = (Recorded u a perf, st2, db2) ->
    currentConversationId st1 = Some conversationId
    /\ messages st1 = messages st
    /\ notices st1 = notices st ++ [ConsoleError "Error fetching messages:" e]
    /\ messages st2 = messages st ++ [u; a]
    /\ Msg.conversation_id u = conversationId
    /\ Msg.conversation_id a = conversationId.
Proof.
  intros fl n e cid st db st1 db1 env t au l u a perf st2 db2 Hf Hs Hr.
  revert Hs. unfold handleSelectConversation, fetchMessages, Db.select_messages.
  cbv zeta. rewrite Hf. intros Hs; inversion Hs; subst st1 db1; clear Hs.
  destruct (recorded_messages _ _ _ _ _ _ _ Hr) as (Hm & _).
  simpl in Hm.
  apply recorded_inv in Hr.
  destruct Hr as (c & st0 & db0 & db3 & db4 & db5 & Hc & I1 & I2 & _).
  destruct Hc as [(Hc & _) | (Hc & _)]; [|discriminate].
  simpl in Hc. inversion Hc; subst c.
  destruct (insert_message_ok _ _ _ _ _ _ _ _ _ I1) as (_ & U1 & _).
  destruct (insert_message_ok _ _ _ _ _ _ _ _ _ I2) as (_ & U2 & _).
  simpl. repeat split; auto.
Qed.

Lemma failed_fetch_keeps_the_previous_list_witness :
  exists u a perf st2 db2,
    fault (broken 8 "TypeError: Failed to fetch")
    = Some "TypeError: Failed to fetch"
    /\ handleSelectConversation (broken 8 "TypeError: Failed to fetch") 0
         demo_session2 demo_store2 = (fst demo_stale, snd demo_stale)
    /\ handleTranscriptionReceived Num.binary64 demo_env "again"
         "https://mock-audio-storage.com/moshi/en/1700000003000.wav" 388
         (fst demo_stale) (snd demo_stale) = (Recorded u a perf, st2, db2)
    /\ currentConversationId demo_session2 = Some 4
    /\ map Msg.conversation_id (messages st2) = [4; 4; 0; 0].
Proof.
  assert (E1 : handleSelectConversation (broken 8 "TypeError: Failed to fetch")
                 0 demo_session2 demo_store2 = (fst demo_stale, snd demo_stale))
    by (vm_compute; reflexivity).
  assert (E2 : { r | handleTranscriptionReceived Num.binary64 demo_env "again"
                       "https://mock-audio-storage.com/moshi/en/1700000003000.wav"
                       388 (fst demo_stale) (snd demo_stale) = r })
    by (eexists; vm_compute; reflexivity).
  destruct E2 as [[[o st2] db2] E2].
  assert (Ho : { x | o = Recorded (fst (fst x)) (snd (fst x)) (snd x) }).
  { revert E2. vm_compute. intros E2. inversion E2.
    eexists (_, _, _). reflexivity. }
  destruct Ho as [[[u a] perf] Ho]. simpl in Ho. subst o.
  destruct (@failed_fetch_keeps_the_previous_list
              Num.binary64 (broken 8 "TypeError: Failed to fetch")
              "TypeError: Failed to fetch" 0 demo_session2 demo_store2
              _ _ _ _ _ _ _ _ _ _ _ eq_refl E1 E2)
    as (_ & _ & _ & Hm & Hu & Ha).
  exists u, a, perf, st2, db2.
  split; [reflexivity|]. split; [exact E1|]. split; [exact E2|].
  split; [reflexivity|].
  rewrite Hm, map_app. simpl. now rewrite Hu, Ha.
Defined.

(** ** Rounding never crosses a small integer *)

Section RoundingIntegers.
Local Open Scope Q_scope.

Lemma scale2_zero e : Num.scale2 0 e == 0.
Proof.
  unfold Num.scale2. destruct (0 <=? e)%Z.
  - ring.
  - unfold Qdiv. ring.
Qed.

Lemma binary64_nonneg x : 0 <= x -> 0 <= Num.binary64 x.
Proof.
  intros H. destruct (Qcompare_spec x 0) as [E|E|E].
  - unfold Num.binary64. apply Qeq_alt in E. unfold Qcompare in *.
    rewrite E. apply Qle_refl.
  - lra.
  - rewrite binary64_positive by exact E.
    unfold Num.binary64_pos. cbv zeta.
    rewrite <- (scale2_zero (Num.exponent x)). apply scale2_le.
    change 0 with (inject_Z 0). rewrite <- Zle_Qle. apply round_ne_ge.
    change (inject_Z 0) with 0.
    rewrite <- (scale2_zero (- Num.exponent x)). apply scale2_le. lra.
Qed.

Lemma inject_Z_pow2_mult (a b : Z) :
  (0 <= a)%Z -> (0 <= b)%Z ->
  inject_Z (2 ^ (a + b)) == inject_Z (2 ^ a) * inject_Z (2 ^ b).
Proof.
  intros Ha Hb. rewrite Z.pow_add_r by assumption.
  now rewrite inject_Z_mult.
Qed.

(** A double is never smaller than an integer of at most 53 bits that the
    rounded value was not smaller than. *)
Lemma binary64_ge_int (n : Z) x :
  (1 <= n <= 2 ^ 53)%Z -> inject_Z n <= x -> inject_Z n <= Num.binary64 x.
Proof.
  intros Hn Hx.
  assert (H1 : 1 <= x).
  { eapply Qle_trans; [|exact Hx]. change 1 with (inject_Z 1).
    rewrite <- Zle_Qle. lia. }
  rewrite binary64_positive by lra.
  assert (Hf : (n <= Qfloor x)%Z).
  { rewrite <- (Qfloor_Z n). now apply Qfloor_resp_le. }
  set (f := Qfloor x) in *.
  assert (Hk := Z.log2_spec f ltac:(lia)).
  assert (Hk0 := Z.log2_nonneg f).
  set (k := Z.log2 f) in *.
  assert (E : Num.exponent x = (k - 52)%Z).
  { unfold Num.exponent, Num.ilog2. apply Qle_bool_iff in H1. rewrite H1.
    fold f. fold k. lia. }
  unfold Num.binary64_pos. cbv zeta. rewrite E.
  assert (Hfx : inject_Z f <= x) by apply Qfloor_le.
  destruct (Z.le_gt_cases k 52) as [Hk52|Hk52].
  - (* the grid is at least as fine as the integers *)
    assert (P := @pow2_pos (52 - k) ltac:(lia)).
    assert (S1 : Num.scale2 x (- (k - 52)) = x * inject_Z (2 ^ (52 - k))).
    { unfold Num.scale2. replace (- (k - 52))%Z with (52 - k)%Z by lia.
      destruct (0 <=? 52 - k)%Z eqn:B; [reflexivity|].
      apply Z.leb_gt in B. lia. }
    assert (R : (n * 2 ^ (52 - k) <= Num.round_ne (Num.scale2 x (- (k - 52))))%Z).
    { apply round_ne_ge. rewrite S1, inject_Z_mult.
      apply Qmult_le_compat_r; [exact Hx | lra]. }
    set (N := Num.round_ne (Num.scale2 x (- (k - 52)))) in *.
    rewrite Zle_Qle, inject_Z_mult in R.
    unfold Num.scale2. destruct (0 <=? k - 52)%Z eqn:B.
    + apply Z.leb_le in B.
      assert (E1 : (k - 52 = 0)%Z) by lia.
      assert (E2 : (52 - k = 0)%Z) by lia.
      rewrite E1. rewrite E2 in R.
      change (inject_Z (2 ^ 0)) with 1 in *. lra.
    + replace (- (k - 52))%Z with (52 - k)%Z by lia.
      apply Qle_shift_div_l; [exact P | exact R].
  - (* the grid is coarser: the value is at least 2^53 *)
    assert (P := @pow2_pos (k - 52) ltac:(lia)).
    assert (S1 : Num.scale2 x (- (k - 52)) = x / inject_Z (2 ^ (k - 52))).
    { unfold Num.scale2. destruct (0 <=? - (k - 52))%Z eqn:B.
      - apply Z.leb_le in B. lia.
      - now replace (- - (k - 52))%Z with (k - 52)%Z by lia. }
    assert (Hpow : inject_Z (2 ^ k)
                   == inject_Z (2 ^ 52) * inject_Z (2 ^ (k - 52))).
    { rewrite <- inject_Z_pow2_mult by lia.
      now replace (52 + (k - 52))%Z with k by lia. }
    assert (Hxk : inject_Z (2 ^ k) <= x).
    { eapply Qle_trans; [|exact Hfx]. rewrite <- Zle_Qle. lia. }
    assert (R : (2 ^ 52 <= Num.round_ne (Num.scale2 x (- (k - 52))))%Z).
    { apply round_ne_ge. rewrite S1.
      apply Qle_shift_div_l; [exact P|]. rewrite <- Hpow. exact Hxk. }
    set (N := Num.round_ne (Num.scale2 x (- (k - 52)))) in *.
    rewrite Zle_Qle in R.
    unfold Num.scale2. destruct (0 <=? k - 52)%Z eqn:B;
      [|apply Z.leb_gt in B; lia].
    assert (Hn2 : inject_Z n <= inject_Z (2 ^ k)).
    { rewrite <- Zle_Qle. transitivity (2 ^ 53)%Z; [lia|].
      apply Z.pow_le_mono_r; lia. }
    eapply Qle_trans; [exact Hn2|]. rewrite Hpow.
    apply Qmult_le_compat_r; [exact R | lra].
Qed.
End RoundingIntegers.

(** ** A request that reaches a backend *)

Lemma complete_inv max_arguments form :
  complete max_arguments form = true ->
  exists bytes,
    Edge.formData_get "audio" form = Some (Edge.File bytes)
    /\ (max_arguments <? List.length bytes) = false
    /\ Edge.present (Edge.formData_get "model" form) = true
    /\ Edge.present (Edge.formData_get "language" form) = true.
Proof.
  unfold complete. intros C.
  apply andb_true_iff in C. destruct C as [C C3].
  apply andb_true_iff in C. destruct C as [C1 C2].
  destruct (Edge.formData_get "audio" form) as [[s|bytes]|]; try discriminate.
  exists bytes. repeat split; auto.
  apply Nat.ltb_ge. now apply Nat.leb_le.
Qed.

(** What each backend does to the world, and what it returns. *)
Lemma backend_run fl audioBase64 language w b :
  exists d banner,
    (match b with
     | Edge.Moshi => Edge.processMoshiModel fl
     | Edge.Ultravox => Edge.processUltravoxModel fl
     | Edge.SpiritLM => Edge.processSpiritLMModel fl
     end) audioBase64 language w
    = (Ok (Edge.or_else (Edge.get_prop (table_of b) language)
                        (Edge.get_prop (table_of b) "en"),
           ("https://mock-audio-storage.com/" ++ name_of b ++ "/" ++ language
            ++ "/" ++ Edge.show_Z (Edge.now w + Z.max 0 (Qfloor d)) ++ ".wav")%string),
       {| Edge.now := (Edge.now w + Z.max 0 (Qfloor d))%Z;
          Edge.randoms := tl (Edge.randoms w);
          Edge.trace := Edge.trace w ++ [Edge.Invoked b; Edge.Log banner] |})
    /\ exists r k,
         d = Num.add fl (inject_Z (least_delay b)) (Num.mul fl r k)
         /\ (0 <= k)%Q
         /\ (r = 0%Q \/ In r (Edge.randoms w)).
Proof.
  destruct b;
    unfold Edge.processMoshiModel, Edge.processUltravoxModel,
      Edge.processSpiritLMModel, Edge.generateMockAudioUrl,
      Edge.bind, Edge.console_log, Edge.emit, Edge.Math_random,
      Edge.sleep, Edge.Date_now, Edge.ret;
    destruct (Edge.randoms w) as [|r rest];
    cbn [Edge.now Edge.randoms Edge.trace tl table_of name_of least_delay];
    rewrite <- ?app_assoc; cbn [app];
    do 2 eexists; (split; [reflexivity|]);
    do 2 eexists; (split; [reflexivity|]);
    (split; [discriminate|]); simpl; auto.
Qed.

Lemma dispatch fl audioBase64 language b :
  (if Edge.strict_eq (Edge.Text (name_of b)) "moshi"
   then Edge.processMoshiModel fl audioBase64 language
   else if Edge.strict_eq (Edge.Text (name_of b)) "ultravox"
   then Edge.processUltravoxModel fl audioBase64 language
   else if Edge.strict_eq (Edge.Text (name_of b)) "spirit_lm"
   then Edge.processSpiritLMModel fl audioBase64 language
   else Edge.throw ("Unsupported model: "
                    ++ Edge.entry_string (Edge.Text (name_of b)))%string)
  = (match b with
     | Edge.Moshi => Edge.processMoshiModel fl
     | Edge.Ultravox => Edge.processUltravoxModel fl
     | Edge.SpiritLM => Edge.processSpiritLMModel fl
     end) audioBase64 language.
Proof. destruct b; reflexivity. Qed.

Lemma process_supported fl max_arguments req form w b la :
  Edge.formData req = Ok form ->
  complete max_arguments form = true ->
  Edge.formData_get "model" form = Some (Edge.Text (name_of b)) ->
  Edge.formData_get "language" form = Some la ->
  exists d w',
    Edge.process fl max_arguments req w
    = (Ok {| Edge.status := 200; Edge.content_type_json := true;
             Edge.payload :=
               Edge.Success
                 (Edge.or_else
                    (Edge.get_prop (table_of b) (Edge.entry_string la))
                    (Edge.get_prop (table_of b) "en"))
                 ("https://mock-audio-storage.com/" ++ name_of b ++ "/"
                  ++ Edge.entry_string la ++ "/" ++ Edge.show_Z (Edge.now w')
                  ++ ".wav")%string
                 (Edge.now w' - Edge.now w) (Edge.Text (name_of b)) la |},
       w')
    /\ Edge.now w' = (Edge.now w + Z.max 0 (Qfloor d))%Z
    /\ Edge.randoms w' = tl (Edge.randoms w)
    /\ invocations w' = invocations w ++ [b]
    /\ exists r k,
         d = Num.add fl (inject_Z (least_delay b)) (Num.mul fl r k)
         /\ (0 <= k)%Q
         /\ (r = 0%Q \/ In r (Edge.randoms w)).
Proof.
  intros Hform C Hm Hla.
  destruct (@complete_inv _ _ C) as (bytes & Ha & Hl & Hpm & Hpl).
  rewrite Hm in Hpm. rewrite Hla in Hpl.
  unfold Edge.process. rewrite Hform, Ha, Hm, Hla.
  replace (Edge.present (Some (Edge.File bytes))) with true by reflexivity.
  rewrite Hpm, Hpl. cbn [andb negb].
  unfold Edge.encode_audio. rewrite Hl.
  unfold Edge.bind, Edge.console_log, Edge.emit, Edge.ret, Edge.Date_now.
  cbn [Edge.now Edge.randoms Edge.trace]. rewrite dispatch.
  match goal with
  | |- context [ (match b with Edge.Moshi => _ | _ => _ end) ?a ?l ?w0 ] =>
      destruct (backend_run fl a l w0 b) as (d & banner & E & R)
  end.
  cbn [Edge.now Edge.randoms Edge.trace] in E, R.
  rewrite E. cbn [Edge.now Edge.randoms Edge.trace fst snd].
  exists d.
  match goal with
  | |- exists w', (_, ?w1) = _ /\ _ => exists w1
  end.
  split; [reflexivity|].
  cbn [Edge.now Edge.randoms Edge.trace].
  split; [reflexivity|]. split; [reflexivity|]. split; [|exact R].
  unfold invocations. cbn [Edge.trace].
  rewrite !invocations_of_app. simpl. now rewrite !app_nil_r.
Qed.

Ltac edge_fail :=
  left; do 2 eexists; split; [reflexivity|];
  split; [same_invocations|]; split; reflexivity.

(** The two ways the [try] block ends: an error thrown before any backend
    is entered, the clock and the random stream untouched; or a complete
    request for one of the three names. *)
Lemma process_cases fl max_arguments req w :
  (exists e w',
     Edge.process fl max_arguments req w = (Err e, w')
     /\ invocations w' = invocations w
     /\ Edge.now w' = Edge.now w
     /\ Edge.randoms w' = Edge.randoms w)
  \/ (exists form b la,
        Edge.formData req = Ok form
        /\ complete max_arguments form = true
        /\ Edge.formData_get "model" form = Some (Edge.Text (name_of b))
        /\ Edge.formData_get "language" form = Some la).
Proof.
  unfold complete. run_edge.
  destruct (Edge.formData req) as [form|e] eqn:Hform; [|edge_fail].
  destruct (Edge.formData_get "audio" form) as [au|] eqn:Ha; [|edge_fail].
  destruct (Edge.formData_get "model" form) as [mo|] eqn:Hm; [|edge_fail].
  destruct (Edge.formData_get "language" form) as [la|] eqn:Hla; [|edge_fail].
  destruct (Edge.present (Some au) && Edge.present (Some mo)
            && Edge.present (Some la)) eqn:P; simpl; [|edge_fail].
  destruct au as [s|bytes]; simpl; [edge_fail|].
  destruct (max_arguments <? List.length bytes) eqn:L; simpl; [edge_fail|].
  assert (C : (List.length bytes <=? max_arguments) = true).
  { apply Nat.leb_le. apply Nat.ltb_ge in L. exact L. }
  assert (Pl : Edge.present (Some la) = true).
  { apply andb_true_iff in P. tauto. }
  assert (Pm : Edge.present (Some mo) = true).
  { apply andb_true_iff in P. destruct P as [P _].
    apply andb_true_iff in P. tauto. }
  destruct mo as [m|mb]; simpl; [|edge_fail].
  destruct (String.eqb m "moshi") eqn:E1.
  { apply String.eqb_eq in E1. subst m. right.
    exists form, Edge.Moshi, la. rewrite Ha, Hm, Hla, C, Pl. now simpl. }
  destruct (String.eqb m "ultravox") eqn:E2.
  { apply String.eqb_eq in E2. subst m. right.
    exists form, Edge.Ultravox, la. rewrite Ha, Hm, Hla, C, Pl. now simpl. }
  destruct (String.eqb m "spirit_lm") eqn:E3.
  { apply String.eqb_eq in E3. subst m. right.
    exists form, Edge.SpiritLM, la. rewrite Ha, Hm, Hla, C, Pl. now simpl. }
  edge_fail.
Qed.



(** X17.  With doubles, and [Math.random()] returning values of the unit
    interval, the latency a backend's answer reports is never below the
    fixed part of its simulated delay: 300 ms for Moshi, 500 ms for
    Ultravox, 400 ms for Spirit LM. *)
Theorem reported_latency_is_at_least_the_fixed_delay :
  forall max_arguments req form w b la,
    String.eqb (Edge.method req) "OPTIONS" = false ->
    Edge.formData req = Ok form ->
    complete max_arguments form = true ->
    Edge.formData_get "model" form = Some (Edge.Text (name_of b)) ->
    Edge.formData_get "language" form = Some la ->
    Forall unit_interval (Edge.randoms w) ->
    let (resp, w') := Edge.serve Num.binary64 max_arguments req w in
    exists transcript audioUrl latency,
      Edge.payload resp
      = Edge.Success transcript audioUrl latency (Edge.Text (name_of b)) la
      /\ (least_delay b <= latency)%Z.
Proof.
  intros max_arguments req form w b la Hmeth Hform C Hm Hla Hrand.
  unfold Edge.serve. rewrite Hmeth.
  destruct (@process_supported Num.binary64 _ req _ w b la Hform C Hm Hla)
    as (d & w' & -> & Hnow & _ & _ & r & k & Hd & Hk & Hr).
  cbn [Edge.payload]. do 3 eexists. split; [reflexivity|].
  assert (R0 : (0 <= r)%Q).
  { destruct Hr as [-> | Hin]; [apply Qle_refl|].
    rewrite Forall_forall in Hrand. exact (proj1 (Hrand r Hin)). }
  assert (P : (0 <= Num.binary64 (r * k))%Q).
  { apply binary64_nonneg. now apply Qmult_le_0_compat. }
  assert (D : (inject_Z (least_delay b) <= d)%Q).
  { rewrite Hd. unfold Num.add, Num.mul. apply binary64_ge_int.
    - destruct b; simpl; lia.
    - lra. }
  apply Qfloor_resp_le in D. rewrite Qfloor_Z in D. lia.
Qed.

Lemma reported_latency_is_at_least_the_fixed_delay_witness :
  String.eqb (Edge.method (demo_request "ultravox" "fr")) "OPTIONS" = false
  /\ complete 1000 (demo_form "ultravox" "fr") = true
  /\ Forall unit_interval (Edge.randoms demo_world)
  /\ let (resp, w') :=
       Edge.serve Num.binary64 1000 (demo_request "ultravox" "fr") demo_world in
     exists transcript audioUrl latency,
       Edge.payload resp
       = Edge.Success transcript audioUrl latency
                      (Edge.Text (name_of Edge.Ultravox)) (Edge.Text "fr")
       /\ (least_delay Edge.Ultravox <= latency)%Z.
Proof.
  assert (U : Forall unit_interval (Edge.randoms demo_world)).
  { repeat constructor; unfold unit_interval; simpl; lra. }
  split; [reflexivity|]. split; [reflexivity|]. split; [exact U|].
  exact (@reported_latency_is_at_least_the_fixed_delay 1000
           (demo_request "ultravox" "fr") _ demo_world Edge.Ultravox
           (Edge.Text "fr") eq_refl eq_refl eq_refl eq_refl eq_refl U).
Defined.

Lemma assoc_forallb (p : Edge.jsval -> bool) k l v :
  forallb (fun kv => p (snd kv)) l = true ->
  Edge.assoc k l = Some v -> p v = true.
Proof.
  induction l as [|[k' v'] l IH]; simpl; [discriminate|].
  intros F. apply andb_true_iff in F. destruct F as [F1 F2].
  destruct (String.eqb k k'); [intros H; inversion H; subst; exact F1|].
  now apply IH.
Qed.

Lemma assoc_none_not_in k l :
  Edge.assoc k l = None -> ~ In k (map fst l).
Proof.
  induction l as [|[k' v'] l IH]; simpl; [tauto|].
  destruct (String.eqb k k') eqn:E; [discriminate|].
  apply String.eqb_neq in E. intros H [X|X]; [congruence | now apply IH].
Qed.

(** What a backend answers with: the entry of its table for the language,
    a non-empty string; or the English entry, when the language is not a
    property at all; or, when the language is the name of a property
    that every object inherits, that property, a function. *)
Lemma transcript_shape b language :
  let transcript :=
    Edge.or_else (Edge.get_prop (table_of b) language)
                 (Edge.get_prop (table_of b) "en") in
  (exists s, transcript = Edge.JString s /\ s <> EmptyString)
  \/ (exists f, transcript = Edge.JFunction f
                /\ Edge.assoc language Edge.object_prototype
                   = Some (Edge.JFunction f)
                /\ ~ In language supported_languages).
Proof.
  cbv zeta.
  pose (is_text := fun v : Edge.jsval =>
                     match v with
                     | Edge.JString (String _ _) => true
                     | _ => false
                     end).
  pose (is_function := fun v : Edge.jsval =>
                         match v with
                         | Edge.JFunction _ => true
                         | _ => false
                         end).
  assert (T : forallb (fun kv => is_text (snd kv)) (table_of b) = true)
    by (destruct b; reflexivity).
  assert (K : map fst (table_of b) = supported_languages)
    by (destruct b; reflexivity).
  assert (P : forallb (fun kv => is_function (snd kv)) Edge.object_prototype
              = true) by reflexivity.
  assert (En : exists s, Edge.get_prop (table_of b) "en" = Edge.JString s
                         /\ s <> EmptyString).
  { destruct b; eexists; (split; [reflexivity | discriminate]). }
  assert (G : (exists s, Edge.get_prop (table_of b) language = Edge.JString s
                         /\ s <> EmptyString)
              \/ Edge.get_prop (table_of b) language = Edge.JUndefined
              \/ (exists f, Edge.get_prop (table_of b) language = Edge.JFunction f
                            /\ Edge.assoc language Edge.object_prototype
                               = Some (Edge.JFunction f)
                            /\ ~ In language supported_languages)).
  { unfold Edge.get_prop.
    destruct (Edge.assoc language (table_of b)) as [v|] eqn:A.
    - assert (V := @assoc_forallb is_text _ _ _ T A). unfold is_text in V.
      destruct v as [[|c s]| |]; try discriminate.
      left. exists (String c s). split; [reflexivity | discriminate].
    - apply assoc_none_not_in in A. rewrite K in A.
      destruct (Edge.assoc language Edge.object_prototype) as [v|] eqn:O.
      + assert (V := @assoc_forallb is_function _ _ _ P O).
        unfold is_function in V.
        destruct v as [|f|]; try discriminate.
        right. right. exists f. split; [reflexivity|].
        split; [reflexivity | exact A].
      + right. left. reflexivity. }
  destruct G as [(s & -> & Hs) | [-> | (f & -> & Ho & Hn)]].
  - left. exists s. split; [|exact Hs].
    destruct s; [congruence | reflexivity].
  - left. destruct En as (s & E & Hs). exists s. split; [|exact Hs].
    unfold Edge.or_else. simpl. exact E.
  - right. exists f. split; [reflexivity|]. split; [exact Ho | exact Hn].
Qed.

(** X18.  Whatever the request, the endpoint answers in one of three
    ways.  Without a body only to the preflight: nothing is logged, no
    backend entered, no random value consumed.  With a success object and
    HTTP 200 only for one of the three model names, after entering that
    backend and no other: the URL is not empty, and the transcript is that
    backend's answer for the language, which [JSON.stringify] writes as a
    non-empty string, unless the language is the name of a property every
    object inherits and not one of the five codes, in which case the
    transcript is a function and the serialised body has no transcript at
    all.  With an error object and HTTP 500 otherwise: the message is
    never empty, no backend has been entered and no random value has been
    consumed. *)
Theorem every_answer_is_preflight_success_or_error :
  forall fl max_arguments req w,
    let (resp, w') := Edge.serve fl max_arguments req w in
    match Edge.payload resp with
    | Edge.NoBody =>
        Edge.method req = "OPTIONS" /\ Edge.status resp = 200
        /\ Edge.trace w' = Edge.trace w
        /\ Edge.randoms w' = Edge.randoms w
    | Edge.Success transcript audioUrl latency model language =>
        Edge.status resp = 200
        /\ (exists b,
              model = Edge.Text (name_of b)
              /\ invocations w' = invocations w ++ [b]
              /\ transcript
                 = Edge.or_else
                     (Edge.get_prop (table_of b) (Edge.entry_string language))
                     (Edge.get_prop (table_of b) "en"))
        /\ audioUrl <> EmptyString
        /\ match stringified transcript with
           | Some s => s <> EmptyString
           | None =>
               Edge.assoc (Edge.entry_string language) Edge.object_prototype
               <> None
               /\ ~ In (Edge.entry_string language) supported_languages
           end
    | Edge.Failure message =>
        Edge.status resp = 500
        /\ message <> EmptyString
        /\ invocations w' = invocations w
        /\ Edge.randoms w' = Edge.randoms w
    end.
Proof.
  intros fl max_arguments req w. unfold Edge.serve.
  destruct (String.eqb (Edge.method req) "OPTIONS") eqn:Hmeth.
  { apply String.eqb_eq in Hmeth. cbn [Edge.payload Edge.status]. auto. }
  destruct (process_cases fl max_arguments req w)
    as [(e & w1 & -> & Hinv & Hnow & Hr)
       | (form & b & la & Hform & C & Hm & Hla)].
  - cbn [Edge.emit Edge.payload Edge.status Edge.now Edge.randoms].
    split; [reflexivity|]. split.
    + destruct (String.eqb e "") eqn:E; [discriminate|].
      now apply String.eqb_neq in E.
    + split; [|exact Hr].
      rewrite <- Hinv. same_invocations.
  - destruct (@process_supported fl _ req _ w b la Hform C Hm Hla)
      as (d & w' & -> & Hnow & _ & Hinv & _).
    cbn [Edge.payload Edge.status].
    split; [reflexivity|]. split; [exists b; auto|].
    split; [discriminate|].
    destruct (transcript_shape b (Edge.entry_string la))
      as [(s & -> & Hs) | (f & -> & Ho & Hn)]; cbn [stringified].
    + exact Hs.
    + split; [rewrite Ho; discriminate | exact Hn].
Qed.

(** ** Doubles between whole numbers *)

Section RoundingWithin.
Local Open Scope Q_scope.

(** A double is never larger than an integer of at most 53 bits that the
    rounded value was not larger than. *)
Lemma binary64_le_int (n : Z) x :
  (0 <= n <= 2 ^ 53)%Z -> 0 <= x -> x <= inject_Z n ->
  Num.binary64 x <= inject_Z n.
Proof.
  intros Hn H0 Hx.
  assert (N0 : 0 <= inject_Z n).
  { change 0 with (inject_Z 0). rewrite <- Zle_Qle. lia. }
  destruct (Qcompare_spec x 0) as [E|E|E].
  { unfold Num.binary64. apply Qeq_alt in E. unfold Qcompare in *.
    rewrite E. exact N0. }
  { lra. }
  assert (N1 : (1 <= n)%Z).
  { assert (L : inject_Z 0 < inject_Z n) by (change (inject_Z 0) with 0; lra).
    rewrite <- Zlt_Qlt in L. lia. }
  assert (Q1 : 1 <= inject_Z n).
  { change 1 with (inject_Z 1). rewrite <- Zle_Qle. exact N1. }
  destruct (Qlt_le_dec x 1) as [H1|H1].
  { destruct (binary64_0_1 E H1) as [_ B]. lra. }
  rewrite binary64_positive by lra.
  assert (Hfx : inject_Z (Qfloor x) <= x) by apply Qfloor_le.
  assert (Hf1 : (1 <= Qfloor x)%Z).
  { rewrite <- (Qfloor_Z 1). now apply Qfloor_resp_le. }
  assert (Hfn : (Qfloor x <= n)%Z).
  { rewrite <- (Qfloor_Z n). now apply Qfloor_resp_le. }
  set (f := Qfloor x) in *.
  assert (Hk := Z.log2_spec f ltac:(lia)).
  assert (Hk0 := Z.log2_nonneg f).
  assert (Hk53 : (Z.log2 f <= 53)%Z).
  { rewrite <- (Z.log2_pow2 53) by lia. apply Z.log2_le_mono. lia. }
  set (k := Z.log2 f) in *.
  assert (Ex : Num.exponent x = (k - 52)%Z).
  { unfold Num.exponent, Num.ilog2. apply Qle_bool_iff in H1. rewrite H1.
    fold f. fold k. lia. }
  unfold Num.binary64_pos. cbv zeta. rewrite Ex.
  destruct (Z.le_gt_cases k 52) as [Hk52|Hk52].
  - assert (P := @pow2_pos (52 - k) ltac:(lia)).
    assert (S1 : Num.scale2 x (- (k - 52)) = x * inject_Z (2 ^ (52 - k))).
    { unfold Num.scale2. replace (- (k - 52))%Z with (52 - k)%Z by lia.
      destruct (0 <=? 52 - k)%Z eqn:B; [reflexivity|].
      apply Z.leb_gt in B. lia. }
    assert (R : (Num.round_ne (Num.scale2 x (- (k - 52))) <= n * 2 ^ (52 - k))%Z).
    { apply round_ne_le. rewrite S1, inject_Z_mult.
      apply Qmult_le_compat_r; [exact Hx | lra]. }
    set (N := Num.round_ne (Num.scale2 x (- (k - 52)))) in *.
    rewrite Zle_Qle, inject_Z_mult in R.
    unfold Num.scale2. destruct (0 <=? k - 52)%Z eqn:B.
    + apply Z.leb_le in B.
      assert (E1 : (k - 52 = 0)%Z) by lia.
      assert (E2 : (52 - k = 0)%Z) by lia.
      rewrite E1. rewrite E2 in R.
      change (inject_Z (2 ^ 0)) with 1 in *. lra.
    + replace (- (k - 52))%Z with (52 - k)%Z by lia.
      apply Qle_shift_div_r; [exact P | exact R].
  - assert (P := @pow2_pos (k - 52) ltac:(lia)).
    assert (S1 : Num.scale2 x (- (k - 52)) = x / inject_Z (2 ^ (k - 52))).
    { unfold Num.scale2. destruct (0 <=? - (k - 52))%Z eqn:B.
      - apply Z.leb_le in B. lia.
      - now replace (- - (k - 52))%Z with (k - 52)%Z by lia. }
    assert (Hpow : inject_Z (2 ^ k)
                   == inject_Z (2 ^ 52) * inject_Z (2 ^ (k - 52))).
    { rewrite <- inject_Z_pow2_mult by lia.
      now replace (52 + (k - 52))%Z with k by lia. }
    assert (Hnk : inject_Z n <= inject_Z (2 ^ k)).
    { rewrite <- Zle_Qle. transitivity (2 ^ 53)%Z; [lia|].
      apply Z.pow_le_mono_r; lia. }
    assert (Hkn : inject_Z (2 ^ k) <= inject_Z n).
    { rewrite <- Zle_Qle. lia. }
    assert (R : (Num.round_ne (Num.scale2 x (- (k - 52))) <= 2 ^ 52)%Z).
    { apply round_ne_le. rewrite S1.
      apply Qle_shift_div_r; [exact P|]. rewrite <- Hpow. lra. }
    set (N := Num.round_ne (Num.scale2 x (- (k - 52)))) in *.
    rewrite Zle_Qle in R.
    unfold Num.scale2. destruct (0 <=? k - 52)%Z eqn:B;
      [|apply Z.leb_gt in B; lia].
    eapply Qle_trans; [|exact Hkn]. rewrite Hpow.
    apply Qmult_le_compat_r; [exact R | lra].
Qed.

(** Rounding to a double keeps a value between two whole numbers of at
    most 53 bits between them. *)
Lemma binary64_within (lo hi : Z) x :
  (0 <= lo)%Z -> (hi <= 2 ^ 53)%Z ->
  inject_Z lo <= x -> x <= inject_Z hi ->
  inject_Z lo <= Num.binary64 x /\ Num.binary64 x <= inject_Z hi.
Proof.
  intros Hlo Hhi A B.
  assert (L0 : 0 <= inject_Z lo).
  { change 0 with (inject_Z 0). now rewrite <- Zle_Qle. }
  assert (LH : (lo <= hi)%Z).
  { rewrite Zle_Qle. lra. }
  split.
  - destruct (Z.eq_dec lo 0) as [->|Hne].
    + apply binary64_nonneg. lra.
    + apply binary64_ge_int; [lia | exact A].
  - apply binary64_le_int; [lia | lra | exact B].
Qed.

(** One step of the running mean, in doubles, stays between the whole
    bounds of the old mean and the new value. *)
Lemma update_within (lo hi : Z) (avg x : Q) (j : nat) :
  (0 <= lo)%Z -> (1 <= hi)%Z -> (hi * (Z.of_nat j + 1) <= 2 ^ 53)%Z ->
  inject_Z lo <= avg /\ avg <= inject_Z hi ->
  inject_Z lo <= x /\ x <= inject_Z hi ->
  let mean := Num.div Num.binary64
                (Num.add Num.binary64
                   (Num.mul Num.binary64 avg (Num.of_nat j)) x)
                (Num.add Num.binary64 (Num.of_nat j) 1) in
  inject_Z lo <= mean /\ mean <= inject_Z hi.
Proof.
  intros Hlo Hhi Hcap [A1 A2] [X1 X2]. cbv zeta.
  unfold Num.div, Num.add, Num.mul, Num.of_nat.
  set (n := Z.of_nat j) in *.
  assert (Hn : (0 <= n)%Z) by (subst n; lia).
  assert (Qn : 0 <= inject_Z n).
  { change 0 with (inject_Z 0). now rewrite <- Zle_Qle. }
  assert (LH : (lo <= hi)%Z) by (rewrite Zle_Qle; lra).
  (* the product *)
  destruct (@binary64_within (lo * n) (hi * n) (avg * inject_Z n)) as [P1 P2];
    [nia | nia | | | ].
  { rewrite inject_Z_mult. now apply Qmult_le_compat_r. }
  { rewrite inject_Z_mult. now apply Qmult_le_compat_r. }
  set (p := Num.binary64 (avg * inject_Z n)) in *.
  rewrite inject_Z_mult in P1, P2.
  (* the sum *)
  destruct (@binary64_within (lo * (n + 1)) (hi * (n + 1)) (p + x)) as [S1 S2];
    [nia | nia | | | ].
  { rewrite inject_Z_mult, inject_Z_plus. change (inject_Z 1) with 1. lra. }
  { rewrite inject_Z_mult, inject_Z_plus. change (inject_Z 1) with 1. lra. }
  set (s := Num.binary64 (p + x)) in *.
  rewrite inject_Z_mult, inject_Z_plus in S1, S2.
  change (inject_Z 1) with 1 in S1, S2.
  (* the new count is exact *)
  destruct (@binary64_within (n + 1) (n + 1) (inject_Z n + 1)) as [C1 C2];
    [lia | nia | | | ].
  { rewrite inject_Z_plus. apply Qle_refl. }
  { rewrite inject_Z_plus. apply Qle_refl. }
  set (c := Num.binary64 (inject_Z n + 1)) in *.
  rewrite inject_Z_plus in C1, C2. change (inject_Z 1) with 1 in C1, C2.
  assert (Cpos : 0 < c) by lra.
  assert (Ceq : c == inject_Z n + 1) by (apply Qle_antisym; assumption).
  (* the quotient *)
  apply binary64_within; [exact Hlo | nia | |].
  - apply Qle_shift_div_l; [exact Cpos|]. rewrite Ceq. exact S1.
  - apply Qle_shift_div_r; [exact Cpos|]. rewrite Ceq. exact S2.
Qed.
End RoundingWithin.

Section DoubleMeans.
Local Open Scope Q_scope.

Lemma mean_of_update (k : measure) s r :
  mean_of k
    {| model_name := model_name s;
       avg_latency :=
         Num.div Num.binary64
           (Num.add Num.binary64
              (Num.mul Num.binary64 (avg_latency s)
                 (Num.of_nat (usage_count s))) (latency_of r))
           (Num.add Num.binary64 (Num.of_nat (usage_count s)) 1);
       avg_quality :=
         Num.div Num.binary64
           (Num.add Num.binary64
              (Num.mul Num.binary64 (avg_quality s)
                 (Num.of_nat (usage_count s))) (quality_of r))
           (Num.add Num.binary64 (Num.of_nat (usage_count s)) 1);
       avg_expressivity :=
         Num.div Num.binary64
           (Num.add Num.binary64
              (Num.mul Num.binary64 (avg_expressivity s)
                 (Num.of_nat (usage_count s))) (expressivity_of r))
           (Num.add Num.binary64 (Num.of_nat (usage_count s)) 1);
       usage_count := S (usage_count s) |}
  = Num.div Num.binary64
      (Num.add Num.binary64
         (Num.mul Num.binary64 (mean_of k s) (Num.of_nat (usage_count s)))
         (value_of k r))
      (Num.add Num.binary64 (Num.of_nat (usage_count s)) 1).
Proof. destruct k; reflexivity. Qed.

Lemma fold_within (k : measure) (m : string) (lo hi : Z) :
  (0 <= lo)%Z -> (1 <= hi)%Z ->
  forall g acc s,
    (forall r, In r g ->
               Perf.model_name r = m
               /\ inject_Z lo <= value_of k r /\ value_of k r <= inject_Z hi) ->
    match acc with
    | Some a =>
        (inject_Z lo <= mean_of k a /\ mean_of k a <= inject_Z hi)
        /\ (hi * Z.of_nat (usage_count a + List.length g) <= 2 ^ 53)%Z
    | None => (hi * Z.of_nat (List.length g) <= 2 ^ 53)%Z
    end ->
    fold_left (step_of Num.binary64 m) g acc = Some s ->
    inject_Z lo <= mean_of k s /\ mean_of k s <= inject_Z hi.
Proof.
  intros Hlo Hhi g. induction g as [|r g IH]; intros acc s Hg Hacc Hs.
  - simpl in Hs. subst acc. exact (proj1 Hacc).
  - simpl in Hs. destruct (Hg r (or_introl eq_refl)) as (Hm & V).
    assert (Hg' : forall r', In r' g ->
               Perf.model_name r' = m
               /\ inject_Z lo <= value_of k r' /\ value_of k r' <= inject_Z hi).
    { intros r' Hin. apply Hg. now right. }
    destruct acc as [a|].
    + rewrite (@step_of_update Num.binary64 m a r Hm) in Hs.
      destruct Hacc as [Ha Hcap].
      refine (IH _ s Hg' _ Hs). split.
      * rewrite mean_of_update. apply update_within; auto.
        simpl List.length in Hcap. nia.
      * cbn [usage_count]. simpl List.length in Hcap.
        replace (S (usage_count a) + List.length g)%nat
          with (usage_count a + S (List.length g))%nat by lia.
        exact Hcap.
    + rewrite (@step_of_fresh Num.binary64 m r Hm) in Hs.
      refine (IH _ s Hg' _ Hs). split.
      * destruct k; exact V.
      * cbn [usage_count]. exact Hacc.
Qed.

(** X19.  In doubles, as the page computes them, every published mean
    still lies between whole-number bounds of the values it averages: if
    a measure (latency, quality or expressivity) of every record of a
    model is between the whole numbers [lo >= 0] and [hi >= 1], so is the
    model's running mean of that measure, whatever was rounded on the
    way, as long as [hi] times the number of the model's records does not
    exceed 2^53. *)
Theorem double_means_stay_within_whole_bounds :
  forall (k : measure) (data : list Perf.row) (m : string) (s : ModelStats)
         (lo hi : Z),
    (0 <= lo)%Z -> (1 <= hi)%Z ->
    (hi * Z.of_nat (List.length (group m data)) <= 2 ^ 53)%Z ->
    stats_of m (computeStats Num.binary64 data) = Some s ->
    (forall r, In r data -> Perf.model_name r = m ->
               inject_Z lo <= value_of k r /\ value_of k r <= inject_Z hi) ->
    inject_Z lo <= mean_of k s /\ mean_of k s <= inject_Z hi.
Proof.
  intros k data m s lo hi Hlo Hhi Hcap Hs Hr.
  unfold computeStats in Hs.
  rewrite stats_of_values in Hs
    by (apply fold_aggregate_well_keyed; intros ? ? []).
  rewrite get_fold_aggregate, fold_step_of_group in Hs. simpl JsMap.get in Hs.
  apply (@fold_within k m lo hi Hlo Hhi (group m data) None s).
  - intros r Hin. apply filter_In in Hin. destruct Hin as [Hin E].
    apply String.eqb_eq in E. split; [exact E|]. now apply Hr.
  - exact Hcap.
  - exact Hs.
Qed.
End DoubleMeans.

Lemma double_means_stay_within_whole_bounds_witness :
  let a := {| Perf.id := 1; Perf.user_id := 7; Perf.model_name := "moshi";
              Perf.language := "en"; Perf.latency_ms := 412;
              Perf.quality_score := Some (391 # 100)%Q;
              Perf.expressivity_score := Some 3%Q;
              Perf.created_at := 10 |} in
  let b := {| Perf.id := 2; Perf.user_id := 7; Perf.model_name := "moshi";
              Perf.language := "en"; Perf.latency_ms := 640;
              Perf.quality_score := Some (457 # 100)%Q;
              Perf.expressivity_score := Some 5%Q;
              Perf.created_at := 20 |} in
  exists s,
    stats_of "moshi" (computeStats Num.binary64 [a; b; a]) = Some s
    /\ (5 * Z.of_nat (List.length (group "moshi" [a; b; a])) <= 2 ^ 53)%Z
    /\ (inject_Z 3 <= mean_of Quality s)%Q
    /\ (mean_of Quality s <= inject_Z 5)%Q.
Proof.
  intros a b.
  assert (E : { s | stats_of "moshi" (computeStats Num.binary64 [a; b; a])
                    = Some s })
    by (eexists; vm_compute; reflexivity).
  destruct E as [s E]. exists s. split; [exact E|].
  assert (Hcap : (5 * Z.of_nat (List.length (group "moshi" [a; b; a]))
                  <= 2 ^ 53)%Z) by (vm_compute; discriminate).
  split; [exact Hcap|].
  apply (@double_means_stay_within_whole_bounds
           Quality [a; b; a] "moshi" s 3 5 ltac:(lia) ltac:(lia) Hcap E).
  intros r [<-|[<-|[<-|[]]]] _; simpl; unfold quality_of; simpl; split;
    unfold Qle; simpl; lia.
Defined.

(** ** The dashboard on what the page publishes *)

Section DashboardOnStats.
Local Open Scope Q_scope.

Lemma binary64_nonpos x : x <= 0 -> Num.binary64 x <= 0.
Proof.
  intros H. destruct (Qcompare_spec x 0) as [E|E|E].
  - unfold Num.binary64. apply Qeq_alt in E. unfold Qcompare in *.
    rewrite E. apply Qle_refl.
  - assert (P : 0 < - x) by lra.
    assert (B := binary64_nonneg (Qlt_le_weak _ _ P)).
    rewrite (binary64_positive P) in B.
    unfold Num.binary64. apply Qlt_alt in E. unfold Qcompare in *.
    rewrite E. rewrite Qred_correct. lra.
  - lra.
Qed.

(** The entry of a model is the fold of its own records. *)
Lemma stats_fold fl m data :
  stats_of m (computeStats fl data)
  = fold_left (step_of fl m) (group m data) None.
Proof.
  unfold computeStats.
  rewrite stats_of_values by (apply fold_aggregate_well_keyed; intros ? ? []).
  now rewrite get_fold_aggregate, fold_step_of_group.
Qed.

Lemma group_rows (P : Perf.row -> Prop) m data :
  (forall r, In r data -> Perf.model_name r = m -> P r) ->
  forall r, In r (group m data) -> Perf.model_name r = m /\ P r.
Proof.
  intros H r Hin. apply filter_In in Hin. destruct Hin as [Hin E].
  apply String.eqb_eq in E. split; [exact E | now apply H].
Qed.

Lemma getScoreColor_cases score :
  (4 <= score -> Dashboard.getScoreColor score = "text-green-600")
  /\ (3 <= score -> Dashboard.getScoreColor score <> "text-red-600")
  /\ (score < 3 -> Dashboard.getScoreColor score = "text-red-600").
Proof.
  unfold Dashboard.getScoreColor.
  destruct (Qle_bool 4 score) eqn:A; destruct (Qle_bool 3 score) eqn:B;
    repeat split; intros H; try reflexivity; try discriminate;
    try (apply Qle_bool_iff in A); try (apply Qle_bool_iff in B);
    try (apply Qle_bool_iff in H; congruence);
    try lra.
Qed.
End DashboardOnStats.

Section DashboardBars.
Local Open Scope Q_scope.

Lemma inject_Z_le (a b : Z) x :
  (a <= b)%Z -> inject_Z b <= x -> inject_Z a <= x.
Proof.
  intros H L. eapply Qle_trans; [|exact L]. now rewrite <- Zle_Qle.
Qed.

Lemma le_inject_Z (a b : Z) x :
  (a <= b)%Z -> x <= inject_Z a -> x <= inject_Z b.
Proof.
  intros H L. eapply Qle_trans; [exact L|]. now rewrite <- Zle_Qle.
Qed.

Lemma score_bar_within (lo hi : Z) avg :
  (0 <= lo)%Z -> (hi <= 5)%Z -> within lo hi avg ->
  within (20 * lo) (20 * hi) (Dashboard.score_bar Num.binary64 avg).
Proof.
  intros Hlo Hhi [A B]. unfold Dashboard.score_bar, Num.mul.
  apply binary64_within; [lia | lia | |];
    rewrite inject_Z_mult; change (inject_Z 20) with 20; lra.
Qed.

(** X20.  The score bars and colours of the dashboard, in doubles, on an
    entry the page published: if quality and expressivity of every record
    of the model lie between the whole numbers [lo >= 0] and [hi <= 5]
    (the store's check admits 0 to 5; the page writes 3 to 5), both bars
    lie between [20 * lo] and [20 * hi], hence within the 0 to 100 of a
    progress bar; with [lo >= 3] neither score is shown in red, with
    [lo >= 4] both are shown in green. *)
Theorem score_bars_and_colours_follow_the_records :
  forall (data : list Perf.row) (m : string) (s : ModelStats) (lo hi : Z),
    (0 <= lo)%Z -> (1 <= hi <= 5)%Z ->
    (hi * Z.of_nat (List.length (group m data)) <= 2 ^ 53)%Z ->
    stats_of m (computeStats Num.binary64 data) = Some s ->
    (forall r, In r data -> Perf.model_name r = m ->
               within lo hi (quality_of r)
               /\ within lo hi (expressivity_of r)) ->
    within (20 * lo) (20 * hi)
           (Dashboard.score_bar Num.binary64 (avg_quality s))
    /\ within (20 * lo) (20 * hi)
              (Dashboard.score_bar Num.binary64 (avg_expressivity s))
    /\ ((3 <= lo)%Z ->
        Dashboard.getScoreColor (avg_quality s) <> "text-red-600"
        /\ Dashboard.getScoreColor (avg_expressivity s) <> "text-red-600")
    /\ ((4 <= lo)%Z ->
        Dashboard.getScoreColor (avg_quality s) = "text-green-600"
        /\ Dashboard.getScoreColor (avg_expressivity s) = "text-green-600").
Proof.
  intros data m s lo hi Hlo Hhi Hcap Hs Hr.
  rewrite stats_fold in Hs.
  assert (Q : within lo hi (mean_of Quality s)).
  { apply (@fold_within Quality m lo hi Hlo (proj1 Hhi)
             (group m data) None s); [|exact Hcap|exact Hs].
    apply group_rows. intros r Hin E. exact (proj1 (Hr r Hin E)). }
  assert (X : within lo hi (mean_of Expressivity s)).
  { apply (@fold_within Expressivity m lo hi Hlo (proj1 Hhi)
             (group m data) None s); [|exact Hcap|exact Hs].
    apply group_rows. intros r Hin E. exact (proj2 (Hr r Hin E)). }
  cbn [mean_of] in Q, X.
  split; [apply score_bar_within; [exact Hlo | lia | exact Q]|].
  split; [apply score_bar_within; [exact Hlo | lia | exact X]|].
  destruct Q as [Q1 _]. destruct X as [X1 _]. split; intros L.
  - split; apply getScoreColor_cases.
    + exact (@inject_Z_le 3 lo _ L Q1).
    + exact (@inject_Z_le 3 lo _ L X1).
  - split; apply getScoreColor_cases.
    + exact (@inject_Z_le 4 lo _ L Q1).
    + exact (@inject_Z_le 4 lo _ L X1).
Qed.

Lemma getLatencyColor_cases latency :
  (latency < 500 -> Dashboard.getLatencyColor latency = "text-green-600")
  /\ (500 <= latency -> latency < 1000 ->
      Dashboard.getLatencyColor latency = "text-yellow-600")
  /\ (1000 <= latency -> Dashboard.getLatencyColor latency = "text-red-600").
Proof.
  unfold Dashboard.getLatencyColor.
  destruct (Qcompare_spec latency 500) as [A|A|A];
    destruct (Qcompare_spec latency 1000) as [B|B|B];
    repeat split; intros; try reflexivity; exfalso; lra.
Qed.

Lemma latency_bar_within avg :
  within 0 2000 avg -> within 0 100 (Dashboard.latency_bar Num.binary64 avg).
Proof.
  intros [A B]. change (inject_Z 0) with 0 in A.
  change (inject_Z 2000) with 2000 in B.
  unfold Dashboard.latency_bar, Num.mul, Num.div. cbv zeta.
  destruct (@binary64_within 0 2000 (2000 - avg)) as [A1 B1];
    [lia | lia | | |].
  { change (inject_Z 0) with 0. lra. }
  { change (inject_Z 2000) with 2000. lra. }
  set (a := Num.binary64 (2000 - avg)) in *.
  change (inject_Z 0) with 0 in A1. change (inject_Z 2000) with 2000 in B1.
  destruct (@binary64_within 0 1 (a / 2000)) as [A2 B2]; [lia | lia | | |].
  { change (inject_Z 0) with 0. apply Qle_shift_div_l; lra. }
  { change (inject_Z 1) with 1. apply Qle_shift_div_r; lra. }
  set (b := Num.binary64 (a / 2000)) in *.
  change (inject_Z 0) with 0 in A2. change (inject_Z 1) with 1 in B2.
  destruct (@binary64_within 0 100 (b * 100)) as [A3 B3]; [lia | lia | | |].
  { change (inject_Z 0) with 0. lra. }
  { change (inject_Z 100) with 100. lra. }
  destruct (Qle_bool (Num.binary64 (b * 100)) 100); split; try assumption.
  - change (inject_Z 0) with 0. lra.
  - apply Qle_refl.
Qed.

Lemma latency_bar_empty avg :
  2000 <= avg -> Dashboard.latency_bar Num.binary64 avg <= 0.
Proof.
  intros A. unfold Dashboard.latency_bar, Num.mul, Num.div. cbv zeta.
  assert (A1 : Num.binary64 (2000 - avg) <= 0) by (apply binary64_nonpos; lra).
  set (a := Num.binary64 (2000 - avg)) in *.
  assert (A2 : Num.binary64 (a / 2000) <= 0).
  { apply binary64_nonpos. apply Qle_shift_div_r; lra. }
  set (b := Num.binary64 (a / 2000)) in *.
  assert (A3 : Num.binary64 (b * 100) <= 0) by (apply binary64_nonpos; lra).
  destruct (Qle_bool (Num.binary64 (b * 100)) 100) eqn:E; [exact A3|].
  exfalso. assert (T : Qle_bool (Num.binary64 (b * 100)) 100 = true)
    by (apply Qle_bool_iff; lra).
  congruence.
Qed.

(** X21.  The latency colour and bar of the dashboard, in doubles, on an
    entry the page published: if the latency of every record of the model
    lies between the whole numbers [lo >= 0] and [hi], the mean is shown
    in green when [hi < 500], in yellow when [500 <= lo] and [hi < 1000],
    in red when [1000 <= lo]; the bar lies within 0 to 100 when
    [hi <= 2000], and is not positive when [2000 <= lo]. *)
Theorem latency_colour_and_bar_follow_the_records :
  forall (data : list Perf.row) (m : string) (s : ModelStats) (lo hi : Z),
    (0 <= lo)%Z -> (1 <= hi)%Z ->
    (hi * Z.of_nat (List.length (group m data)) <= 2 ^ 53)%Z ->
    stats_of m (computeStats Num.binary64 data) = Some s ->
    (forall r, In r data -> Perf.model_name r = m ->
               within lo hi (latency_of r)) ->
    ((hi < 500)%Z ->
     Dashboard.getLatencyColor (avg_latency s) = "text-green-600")
    /\ ((500 <= lo)%Z -> (hi < 1000)%Z ->
        Dashboard.getLatencyColor (avg_latency s) = "text-yellow-600")
    /\ ((1000 <= lo)%Z ->
        Dashboard.getLatencyColor (avg_latency s) = "text-red-600")
    /\ ((hi <= 2000)%Z ->
        within 0 100 (Dashboard.latency_bar Num.binary64 (avg_latency s)))
    /\ ((2000 <= lo)%Z ->
        Dashboard.latency_bar Num.binary64 (avg_latency s) <= 0).
Proof.
  intros data m s lo hi Hlo Hhi Hcap Hs Hr.
  rewrite stats_fold in Hs.
  assert (L : within lo hi (mean_of Latency s)).
  { apply (@fold_within Latency m lo hi Hlo Hhi (group m data) None s);
      [|exact Hcap|exact Hs].
    apply group_rows. exact Hr. }
  cbn [mean_of] in L. destruct L as [L1 L2].
  assert (Lt500 : forall b : Z, (hi < b)%Z -> avg_latency s < inject_Z b).
  { intros b Hb. eapply Qle_lt_trans; [exact L2|]. now rewrite <- Zlt_Qlt. }
  split; [|split; [|split; [|split]]].
  - intros H. apply getLatencyColor_cases. exact (Lt500 500%Z H).
  - intros H1 H2. apply getLatencyColor_cases.
    + exact (@inject_Z_le 500 lo _ H1 L1).
    + exact (Lt500 1000%Z H2).
  - intros H. apply getLatencyColor_cases. exact (@inject_Z_le 1000 lo _ H L1).
  - intros H. apply latency_bar_within. split.
    + exact (@inject_Z_le 0 lo _ Hlo L1).
    + exact (@le_inject_Z hi 2000 _ H L2).
  - intros H. apply latency_bar_empty. exact (@inject_Z_le 2000 lo _ H L1).
Qed.
End DashboardBars.

Lemma score_bars_and_colours_follow_the_records_witness :
  let a := {| Perf.id := 1; Perf.user_id := 7; Perf.model_name := "moshi";
              Perf.language := "en"; Perf.latency_ms := 412;
              Perf.quality_score := Some (391 # 100)%Q;
              Perf.expressivity_score := Some 3%Q;
              Perf.created_at := 10 |} in
  let b := {| Perf.id := 2; Perf.user_id := 7; Perf.model_name := "moshi";
              Perf.language := "en"; Perf.latency_ms := 640;
              Perf.quality_score := Some (457 # 100)%Q;
              Perf.expressivity_score := Some 5%Q;
              Perf.created_at := 20 |} in
  exists s,
    stats_of "moshi" (computeStats Num.binary64 [a; b; a]) = Some s
    /\ (5 * Z.of_nat (List.length (group "moshi" [a; b; a])) <= 2 ^ 53)%Z
    /\ within (20 * 3) (20 * 5)
              (Dashboard.score_bar Num.binary64 (avg_quality s))
    /\ within (20 * 3) (20 * 5)
              (Dashboard.score_bar Num.binary64 (avg_expressivity s))
    /\ ((3 <= 3)%Z ->
        Dashboard.getScoreColor (avg_quality s) <> "text-red-600"
        /\ Dashboard.getScoreColor (avg_expressivity s) <> "text-red-600")
    /\ ((4 <= 3)%Z ->
        Dashboard.getScoreColor (avg_quality s) = "text-green-600"
        /\ Dashboard.getScoreColor (avg_expressivity s) = "text-green-600").
Proof.
  intros a b.
  assert (E : { s | stats_of "moshi" (computeStats Num.binary64 [a; b; a])
                    = Some s })
    by (eexists; vm_compute; reflexivity).
  destruct E as [s E]. exists s. split; [exact E|].
  assert (Hcap : (5 * Z.of_nat (List.length (group "moshi" [a; b; a]))
                  <= 2 ^ 53)%Z) by (vm_compute; discriminate).
  split; [exact Hcap|].
  apply (@score_bars_and_colours_follow_the_records
           [a; b; a] "moshi" s 3 5 ltac:(lia) ltac:(lia) Hcap E).
  intros r [<-|[<-|[<-|[]]]] _; unfold within, quality_of, expressivity_of;
    simpl; repeat split; unfold Qle; simpl; lia.
Defined.

Lemma latency_colour_and_bar_follow_the_records_witness :
  let a := {| Perf.id := 1; Perf.user_id := 7; Perf.model_name := "moshi";
              Perf.language := "en"; Perf.latency_ms := 412;
              Perf.quality_score := Some (391 # 100)%Q;
              Perf.expressivity_score := Some 3%Q;
              Perf.created_at := 10 |} in
  let b := {| Perf.id := 2; Perf.user_id := 7; Perf.model_name := "moshi";
              Perf.language := "en"; Perf.latency_ms := 640;
              Perf.quality_score := Some (457 # 100)%Q;
              Perf.expressivity_score := Some 5%Q;
              Perf.created_at := 20 |} in
  exists s,
    stats_of "moshi" (computeStats Num.binary64 [a; b; a]) = Some s
    /\ (700 * Z.of_nat (List.length (group "moshi" [a; b; a])) <= 2 ^ 53)%Z
    /\ ((700 < 500)%Z ->
        Dashboard.getLatencyColor (avg_latency s) = "text-green-600")
    /\ ((500 <= 400)%Z -> (700 < 1000)%Z ->
        Dashboard.getLatencyColor (avg_latency s) = "text-yellow-600")
    /\ ((1000 <= 400)%Z ->
        Dashboard.getLatencyColor (avg_latency s) = "text-red-600")
    /\ ((700 <= 2000)%Z ->
        within 0 100 (Dashboard.latency_bar Num.binary64 (avg_latency s)))
    /\ ((2000 <= 400)%Z ->
        (Dashboard.latency_bar Num.binary64 (avg_latency s) <= 0)%Q).
Proof.
  intros a b.
  assert (E : { s | stats_of "moshi" (computeStats Num.binary64 [a; b; a])
                    = Some s })
    by (eexists; vm_compute; reflexivity).
  destruct E as [s E]. exists s. split; [exact E|].
  assert (Hcap : (700 * Z.of_nat (List.length (group "moshi" [a; b; a]))
                  <= 2 ^ 53)%Z) by (vm_compute; discriminate).
  split; [exact Hcap|].
  apply (@latency_colour_and_bar_follow_the_records
           [a; b; a] "moshi" s 400 700 ltac:(lia) ltac:(lia) Hcap E).
  intros r [<-|[<-|[<-|[]]]] _; unfold within, latency_of;
    simpl; repeat split; unfold Qle; simpl; lia.
Defined.

(** ** The sidebar's list *)

Lemma insert_newest_first_perm c l :
  Permutation (History.insert_newest_first c l) (c :: l).
Proof.
  induction l as [|x l IH]; simpl; [apply Permutation_refl|].
  destruct (Conv.created_at (fst x) <? Conv.created_at (fst c)).
  - apply Permutation_refl.
  - eapply Permutation_trans; [apply perm_skip; exact IH | apply perm_swap].
Qed.

Lemma insert_newest_first_sorted c l :
  Sorted (fun a b => not_older (History.with_count a) (History.with_count b)) l ->
  Sorted (fun a b => not_older (History.with_count a) (History.with_count b))
         (History.insert_newest_first c l).
Proof.
  unfold not_older. simpl.
  induction l as [|x l IH]; simpl; intros H.
  - repeat constructor.
  - destruct (Conv.created_at (fst x) <? Conv.created_at (fst c)) eqn:E.
    + apply Nat.ltb_lt in E. constructor; [exact H|].
      constructor. lia.
    + apply Nat.ltb_ge in E. inversion H as [|? ? Hs Hh]; subst.
      constructor; [now apply IH|].
      destruct l as [|y l]; simpl.
      * constructor. exact E.
      * destruct (Conv.created_at (fst y) <? Conv.created_at (fst c)).
        -- constructor. exact E.
        -- inversion Hh; subst. constructor. assumption.
Qed.

Lemma newest_first_spec l :
  Sorted (fun a b => not_older (History.with_count a) (History.with_count b))
         (History.newest_first l)
  /\ Permutation (History.newest_first l) l.
Proof.
  unfold History.newest_first.
  assert (G : forall acc,
            Sorted (fun a b => not_older (History.with_count a)
                                         (History.with_count b)) acc ->
            Sorted (fun a b => not_older (History.with_count a)
                                         (History.with_count b))
              (fold_left (fun acc c => History.insert_newest_first c acc) l acc)
            /\ Permutation
                 (fold_left (fun acc c => History.insert_newest_first c acc) l acc)
                 (acc ++ l)).
  { induction l as [|x l IH]; simpl; intros acc Hs.
    - rewrite app_nil_r. split; [exact Hs | apply Permutation_refl].
    - destruct (IH _ (insert_newest_first_sorted x Hs)) as [S P].
      split; [exact S|]. eapply Permutation_trans; [exact P|].
      eapply Permutation_trans;
        [apply Permutation_app_tail, insert_newest_first_perm|].
      simpl. apply Permutation_middle. }
  destruct (G [] (Sorted_nil _)) as [S P]. split; assumption.
Qed.

Lemma Sorted_map (A B : Type) (f : A -> B) (R : B -> B -> Prop) l :
  Sorted (fun a b => R (f a) (f b)) l -> Sorted R (map f l).
Proof.
  induction 1 as [|a l Hs IH Hh]; simpl; constructor; [exact IH|].
  destruct Hh; simpl; constructor. assumption.
Qed.

(** X22.  What loading the sidebar does.  When the query goes through,
    the list becomes exactly the signed-in user's conversations, newest
    first, each with the number of messages stored for it; the store's
    tables, the open conversation and its messages stay as they were.
    When the query fails, the list is left as it was and the error is
    logged. *)
Theorem sidebar_lists_own_conversations_newest_first :
  forall n st db st' db',
    History.fetchConversations n st db = (st', db') ->
    same_tables db db'
    /\ currentConversationId st' = currentConversationId st
    /\ messages st' = messages st
    /\ match fault n with
       | None =>
           Permutation (map id (conversations st'))
                       (map Conv.id (own_conversations (user st) db))
           /\ Sorted not_older (conversations st')
           /\ (forall c, In c (conversations st') ->
                         message_count c
                         = List.length (stored_messages (id c) db))
           /\ notices st' = notices st
       | Some e =>
           conversations st' = conversations st
           /\ notices st'
              = notices st ++ [ConsoleError "Error fetching conversations:" e]
       end.
Proof.
  intros n st db st' db'.
  unfold History.fetchConversations, History.select_conversations.
  destruct (fault n) as [e|]; intros H; inversion H; subst; clear H.
  { repeat split; reflexivity. }
  cbn [conversations setConversations currentConversationId messages notices
       Db.tick Db.conversations Db.messages].
  split; [repeat split; reflexivity|]. split; [reflexivity|].
  split; [reflexivity|].
  match goal with
  | |- context [History.newest_first ?l] =>
      destruct (newest_first_spec l) as [S P]; set (rows := l) in *
  end.
  split; [|split; [|split; [|reflexivity]]].
  - rewrite map_map. cbn [History.with_count id].
    eapply Permutation_trans;
      [apply (Permutation_map (fun x => Conv.id (fst x))), P|].
    unfold rows, own_conversations. rewrite map_map. cbn [fst].
    apply Permutation_refl.
  - apply Sorted_map. exact S.
  - intros c Hin. apply in_map_iff in Hin. destruct Hin as (x & <- & Hin).
    apply (Permutation_in _ P) in Hin. unfold rows in Hin.
    apply in_map_iff in Hin. destruct Hin as (c0 & <- & _).
    reflexivity.
Qed.

Lemma sidebar_lists_own_conversations_newest_first_witness :
  same_tables demo_store2 (snd demo_listed)
  /\ currentConversationId (fst demo_listed) = currentConversationId demo_session2
  /\ messages (fst demo_listed) = messages demo_session2
  /\ match fault (calm 7) with
     | None =>
         Permutation (map id (conversations (fst demo_listed)))
                     (map Conv.id (own_conversations (user demo_session2)
                                                     demo_store2))
         /\ Sorted not_older (conversations (fst demo_listed))
         /\ (forall c, In c (conversations (fst demo_listed)) ->
                       message_count c
                       = List.length (stored_messages (id c) demo_store2))
         /\ notices (fst demo_listed) = notices demo_session2
     | Some e =>
         conversations (fst demo_listed) = conversations demo_session2
         /\ notices (fst demo_listed)
            = notices demo_session2
              ++ [ConsoleError "Error fetching conversations:" e]
     end.
Proof.
  apply (@sidebar_lists_own_conversations_newest_first
           (calm 7) demo_session2 demo_store2).
  vm_compute. reflexivity.
Defined.

Lemma filter_all (A : Type) (l : list A) : filter (fun _ => true) l = l.
Proof. induction l as [|x l IH]; simpl; congruence. Qed.

Lemma filter_twice (A : Type) (p q : A -> bool) l :
  filter p (filter q l) = filter (fun x => q x && p x) l.
Proof.
  induction l as [|x l IH]; simpl; [reflexivity|].
  destruct (q x); simpl; [destruct (p x)|]; congruence.
Qed.

Lemma fetchModelStats_sidebar fl n st db st' db' :
  fetchModelStats fl n st db = (st', db') ->
  conversations st' = conversations st.
Proof.
  unfold fetchModelStats.
  destruct (Db.select_model_performance n (user st) (user st) db) as [[d|e] db1];
    intros H; inversion H; subst; reflexivity.
Qed.

Lemma handler_sidebar fl env transcript audioUrl latency st db o st' db' :
  handleTranscriptionReceived fl env transcript audioUrl latency st db
  = (o, st', db') ->
  conversations st' = conversations st.
Proof.
  intros H.
  destruct (handler_paths _ _ _ _ _ _ _ H) as (c & st0 & db0 & Hc & Hp).
  assert (H0 : conversations st0 = conversations st).
  { revert Hc. unfold conversation_for, createNewConversation.
    destruct (currentConversationId st); [intros X; inversion X; auto|].
    destruct (Db.insert_conversation _ _ _ _ _ _ db) as [[d|e] db1];
      intros X; inversion X; subst; reflexivity. }
  destruct c as [cid|].
  - destruct Hp as [(e & _ & _ & ->) | [(u & db1 & e & _ & _ & _ & ->)
                                       | (u & a & perf & ->)]];
      [exact H0 | exact H0 |].
    apply recorded_inv in H.
    destruct H as (cid' & st1 & db1 & db2 & db3 & db4 & Hs & _ & _ & _ & Hf).
    rewrite (fetchModelStats_sidebar _ _ _ _ Hf). simpl.
    destruct Hs as [(_ & -> & _) | (_ & Hn)]; [reflexivity|].
    destruct (createNewConversation_some _ _ _ Hn) as (-> & _). reflexivity.
  - destruct Hp as (_ & -> & _). exact H0.
Qed.

Lemma page_step_sidebar fl s s' :
  page_step fl s s' ->
  exists kept, conversations (fst s') = filter kept (conversations (fst s)).
Proof.
  destruct 1 as [env t a l st db o st' db' H | n cid st db st' db' H | st db
                | n cid st db ok st' db' H | n st db st' db' H
                | m st db Hm | l st db Hl]; simpl.
  - exists (fun _ => true). rewrite filter_all. exact (handler_sidebar _ _ _ _ _ _ _ H).
  - exists (fun _ => true). rewrite filter_all. revert H.
    unfold handleSelectConversation, fetchMessages.
    destruct (Db.select_messages _ _ _ db) as [[d|e] db1];
      intros H; inversion H; subst; reflexivity.
  - exists (fun _ => true). now rewrite filter_all.
  - revert H. unfold deleteConversation.
    destruct (Db.delete_conversation n (user st) cid db) as [[[]|e] db1];
      intros H; inversion H; subst.
    + exists (fun conv => negb (Nat.eqb (id conv) cid)).
      cbn [currentConversationId setConversations].
      destruct (currentConversationId st) as [c|]; [|reflexivity].
      destruct (Nat.eqb c cid); reflexivity.
    + exists (fun _ => true). now rewrite filter_all.
  - exists (fun _ => true). rewrite filter_all.
    exact (fetchModelStats_sidebar _ _ _ _ H).
  - exists (fun _ => true). now rewrite filter_all.
  - exists (fun _ => true). now rewrite filter_all.
Qed.

(** X23.  None of the page's handlers refreshes the sidebar: along every
    run of recording, selecting, starting, deleting, fetching statistics
    and changing the selects, the sidebar's list is only ever filtered.
    An entry listed afterwards was listed before, in the same order and
    with the same message count; a conversation started by an exchange is
    not added, and the count of the open one does not follow the messages
    recorded in it. *)
Theorem page_handlers_only_filter_the_sidebar :
  forall fl st db st' db',
    page_run fl (st, db) (st', db') ->
    exists kept, conversations st' = filter kept (conversations st).
Proof.
  intros fl st db st' db' R.
  assert (G : forall s s',
            page_run fl s s' ->
            exists kept,
              conversations (fst s') = filter kept (conversations (fst s))).
  { clear. intros s s' R. induction R as [s | s1 s2 s3 R IH S].
    - exists (fun _ => true). now rewrite filter_all.
    - destruct IH as [k1 E1]. destruct (page_step_sidebar S) as [k2 E2].
      exists (fun x => k1 x && k2 x). rewrite E2, E1. apply filter_twice. }
  exact (G _ _ R).
Qed.

Lemma page_handlers_only_filter_the_sidebar_witness :
  page_run Num.binary64 (fst demo_listed, snd demo_listed)
           (snd (fst demo_third), snd demo_third)
  /\ (exists kept,
        conversations (snd (fst demo_third))
        = filter kept (conversations (fst demo_listed)))
  /\ List.length (stored_messages 4 (snd demo_third)) = 4
  /\ map message_count (conversations (snd (fst demo_third))) = [2; 2].
Proof.
  assert (R : page_run Num.binary64 (fst demo_listed, snd demo_listed)
                (snd (fst demo_third), snd demo_third)).
  { eapply run_step; [apply run_done|].
    apply (@step_exchange Num.binary64 demo_env "encore"
             "https://mock-audio-storage.com/moshi/en/1700000003000.wav" 390
             (fst demo_listed) (snd demo_listed) (fst (fst demo_third))).
    vm_compute. reflexivity. }
  split; [exact R|].
  split; [exact (page_handlers_only_filter_the_sidebar R)|].
  split; reflexivity.
Defined.

(** ** Doubles just above a whole number *)

Section RoundingAbove.
Local Open Scope Q_scope.

(** A positive value that is not tiny does not round to zero. *)
Lemma binary64_gt_zero (d : Z) x :
  (1 <= d <= 2 ^ 1000)%Z -> 1 / inject_Z d <= x -> 0 < Num.binary64 x.
Proof.
  intros Hd Hx.
  assert (Dpos : 0 < inject_Z d).
  { change 0 with (inject_Z 0). rewrite <- Zlt_Qlt. lia. }
  assert (Xpos : 0 < x).
  { eapply Qlt_le_trans; [|exact Hx]. apply Qlt_shift_div_l; [exact Dpos|]. lra. }
  destruct (Qlt_le_dec x 1) as [H1|H1].
  2:{ assert (G := @binary64_ge_int 1 x ltac:(lia) H1).
      change (inject_Z 1) with 1 in G. lra. }
  rewrite binary64_positive by exact Xpos.
  (* the exponent *)
  assert (Hinv : / x <= inject_Z d).
  { apply Qle_shift_inv_r; [exact Xpos|].
    assert (T := Qmult_le_compat_r _ _ (inject_Z d) Hx (Qlt_le_weak _ _ Dpos)).
    assert (U : 1 / inject_Z d * inject_Z d == 1) by (field; lra).
    rewrite U in T. lra. }
  assert (Hinv1 : 1 < / x).
  { apply Qlt_shift_inv_l; [exact Xpos|]. lra. }
  set (c := Qceiling (/ x)).
  assert (Hc : (1 < c <= d)%Z).
  { split.
    - assert (A := Qle_ceiling (/ x)). fold c in A.
      assert (B : inject_Z 1 < inject_Z c) by (change (inject_Z 1) with 1; lra).
      now rewrite <- Zlt_Qlt in B.
    - unfold c. rewrite <- (Qceiling_Z d). now apply Qceiling_resp_le. }
  assert (HL := Z.log2_up_spec c (proj1 Hc)).
  assert (HL0 := Z.log2_up_nonneg c).
  assert (HL1 : (Z.log2_up c <= 1000)%Z).
  { rewrite <- (Z.log2_up_pow2 1000) by lia. apply Z.log2_up_le_mono. lia. }
  set (L := Z.log2_up c) in *.
  assert (Ex : Num.exponent x = (- L - 52)%Z).
  { unfold Num.exponent, Num.ilog2.
    destruct (Qle_bool 1 x) eqn:B; [apply Qle_bool_iff in B; lra|].
    fold c. fold L. lia. }
  unfold Num.binary64_pos. cbv zeta. rewrite Ex.
  assert (P := @pow2_pos (L + 52) ltac:(lia)).
  assert (S1 : Num.scale2 x (- (- L - 52)) = x * inject_Z (2 ^ (L + 52))).
  { unfold Num.scale2. replace (- (- L - 52))%Z with (L + 52)%Z by lia.
    destruct (0 <=? L + 52)%Z eqn:B; [reflexivity|].
    apply Z.leb_gt in B. lia. }
  assert (R : (1 <= Num.round_ne (Num.scale2 x (- (- L - 52))))%Z).
  { apply round_ne_ge. rewrite S1. change (inject_Z 1) with 1.
    rewrite inject_Z_pow2_mult by lia.
    assert (PL := @pow2_pos L HL0).
    assert (P52 : 1 <= inject_Z (2 ^ 52)) by (vm_compute; discriminate).
    assert (XL : 1 <= x * inject_Z (2 ^ L)).
    { assert (CL : / x <= inject_Z (2 ^ L)).
      { eapply Qle_trans; [apply Qle_ceiling|]. fold c.
        rewrite <- Zle_Qle. lia. }
      assert (T := Qmult_le_compat_r _ _ x CL (Qlt_le_weak _ _ Xpos)).
      assert (U : / x * x == 1) by (field; lra).
      rewrite U in T. lra. }
    rewrite Qmult_assoc.
    rewrite <- (Qmult_1_l 1).
    apply Qmult_le_compat_nonneg; split; lra. }
  set (N := Num.round_ne (Num.scale2 x (- (- L - 52)))) in *.
  rewrite Zle_Qle in R. change (inject_Z 1) with 1 in R.
  unfold Num.scale2. destruct (0 <=? - L - 52)%Z eqn:B;
    [apply Z.leb_le in B; lia|].
  replace (- (- L - 52))%Z with (L + 52)%Z by lia.
  apply Qlt_shift_div_l; [exact P|]. lra.
Qed.
End RoundingAbove.

Section RoundingAboveWhole.
Local Open Scope Q_scope.

(** A value that clears a small whole number by at least [1/d] still
    clears it after rounding to a double. *)
Lemma binary64_gt_int (n d : Z) x :
  (1 <= n <= 7)%Z -> (1 <= d <= 2 ^ 50)%Z ->
  inject_Z n + 1 / inject_Z d <= x -> inject_Z n < Num.binary64 x.
Proof.
  intros Hn Hd Hx.
  assert (Dpos : 0 < inject_Z d).
  { change 0 with (inject_Z 0). rewrite <- Zlt_Qlt. lia. }
  assert (Qpos : 0 < 1 / inject_Z d).
  { apply Qlt_shift_div_l; [exact Dpos|]. lra. }
  assert (N7 : inject_Z n <= 7).
  { change 7 with (inject_Z 7). rewrite <- Zle_Qle. lia. }
  assert (N1 : 1 <= inject_Z n).
  { change 1 with (inject_Z 1). rewrite <- Zle_Qle. lia. }
  destruct (Qlt_le_dec x 8) as [H8|H8].
  2:{ assert (G := @binary64_ge_int 8 x ltac:(lia) H8).
      change (inject_Z 8) with 8 in G. lra. }
  rewrite binary64_positive by lra.
  assert (Hf1 : (n <= Qfloor x)%Z).
  { rewrite <- (Qfloor_Z n). apply Qfloor_resp_le. lra. }
  assert (Hf7 : (Qfloor x <= 7)%Z).
  { assert (A := Qfloor_le x).
    assert (B : inject_Z (Qfloor x) < inject_Z 8)
      by (change (inject_Z 8) with 8; lra).
    rewrite <- Zlt_Qlt in B. lia. }
  set (f := Qfloor x) in *.
  assert (Hk0 := Z.log2_nonneg f).
  assert (Hk2 : (Z.log2 f <= 2)%Z).
  { change 2%Z with (Z.log2 7). apply Z.log2_le_mono. exact Hf7. }
  set (k := Z.log2 f) in *.
  assert (Ex : Num.exponent x = (k - 52)%Z).
  { unfold Num.exponent, Num.ilog2.
    assert (H1 : 1 <= x) by lra.
    apply Qle_bool_iff in H1. rewrite H1. fold f. fold k. lia. }
  unfold Num.binary64_pos. cbv zeta. rewrite Ex.
  assert (P := @pow2_pos (52 - k) ltac:(lia)).
  assert (PD : inject_Z d <= inject_Z (2 ^ (52 - k))).
  { rewrite <- Zle_Qle. transitivity (2 ^ 50)%Z; [lia|].
    apply Z.pow_le_mono_r; lia. }
  assert (S1 : Num.scale2 x (- (k - 52)) = x * inject_Z (2 ^ (52 - k))).
  { unfold Num.scale2. replace (- (k - 52))%Z with (52 - k)%Z by lia.
    destruct (0 <=? 52 - k)%Z eqn:B; [reflexivity|].
    apply Z.leb_gt in B. lia. }
  assert (R : (n * 2 ^ (52 - k) + 1
               <= Num.round_ne (Num.scale2 x (- (k - 52))))%Z).
  { apply round_ne_ge. rewrite S1, inject_Z_plus, inject_Z_mult.
    change (inject_Z 1) with 1.
    set (p := inject_Z (2 ^ (52 - k))) in *.
    assert (T := Qmult_le_compat_r _ _ p Hx (Qlt_le_weak _ _ P)).
    assert (U : (inject_Z n + 1 / inject_Z d) * p
                == inject_Z n * p + p / inject_Z d) by (field; lra).
    rewrite U in T.
    assert (V : 1 <= p / inject_Z d).
    { apply Qle_shift_div_l; [exact Dpos | lra]. }
    lra. }
  set (N := Num.round_ne (Num.scale2 x (- (k - 52)))) in *.
  rewrite Zle_Qle, inject_Z_plus, inject_Z_mult in R.
  change (inject_Z 1) with 1 in R.
  unfold Num.scale2. destruct (0 <=? k - 52)%Z eqn:B;
    [apply Z.leb_le in B; lia|].
  replace (- (k - 52))%Z with (52 - k)%Z by lia.
  apply Qlt_shift_div_l; [exact P | lra].
Qed.

Lemma Qceiling_between (n : Z) y :
  inject_Z n < y -> y <= inject_Z (n + 1) -> Qceiling y = (n + 1)%Z.
Proof.
  intros A B.
  assert (C := Qle_ceiling y). assert (D := Qceiling_lt y).
  assert (E : inject_Z n < inject_Z (Qceiling y)) by lra.
  assert (F : inject_Z (Qceiling y - 1) < inject_Z (n + 1)) by lra.
  rewrite <- Zlt_Qlt in E, F. lia.
Qed.

Lemma Qceiling_above (n : Z) y :
  inject_Z n < y -> (n < Qceiling y)%Z.
Proof.
  intros A. assert (C := Qle_ceiling y).
  assert (E : inject_Z n < inject_Z (Qceiling y)) by lra.
  now rewrite <- Zlt_Qlt in E.
Qed.

(** The difference of two whole numbers that are at most 2^53 apart is
    computed exactly, and so is its absolute value. *)
Lemma binary64_abs_difference (a b : Z) :
  (Z.abs (a - b) <= 2 ^ 53)%Z ->
  Qabs (Num.binary64 (inject_Z a - inject_Z b)) == inject_Z (Z.abs (a - b)).
Proof.
  intros H. set (x := inject_Z a - inject_Z b).
  assert (X : x == inject_Z (a - b)).
  { unfold x. unfold Zminus. rewrite inject_Z_plus, inject_Z_opp. ring. }
  destruct (Z.lt_trichotomy (a - b) 0) as [L|[E|G]].
  - assert (Xn : x < 0).
    { rewrite X. change 0 with (inject_Z 0). now rewrite <- Zlt_Qlt. }
    assert (P : 0 < - x) by lra.
    destruct (@binary64_within (- (a - b)) (- (a - b)) (- x)) as [A B];
      [lia | lia | | |].
    { rewrite X, inject_Z_opp. apply Qle_refl. }
    { rewrite X, inject_Z_opp. apply Qle_refl. }
    rewrite (binary64_positive P) in A, B.
    assert (V : Num.binary64 x == - Num.binary64_pos (- x)).
    { unfold Num.binary64. apply Qlt_alt in Xn. unfold Qcompare in *.
      rewrite Xn. apply Qred_correct. }
    rewrite (Qabs_wd _ _ V), Qabs_opp.
    assert (W : Num.binary64_pos (- x) == inject_Z (- (a - b)))
      by (apply Qle_antisym; assumption).
    rewrite (Qabs_wd _ _ W).
    replace (Z.abs (a - b)) with (- (a - b))%Z by lia.
    rewrite Qabs_pos; [apply Qeq_refl|].
    change 0 with (inject_Z 0). rewrite <- Zle_Qle. lia.
  - assert (X0 : x == 0) by (rewrite X, E; reflexivity).
    assert (V : Num.binary64 x = 0).
    { unfold Num.binary64. apply Qeq_alt in X0. unfold Qcompare in *.
      now rewrite X0. }
    rewrite V, E. reflexivity.
  - destruct (@binary64_within (a - b) (a - b) x) as [A B];
      [lia | lia | | |].
    { rewrite X. apply Qle_refl. }
    { rewrite X. apply Qle_refl. }
    assert (W : Num.binary64 x == inject_Z (a - b))
      by (apply Qle_antisym; assumption).
    rewrite (Qabs_wd _ _ W).
    replace (Z.abs (a - b)) with (a - b)%Z by lia.
    rewrite Qabs_pos; [apply Qeq_refl|].
    change 0 with (inject_Z 0). rewrite <- Zle_Qle. lia.
Qed.
End RoundingAboveWhole.

(** ** The age of a conversation *)

Section ConversationAge.
Local Open Scope Q_scope.

Lemma day_below_2_1000 : (1 <= 86400000 <= 2 ^ 1000)%Z.
Proof.
  split; [lia|]. transitivity (2 ^ 50)%Z; [vm_compute; discriminate|].
  apply Z.pow_le_mono_r; lia.
Qed.

Lemma day_below_2_50 : (1 <= 86400000 <= 2 ^ 50)%Z.
Proof. split; [lia | vm_compute; discriminate]. Qed.

(** The number of days [formatDate] computes in doubles is the whole
    number of days elapsed, rounded up, as far as it matters. *)
Lemma diffDays_spec (now date : Z) :
  let t := Z.abs (now - date) in
  let diffDays :=
    Qceiling (Num.div Num.binary64
                (Qabs (Num.binary64 (inject_Z now - inject_Z date)))
                (inject_Z (1000 * 60 * 60 * 24))) in
  (t <= 2 ^ 53)%Z ->
  ((t <= 604800000)%Z -> diffDays = days_elapsed t)
  /\ ((604800000 < t)%Z -> (7 < diffDays)%Z).
Proof.
  intros t diffDays Ht. subst diffDays.
  assert (HT := binary64_abs_difference now date Ht). fold t in HT.
  set (T := Qabs (Num.binary64 (inject_Z now - inject_Z date))) in *.
  change (inject_Z (1000 * 60 * 60 * 24)) with (inject_Z 86400000).
  unfold Num.div.
  assert (T0 : (0 <= t)%Z) by (subst t; lia).
  assert (Dpos : 0 < inject_Z 86400000) by reflexivity.
  split; intros Hr.
  - destruct (Z.eq_dec t 0) as [E0|N0].
    + assert (X0 : T / inject_Z 86400000 == 0).
      { rewrite HT, E0. reflexivity. }
      assert (V : Num.binary64 (T / inject_Z 86400000) = 0).
      { unfold Num.binary64. apply Qeq_alt in X0. unfold Qcompare in *.
        now rewrite X0. }
      rewrite V, E0. reflexivity.
    + set (n := ((t - 1) / 86400000)%Z).
      assert (Hn : (0 <= n <= 6 /\ n * 86400000 + 1 <= t
                    /\ t <= (n + 1) * 86400000)%Z).
      { subst n. Z.div_mod_to_equations. lia. }
      destruct Hn as (Hn & Hlo & Hhi).
      assert (De : days_elapsed t = (n + 1)%Z).
      { unfold days_elapsed. subst n. Z.div_mod_to_equations. lia. }
      rewrite De.
      assert (Xlo : inject_Z n + 1 / inject_Z 86400000
                    <= T / inject_Z 86400000).
      { rewrite HT. apply Qle_shift_div_l; [exact Dpos|].
        assert (U : (inject_Z n + 1 / inject_Z 86400000) * inject_Z 86400000
                    == inject_Z (n * 86400000 + 1)).
        { rewrite inject_Z_plus, inject_Z_mult. change (inject_Z 1) with 1.
          field. }
        rewrite U. now rewrite <- Zle_Qle. }
      assert (Xhi : T / inject_Z 86400000 <= inject_Z (n + 1)).
      { rewrite HT. apply Qle_shift_div_r; [exact Dpos|].
        rewrite <- inject_Z_mult. now rewrite <- Zle_Qle. }
      apply Qceiling_between.
      * destruct (Z.eq_dec n 0) as [->|Nn].
        -- change (inject_Z 0) with 0.
           apply (@binary64_gt_zero 86400000); [exact day_below_2_1000|].
           change (inject_Z 0) with 0 in Xlo. lra.
        -- apply (@binary64_gt_int n 86400000);
             [lia | exact day_below_2_50 | exact Xlo].
      * apply binary64_le_int; [lia | | exact Xhi].
        eapply Qle_trans; [|exact Xlo].
        assert (0 <= inject_Z n)
          by (change 0 with (inject_Z 0); rewrite <- Zle_Qle; lia).
        assert (0 < 1 / inject_Z 86400000)
          by (apply Qlt_shift_div_l; [exact Dpos | lra]).
        lra.
  - apply Qceiling_above.
    apply (@binary64_gt_int 7 86400000); [lia | exact day_below_2_50 |].
    rewrite HT. apply Qle_shift_div_l; [exact Dpos|].
    assert (U : (inject_Z 7 + 1 / inject_Z 86400000) * inject_Z 86400000
                == inject_Z 604800001) by reflexivity.
    rewrite U. rewrite <- Zle_Qle. lia.
Qed.

(** X24.  The age shown next to a conversation, computed in doubles, for
    two instants at most 2^53 ms apart: what counts is the time elapsed,
    in either direction, not the calendar day.  No time at all gives
    "0 days ago"; up to 24 hours "Today"; up to 48 hours "Yesterday"; up
    to seven days the number of days begun, from 3 to 7; beyond that the
    locale's date. *)
Theorem conversation_age_counts_elapsed_days :
  forall (toLocaleDateString : Z -> string) (now date : Z),
    (Z.abs (now - date) <= 2 ^ 53)%Z ->
    History.formatDate Num.binary64 toLocaleDateString now date
    = let t := Z.abs (now - date) in
      if (t =? 0)%Z then "0 days ago"
      else if (t <=? 86400000)%Z then "Today"
      else if (t <=? 172800000)%Z then "Yesterday"
      else if (t <=? 604800000)%Z
      then (Edge.show_Z (days_elapsed t) ++ " days ago")%string
      else toLocaleDateString date.
Proof.
  intros toLocaleDateString now date Ht. cbv zeta.
  destruct (diffDays_spec now date Ht) as [Hin Hout].
  unfold History.formatDate. cbv zeta.
  set (t := Z.abs (now - date)) in *.
  set (diffDays := Qceiling _) in *.
  destruct (t <=? 604800000)%Z eqn:R7.
  - apply Z.leb_le in R7. rewrite (Hin R7).
    assert (T0 : (0 <= t)%Z) by (subst t; lia).
    destruct (t =? 0)%Z eqn:E0.
    { apply Z.eqb_eq in E0. rewrite E0. reflexivity. }
    apply Z.eqb_neq in E0.
    destruct (t <=? 86400000)%Z eqn:R1.
    { apply Z.leb_le in R1.
      replace (days_elapsed t) with 1%Z
        by (unfold days_elapsed; Z.div_mod_to_equations; lia).
      reflexivity. }
    apply Z.leb_gt in R1.
    destruct (t <=? 172800000)%Z eqn:R2.
    { apply Z.leb_le in R2.
      replace (days_elapsed t) with 2%Z
        by (unfold days_elapsed; Z.div_mod_to_equations; lia).
      reflexivity. }
    apply Z.leb_gt in R2.
    assert (D : (3 <= days_elapsed t <= 7)%Z)
      by (unfold days_elapsed; Z.div_mod_to_equations; lia).
    replace (days_elapsed t =? 1)%Z with false by (symmetry; apply Z.eqb_neq; lia).
    replace (days_elapsed t =? 2)%Z with false by (symmetry; apply Z.eqb_neq; lia).
    replace (days_elapsed t <=? 7)%Z with true by (symmetry; apply Z.leb_le; lia).
    reflexivity.
  - apply Z.leb_gt in R7. specialize (Hout R7).
    replace (t =? 0)%Z with false by (symmetry; apply Z.eqb_neq; lia).
    replace (t <=? 86400000)%Z with false by (symmetry; apply Z.leb_gt; lia).
    replace (t <=? 172800000)%Z with false by (symmetry; apply Z.leb_gt; lia).
    replace (diffDays =? 1)%Z with false by (symmetry; apply Z.eqb_neq; lia).
    replace (diffDays =? 2)%Z with false by (symmetry; apply Z.eqb_neq; lia).
    replace (diffDays <=? 7)%Z with false by (symmetry; apply Z.leb_gt; lia).
    reflexivity.
Qed.
End ConversationAge.

Lemma conversation_age_counts_elapsed_days_witness :
  (Z.abs (1700000000000 - 1699800000000) <= 2 ^ 53)%Z
  /\ History.formatDate Num.binary64 (fun _ : Z => "11/12/2023")
       1700000000000 1699800000000
     = let t := Z.abs (1700000000000 - 1699800000000) in
       if (t =? 0)%Z then "0 days ago"
       else if (t <=? 86400000)%Z then "Today"
       else if (t <=? 172800000)%Z then "Yesterday"
       else if (t <=? 604800000)%Z
       then (Edge.show_Z (days_elapsed t) ++ " days ago")%string
       else (fun _ : Z => "11/12/2023") 1699800000000%Z.
Proof.
  assert (H : (Z.abs (1700000000000 - 1699800000000) <= 2 ^ 53)%Z)
    by (vm_compute; discriminate).
  split; [exact H|].
  exact (@conversation_age_counts_elapsed_days (fun _ : Z => "11/12/2023")
           1700000000000 1699800000000 H).
Defined.

(** ** Model names on display *)

Lemma check_model_cases m :
  Db.check_model m = true ->
  m = "moshi" \/ m = "ultravox" \/ m = "spirit_lm".
Proof.
  unfold Db.check_model, Db.model_names. simpl. intros H.
  repeat (apply orb_true_iff in H; destruct H as [H|H]);
    try discriminate; apply String.eqb_eq in H; auto.
Qed.

(** X25.  Every model name the store accepts is shown under a proper
    name, the same in the sidebar's badge and in the dashboard, and two
    accepted names are never shown alike.  The title the page gives a new
    conversation starts with that display name for [moshi] and
    [ultravox] only: for [spirit_lm] the title says [Spirit_lm] where the
    badge says [Spirit LM]. *)
Theorem model_names_are_displayed_apart :
  forall m m',
    Db.check_model m = true -> Db.check_model m' = true ->
    History.formatModelName m = Dashboard.formatModelName m
    /\ In (History.formatModelName m) ["Moshi"; "Ultravox"; "Spirit LM"]
    /\ (History.formatModelName m = History.formatModelName m' -> m = m')
    /\ (capitalize m = History.formatModelName m <-> m <> "spirit_lm").
Proof.
  intros m m' Hm Hm'.
  destruct (check_model_cases _ Hm) as [-> | [-> | ->]];
    destruct (check_model_cases _ Hm') as [-> | [-> | ->]];
    (split; [reflexivity|]);
    (split; [simpl; auto|]);
    (split; [intros E; first [reflexivity | discriminate E]|]);
    (split; [intros E ?; discriminate | intros E]);
    first [reflexivity | exfalso; apply E; reflexivity].
Qed.

Lemma model_names_are_displayed_apart_witness :
  Db.check_model "spirit_lm" = true /\ Db.check_model "moshi" = true
  /\ History.formatModelName "spirit_lm" = Dashboard.formatModelName "spirit_lm"
  /\ In (History.formatModelName "spirit_lm") ["Moshi"; "Ultravox"; "Spirit LM"]
  /\ (History.formatModelName "spirit_lm" = History.formatModelName "moshi"
      -> "spirit_lm" = "moshi")
  /\ (capitalize "spirit_lm" = History.formatModelName "spirit_lm"
      <-> "spirit_lm" <> "spirit_lm").
Proof.
  split; [reflexivity|]. split; [reflexivity|].
  exact (@model_names_are_displayed_apart "spirit_lm" "moshi" eq_refl eq_refl).
Defined.

(** ** Handlers that overlap *)

(** X12.  The emptiness of the list while no conversation is active does
    not survive overlapping handlers.  [handleSelectConversation] makes
    the conversation the active one and starts [fetchMessages] without
    awaiting it.  When "New" is pressed before that fetch resolves, the
    fetch, once it goes through, fills the list with the rows of the
    conversation that had been selected, in time order, while no
    conversation is active. *)
Theorem new_before_the_fetch_resolves_shows_stale_rows :
  forall n conversationId st db,
    fault n = None ->
    visible_messages (user st) conversationId db <> [] ->
    let selected := setCurrentConversationId (Some conversationId) st in
    handleSelectConversation n conversationId st db
    = fetchMessages n conversationId selected db
    /\ let (st', db') :=
         fetchMessages n conversationId (handleNewConversation selected) db in
       currentConversationId st' = None
       /\ messages st' <> []
       /\ Sorted not_later (messages st')
       /\ Permutation (messages st')
                      (visible_messages (user st) conversationId db)
       /\ same_tables db db'
       /\ ~ session_ok st' db'.
Proof.
  intros n cid st db Hf Hv. cbv zeta. split; [reflexivity|].
  unfold fetchMessages, Db.select_messages. cbv zeta. rewrite Hf.
  cbn [user handleNewConversation setMessages setCurrentConversationId
       currentConversationId messages].
  change (Db.owns_conversation (user st) cid (Db.tick n db))
    with (Db.owns_conversation (user st) cid db).
  change (Db.messages (Db.tick n db)) with (Db.messages db).
  fold (visible_messages (user st) cid db).
  destruct (order_by_created_at_spec (visible_messages (user st) cid db))
    as [A B].
  assert (N : Db.order_by_created_at (visible_messages (user st) cid db) <> []).
  { intros E. rewrite E in B. apply Permutation_nil in B. contradiction. }
  split; [reflexivity|]. split; [exact N|]. split; [exact A|].
  split; [exact B|]. split; [repeat split; reflexivity|].
  intros [S _]. apply N. apply S. reflexivity.
Qed.

Lemma new_before_the_fetch_resolves_shows_stale_rows_witness :
  fault (calm 8) = None
  /\ visible_messages (user demo_session2) 0 demo_store2 <> []
  /\ handleSelectConversation (calm 8) 0 demo_session2 demo_store2
     = fetchMessages (calm 8) 0
         (setCurrentConversationId (Some 0) demo_session2) demo_store2
  /\ let (st', db') :=
       fetchMessages (calm 8) 0
         (handleNewConversation
            (setCurrentConversationId (Some 0) demo_session2)) demo_store2 in
     currentConversationId st' = None
     /\ messages st' <> []
     /\ Sorted not_later (messages st')
     /\ Permutation (messages st')
                    (visible_messages (user demo_session2) 0 demo_store2)
     /\ same_tables demo_store2 db'
     /\ ~ session_ok st' db'.
Proof.
  assert (V : visible_messages (user demo_session2) 0 demo_store2 <> [])
    by (vm_compute; discriminate).
  split; [reflexivity|]. split; [exact V|].
  exact (@new_before_the_fetch_resolves_shows_stale_rows
           (calm 8) 0 demo_session2 demo_store2 eq_refl V).
Defined.
